(** * Survey taxonomy resolution and aggregation (WGK.py)

    A shallow embedding of the batch pipeline of [WGK.py]: the taxonomy
    resolver (steps 2-5 of [main]), the response normaliser (steps 6 and
    6a) and the aggregator (steps 7 and 9), followed by the properties of
    the pipeline.

    Conventions of the embedding.
    - A DataFrame is the list of its rows, in row order; the columns a
      step does not touch are not represented. The mapping relation [df1]
      is its [question_code] column.
    - A missing value (NaN) of a nullable column is [None]. Question
      codes, item codes and team names are never missing.
    - Identifiers are integers. The [domainId] cells of the subdomain
      table are integers, texts or missing, and the column type pandas
      gives such a column decides how [astype(str)] prints a cell
      (object columns, as pandas has them before version 3).
    - Scores are integers (the source assumes 1-10); the statistics are
      exact rationals, the real-number reading of the float64 results,
      and a standard deviation is kept as its square. The float64
      standard deviation itself, a streaming computation whose rounding
      depends on the row order, is [std_float64].
    - Text is a string of bytes. [py_int] reads ASCII text as Python's
      [int] does, and [cell_text] prints a float cell as pandas does for
      the integers a float64 holds exactly ([float64_exact]).
    - Python exceptions are values of [py_error]; a step that may raise
      returns a [result].
    - Loading the files, writing the outputs and the pivot of step 8 are
      outside the embedding. *)

From Stdlib Require Import ZArith QArith Qround Qreduction List String Ascii Bool.
From Stdlib Require Import Lia Permutation DecimalString Setoid Morphisms.
From Stdlib Require Qcanon.
From Stdlib Require Import Sorted Lqa.
From Stdlib Require DecimalPos.
From Stdlib Require Import PrimFloat.
Import ListNotations.

Open Scope string_scope.
Open Scope Z_scope.

(** ** Exceptions *)

Inductive py_error : Type :=
| ValueError (literal : string)
    (* invalid literal for int() with base 10: '<literal>' *)
| OverflowError.
    (* Python int too large to convert to C long *)

Inductive result (A : Type) : Type :=
| Ok (a : A)
| Err (e : py_error).

Arguments Ok {A} a.
Arguments Err {A} e.

Definition bind {A B : Type} (r : result A) (k : A -> result B) : result B :=
  match r with
  | Ok a => k a
  | Err e => Err e
  end.

Notation "x <- r ;; k" := (bind r (fun x => k))
  (at level 61, r at next level, right associativity).

(** Element-wise conversion of a column: the first element that raises
    aborts the whole conversion. *)
Fixpoint mapM {A B : Type} (f : A -> result B) (l : list A) : result (list B) :=
  match l with
  | [] => Ok []
  | x :: l' => y <- f x ;; ys <- mapM f l' ;; Ok (y :: ys)
  end.

(** ** Python's [int(str)] in base 10

    Surrounding white space is stripped, one sign is allowed, and the
    digits may be separated by single underscores. The characters are
    the ASCII ones: [py_int] is [int] on the text of [int_text] below,
    and the statement that derives the error of a malformed domain list
    from [py_int] assumes the domain texts to be such text. *)

Definition is_space (c : ascii) : bool :=
  let n := nat_of_ascii c in
  ((9 <=? n) && (n <=? 13) || (28 <=? n) && (n <=? 32))%nat.

Fixpoint lstrip (cs : list ascii) : list ascii :=
  match cs with
  | c :: r => if is_space c then lstrip r else cs
  | [] => []
  end.

Definition strip (cs : list ascii) : list ascii :=
  rev (lstrip (rev (lstrip cs))).

Definition digit_val (c : ascii) : option Z :=
  let n := nat_of_ascii c in
  if ((48 <=? n) && (n <=? 57))%nat then Some (Z.of_nat (n - 48)) else None.

Fixpoint digits_acc (acc : Z) (after_digit : bool) (cs : list ascii) : option Z :=
  match cs with
  | [] => if after_digit then Some acc else None
  | c :: r =>
      match digit_val c with
      | Some d => digits_acc (10 * acc + d) true r
      | None =>
          if Ascii.eqb c "_" && after_digit then digits_acc acc false r
          else None
      end
  end.

Definition py_int (s : string) : option Z :=
  match strip (list_ascii_of_string s) with
  | "+"%char :: r => digits_acc 0 false r
  | "-"%char :: r => option_map Z.opp (digits_acc 0 false r)
  | cs => digits_acc 0 false cs
  end.

Definition int64_min : Z := - 2 ^ 63.
Definition int64_max : Z := 2 ^ 63 - 1.

(** One element of [Series.astype(int)] on a column of strings. *)
Definition astype_int (tok : string) : result Z :=
  match py_int tok with
  | None => Err (ValueError tok)
  | Some v =>
      if (int64_min <=? v) && (v <=? int64_max) then Ok v else Err OverflowError
  end.

(** [str.split(',')]: never empty, one more piece than there are commas. *)
Fixpoint split_comma (s : string) : list string :=
  match s with
  | EmptyString => [""]
  | String c r =>
      if Ascii.eqb c "," then "" :: split_comma r
      else
        match split_comma r with
        | h :: t => String c h :: t
        | [] => [String c ""]
        end
  end.

(** Decimal rendering of an integer, as [str] gives it. *)
Definition str_of_int (z : Z) : string :=
  NilZero.string_of_int (Z.to_int z).

(** ** Input relations *)

(** [df2[['code','subdomain_id']]]: the item table. *)
Record ItemRow : Type := mkItem {
  code : string;
  item_subdomain_id : option Z
}.

(** A cell of the [domainId] column of the subdomain table: an integer,
    a text such as ["1,4"], or missing. *)
Inductive dom_val : Type :=
| DInt (z : Z)
| DStr (s : string)
| DNaN.

(** [df3[['id','domainId']]]: the subdomain table. *)
Record SubdomainRow : Type := mkSubdomain {
  sd_id : option Z;
  sd_domainId : dom_val
}.

(** The wide response table [df4]: the two identifier columns, and one
    column of nullable scores per question code, in column order. *)
Record Responses : Type := mkResponses {
  id_vars : list (Z * string);
  value_vars : list (string * list (option Z))
}.

(** ** Taxonomy resolver *)

(** [left.merge(right, how='left')]: every left row, in order, paired
    with each matching right row in order, or kept once with missing
    values when nothing matches. *)
Definition left_merge {L R O : Type} (matches : L -> R -> bool)
    (joined : L -> R -> O) (unmatched : L -> O)
    (left : list L) (right : list R) : list O :=
  flat_map
    (fun l =>
       match filter (matches l) right with
       | [] => [unmatched l]
       | ms => map (joined l) ms
       end)
    left.

(** Key equality of [merge]: missing keys match each other. *)
Definition key_eqb (a b : option Z) : bool :=
  match a, b with
  | Some x, Some y => Z.eqb x y
  | None, None => true
  | _, _ => false
  end.

(** Step 2: [df1.merge(df2[['code','subdomain_id']], how='left', ...)]. *)
Definition merge_items (df1 : list string) (df2 : list ItemRow)
  : list (string * option Z) :=
  left_merge (fun q r => String.eqb q (code r))
             (fun q r => (q, item_subdomain_id r))
             (fun q => (q, None))
             df1 df2.

(** Step 3: the manual mapping. *)
Definition manual_map : list (string * Z) :=
  [ ("ZT117", 7); ("ZT142", 6); ("ZT121", 14); ("ZT123", 14); ("ZT144", 12);
    ("ZT118", 24); ("ZT125", 18); ("ZT126", 18); ("ZT127", 19); ("ZT134", 1);
    ("ZT135", 1); ("ZT136", 1); ("ZT143", 13); ("ZT119", 24); ("ZT129", 15);
    ("ZT124", 18); ("ZT128", 16); ("ZT122", 14); ("ZT131", 11); ("ZT145", 24);
    ("ZT132", 19); ("ZT74", 19); ("ZT133", 1); ("ZT130", 15); ("ZT146", 20);
    ("ZT120", 13); ("ZT137", 3); ("ZT138", 3); ("ZT139", 3); ("ZT140", 3);
    ("ZT141", 3) ].

Fixpoint dict_get (d : list (string * Z)) (k : string) : option Z :=
  match d with
  | [] => None
  | (k', v) :: d' => if String.eqb k k' then Some v else dict_get d' k
  end.

(** [Series.map(dict)]: keys that are not in the dict give NaN. *)
Definition series_map (d : list (string * Z)) (col : list string)
  : list (option Z) :=
  map (dict_get d) col.

(** [Series.fillna(other)]: position by position, a missing value is
    taken from [other]. *)
Definition fillna (col other : list (option Z)) : list (option Z) :=
  map (fun p => match fst p with Some v => Some v | None => snd p end)
      (combine col other).

Definition manual_fallback (t : list (string * option Z))
  : list (string * option Z) :=
  combine (map fst t)
          (fillna (map snd t) (series_map manual_map (map fst t))).

(** Steps 2 and 3 together: the question-to-subdomain table. *)
Definition subdomain_table (df1 : list string) (df2 : list ItemRow)
  : list (string * option Z) :=
  manual_fallback (merge_items df1 df2).

(** Step 4: [df1.merge(df3[['id','domainId']], how='left', ...)]. *)
Definition merge_subdomains (t : list (string * option Z))
    (df3 : list SubdomainRow) : list (string * option Z * dom_val) :=
  left_merge (fun l d => key_eqb (snd l) (sd_id d))
             (fun l d => (fst l, snd l, sd_domainId d))
             (fun l => (fst l, snd l, DNaN))
             t df3.

(** Column types that matter for [astype(str)]. *)
Inductive dtype : Type := Int64 | Float64 | Object.

Definition is_int (v : dom_val) : bool :=
  match v with DInt _ => true | _ => false end.

Definition is_nan (v : dom_val) : bool :=
  match v with DNaN => true | _ => false end.

Definition is_str (v : dom_val) : bool :=
  match v with DStr _ => true | _ => false end.

(** The type of a column as it was read: integers only, integers with
    gaps, or anything with text in it (also the empty column). *)
Definition col_dtype (col : list dom_val) : dtype :=
  match col with
  | [] => Object
  | _ =>
      if forallb is_int col then Int64
      else if existsb is_str col then Object
      else Float64
  end.

(** A left merge that leaves gaps turns an integer column into floats. *)
Definition merged_dtype (d : dtype) (col : list dom_val) : dtype :=
  match d with
  | Int64 => if existsb is_nan col then Float64 else Int64
  | _ => d
  end.

(** The integers a float64 column holds exactly and prints in
    positional notation: those of absolute value at most 2^53. A larger
    integer is rounded when the merge turns the column into floats, and
    from 10^16 on the text is in exponent notation ([1e+16]). *)
Definition float64_exact (z : Z) : Prop := Z.abs z <= 2 ^ 53.

(** One element of [astype(str)]. A float that holds an integer prints
    with a trailing [.0]; the [Float64] branch is the text pandas gives
    for the integers of [float64_exact], and the statements that read
    that branch for its digits are stated for such integers. *)
Definition cell_text (d : dtype) (v : dom_val) : string :=
  match v with
  | DStr s => s
  | DNaN => "nan"
  | DInt z =>
      match d with
      | Float64 => str_of_int z ++ ".0"
      | _ => str_of_int z
      end
  end.

Record TaxonomyRow : Type := mkTaxonomy {
  tx_question_code : string;
  tx_subdomain_id : option Z;
  tx_domainId : Z
}.

(** Step 5, first half: [astype(str).str.split(',')] and [explode]. *)
Definition explode_domains (d : dtype)
    (t : list (string * option Z * dom_val))
  : list (string * option Z * string) :=
  flat_map
    (fun r => map (fun tok => (fst (fst r), snd (fst r), tok))
                  (split_comma (cell_text d (snd r))))
    t.

(** Step 5, second half: [astype(int)] on the exploded column. *)
Definition to_taxonomy (r : string * option Z * string) : result TaxonomyRow :=
  v <- astype_int (snd r) ;; Ok (mkTaxonomy (fst (fst r)) (snd (fst r)) v).

(** Steps 2 to 5. *)
Definition resolve (df1 : list string) (df2 : list ItemRow)
    (df3 : list SubdomainRow) : result (list TaxonomyRow) :=
  let merged := merge_subdomains (subdomain_table df1 df2) df3 in
  let d := merged_dtype (col_dtype (map sd_domainId df3)) (map snd merged) in
  mapM to_taxonomy (explode_domains d merged).




(** ** Response normaliser *)

(** A row of the melted table. *)
Record ResponseRecord : Type := mkResponse {
  employee_id : Z;
  team : string;
  question_code : string;
  score : option Z
}.

(** A melted row with the two taxonomy columns the merge of step 6 adds. *)
Record AnnotatedResponse : Type := mkAnnotated {
  response : ResponseRecord;
  subdomain_id : option Z;
  domainId : option Z
}.

(** [df4.melt(id_vars=['employee_id','team'], ...)]: the value columns
    one after the other, each over all the rows. *)
Definition melt (df4 : Responses) : list ResponseRecord :=
  flat_map
    (fun col =>
       map (fun p => mkResponse (fst (fst p)) (snd (fst p)) (fst col) (snd p))
           (combine (id_vars df4) (snd col)))
    (value_vars df4).

(** [.merge(df1[['question_code','subdomain_id','domainId']], how='left')]. *)
Definition annotate (long : list ResponseRecord) (tax : list TaxonomyRow)
  : list AnnotatedResponse :=
  left_merge (fun r t => String.eqb (question_code r) (tx_question_code t))
             (fun r t => mkAnnotated r (tx_subdomain_id t) (Some (tx_domainId t)))
             (fun r => mkAnnotated r None None)
             long tax.

Definition reverse_items : list string :=
  [ "ZT101"; "ZT102"; "ZT103"; "ZT13"; "ZT14"; "ZT15"; "ZT16"; "ZT18"; "ZT19";
    "ZT20"; "ZT21"; "ZT22"; "ZT23"; "ZT24"; "ZT25"; "ZT26"; "ZT28"; "ZT29";
    "ZT30"; "ZT33"; "ZT34"; "ZT4"; "ZT43"; "ZT60"; "ZT70"; "ZT74"; "ZT78";
    "ZT79"; "ZT80"; "ZT81"; "ZT85"; "ZT89" ].

Definition isin (values : list string) (x : string) : bool :=
  existsb (String.eqb x) values.

(** A table that has a [question_code] and a [score] column. *)
Class ScoreFrame (R : Type) : Type := {
  code_of : R -> string;
  score_of : R -> option Z;
  set_score : R -> option Z -> R
}.

#[global] Instance ResponseRecord_frame : ScoreFrame ResponseRecord := {
  code_of := question_code;
  score_of := score;
  set_score r s := mkResponse (employee_id r) (team r) (question_code r) s
}.

#[global] Instance AnnotatedResponse_frame : ScoreFrame AnnotatedResponse := {
  code_of a := question_code (response a);
  score_of a := score (response a);
  set_score a s :=
    mkAnnotated (set_score (response a) s) (subdomain_id a) (domainId a)
}.

(** [c - series]: NaN stays NaN. *)
Definition rsub (c : Z) (s : option Z) : option Z :=
  option_map (fun v => c - v) s.

(** A column with its row labels (the positions, after the merge). *)
Definition labelled {A : Type} (col : list A) : list (nat * A) :=
  combine (seq 0 (List.length col)) col.

(** [col.loc[mask]]: the selected values, each with its label. *)
Definition loc_get (mask : list bool) (col : list (option Z))
  : list (nat * option Z) :=
  map (fun p : nat * (bool * option Z) => (fst p, snd (snd p)))
      (filter (fun p => fst (snd p)) (labelled (combine mask col))).

Fixpoint label_get (s : list (nat * option Z)) (i : nat) : option (option Z) :=
  match s with
  | [] => None
  | (j, v) :: s' => if Nat.eqb i j then Some v else label_get s' i
  end.

(** [col.loc[mask] = rhs]: the selected positions take the value [rhs]
    has under their label, NaN when it has none. *)
Definition loc_set (mask : list bool) (col : list (option Z))
    (rhs : list (nat * option Z)) : list (option Z) :=
  map (fun p : nat * (bool * option Z) =>
         if fst (snd p)
         then match label_get rhs (fst p) with Some v => v | None => None end
         else snd (snd p))
      (labelled (combine mask col)).

(** Step 6a: recode the reversed items. *)
Definition recode {R : Type} `{ScoreFrame R} (df : list R) : list R :=
  let mask := map (fun r => isin reverse_items (code_of r)) df in
  let scores := map score_of df in
  let rhs := map (fun p => (fst p, rsub 11 (snd p))) (loc_get mask scores) in
  map (fun p => set_score (fst p) (snd p))
      (combine df (loc_set mask scores rhs)).

(** ** Aggregator *)

(** The non-missing values of a Series; every statistic skips NaN. *)
Fixpoint dropna (x : list (option Z)) : list Z :=
  match x with
  | [] => []
  | Some v :: r => v :: dropna r
  | None :: r => dropna r
  end.

Fixpoint insert_sorted (v : Z) (l : list Z) : list Z :=
  match l with
  | [] => [v]
  | h :: t => if v <=? h then v :: l else h :: insert_sorted v t
  end.

Definition sort_values (l : list Z) : list Z :=
  fold_right insert_sorted [] l.

Definition total (l : list Z) : Z := fold_right Z.add 0 l.

Definition count (l : list Z) : Z := Z.of_nat (List.length l).

(** [Series.quantile(q)], linear interpolation: the value at the
    fractional rank [q * (n - 1)] of the sorted values,
    [lo + (hi - lo) * frac]. *)
Definition quantile (q : Q) (x : list (option Z)) : option Q :=
  match dropna x with
  | [] => None
  | l =>
      let s := sort_values l in
      let n := List.length s in
      let pos := (q * inject_Z (Z.of_nat (n - 1)))%Q in
      let lo := Z.to_nat (Qfloor pos) in
      let hi := Nat.min (lo + 1) (n - 1) in
      let frac := (pos - inject_Z (Qfloor pos))%Q in
      let a := inject_Z (nth lo s 0) in
      let b := inject_Z (nth hi s 0) in
      Some (Qred (a + (b - a) * frac))
  end.

(** The grouped ['median']: the middle value, or the mean of the two
    middle values. *)
Definition median (x : list (option Z)) : option Q :=
  match dropna x with
  | [] => None
  | l =>
      let s := sort_values l in
      let n := List.length s in
      if Nat.even n
      then Some (Qred ((inject_Z (nth (n / 2 - 1) s 0)
                        + inject_Z (nth (n / 2) s 0)) / 2))
      else Some (inject_Z (nth (n / 2) s 0))
  end.

Definition mean (x : list (option Z)) : option Q :=
  match dropna x with
  | [] => None
  | l => Some (Qred (inject_Z (total l) / inject_Z (count l)))
  end.

(** A non-negative real known by its square: [Sqrt v] is the square
    root of [v]. *)
Record root : Type := Sqrt { radicand : Q }.

Definition sq_dev (m : Q) (l : list Z) : Q :=
  fold_right (fun v acc => ((inject_Z v - m) * (inject_Z v - m) + acc)%Q) 0%Q l.

(** The grouped ['std'] in exact arithmetic: the sample standard
    deviation (N-1 denominator) as the root of the sample variance, NaN
    below two values. It is the real number that the float64 result of
    pandas approximates; that result itself is [std_float64] below, and
    unlike this one it depends on the order of the values. *)
Definition std (x : list (option Z)) : option root :=
  match mean x with
  | None => None
  | Some m =>
      let l := dropna x in
      if (List.length l <? 2)%nat then None
      else Some (Sqrt (Qred (sq_dev m l / inject_Z (count l - 1))))
  end.

Definition qsub (a b : option Q) : option Q :=
  match a, b with
  | Some u, Some v => Some (Qred (u - v))
  | _, _ => None
  end.

(** Interquartile range: Q3 - Q1 *)
Definition iqr (x : list (option Z)) : option Q :=
  qsub (quantile (3 # 4) x) (quantile (1 # 4) x).

Record Stats : Type := mkStats {
  median_score : option Q;
  mean_score : option Q;
  std_score : option root;
  IQR_score : option Q
}.

(** The aggregation of step 7. *)
Definition agg_subdomain (x : list (option Z)) : Stats :=
  mkStats (median x) (mean x) (std x) (iqr x).

(** The aggregation of step 9. *)
Definition agg_domain (x : list (option Z)) : Stats :=
  mkStats (quantile (1 # 2) x) (mean x) (std x) (iqr x).

Section GroupBy.

Context {K Row S : Type}.
Variable cmp : K -> K -> comparison.
Variable key : Row -> option K.
Variable val : Row -> option Z.
Variable agg : list (option Z) -> S.

Fixpoint insert_key (k : K) (l : list K) : list K :=
  match l with
  | [] => [k]
  | h :: t =>
      match cmp k h with
      | Lt => k :: l
      | Eq => l
      | Gt => h :: insert_key k t
      end
  end.

(** The group keys: distinct, in increasing order. *)
Definition group_keys (ks : list K) : list K :=
  fold_right insert_key [] ks.

(** Rows with a missing key belong to no group. *)
Definition keys_of (rows : list Row) : list K :=
  flat_map (fun r => match key r with Some k => [k] | None => [] end) rows.

Definition in_group (k : K) (r : Row) : bool :=
  match key r with
  | Some k' => match cmp k k' with Eq => true | _ => false end
  | None => false
  end.

(** [rows.groupby(keys)[val].agg(...)]: one row per group key, in key
    order. *)
Definition groupby (rows : list Row) : list (K * S) :=
  map (fun k => (k, agg (map val (filter (in_group k) rows))))
      (group_keys (keys_of rows)).

End GroupBy.

Definition lex (c1 c2 : comparison) : comparison :=
  match c1 with
  | Eq => c2
  | _ => c1
  end.

Definition SubdomainKey : Type := string * Z * Z.
Definition DomainKey : Type := string * Z.

Definition subdomain_key_cmp (a b : SubdomainKey) : comparison :=
  lex (String.compare (fst (fst a)) (fst (fst b)))
      (lex (Z.compare (snd (fst a)) (snd (fst b)))
           (Z.compare (snd a) (snd b))).

Definition domain_key_cmp (a b : DomainKey) : comparison :=
  lex (String.compare (fst a) (fst b)) (Z.compare (snd a) (snd b)).

(** [['team','domainId','subdomain_id']] of a row. *)
Definition subdomain_key (a : AnnotatedResponse) : option SubdomainKey :=
  match domainId a, subdomain_id a with
  | Some d, Some s => Some (team (response a), d, s)
  | _, _ => None
  end.

(** [['team','domainId']] of a row. *)
Definition domain_key (a : AnnotatedResponse) : option DomainKey :=
  match domainId a with
  | Some d => Some (team (response a), d)
  | None => None
  end.

(** Step 7: subdomain-level statistics. *)
Definition subdomain_stats (df_long : list AnnotatedResponse)
  : list (SubdomainKey * Stats) :=
  groupby subdomain_key_cmp subdomain_key score_of agg_subdomain df_long.

(** Step 9: domain-level statistics. *)
Definition domain_level_stats (df_long : list AnnotatedResponse)
  : list (DomainKey * Stats) :=
  groupby domain_key_cmp domain_key score_of agg_domain df_long.

(** ** The pipeline *)

Record Outputs : Type := mkOutputs {
  df_long : list AnnotatedResponse;
  stats_df : list (SubdomainKey * Stats);
  domain_stats : list (DomainKey * Stats)
}.

(** Steps 2 to 9 of [main]; the pivot of step 8 only reshapes
    [stats_df] and is left out. *)
Definition main (df1 : list string) (df2 : list ItemRow)
    (df3 : list SubdomainRow) (df4 : Responses) : result Outputs :=
  tax <- resolve df1 df2 df3 ;;
  let long := recode (annotate (melt df4) tax) in
  Ok (mkOutputs long (subdomain_stats long) (domain_level_stats long)).

(** ** The standard deviation in float64

    pandas computes the grouped ['std'] in float64, in one pass over the
    values of a group in row order ([group_var]): for each value
    [nobs += 1; oldmean = mean; mean += (val - oldmean) / nobs;
    out += (val - mean) * (val - oldmean)], and at the end
    [sqrt(out / (nobs - ddof))] with [ddof = 1], or NaN when
    [nobs <= ddof]. Every operation rounds, so the result depends on the
    order of the rows in its last bits; [std] above is the exact value
    it approximates. *)

(** An integer as a float64, exact for the integers of [float64_exact]. *)
Fixpoint float_of_pos (p : positive) : float :=
  match p with
  | xH => 1%float
  | xO p' => (2 * float_of_pos p')%float
  | xI p' => (2 * float_of_pos p' + 1)%float
  end.

Definition float_of_Z (z : Z) : float :=
  match z with
  | Z0 => 0%float
  | Zpos p => float_of_pos p
  | Zneg p => (- float_of_pos p)%float
  end.

(** The running count, mean and sum of squared deviations of a group. *)
Record var_state : Type := mkVarState {
  nobs : Z;
  run_mean : float;
  run_out : float
}.

Definition group_var_step (st : var_state) (v : Z) : var_state :=
  let val := float_of_Z v in
  let n := nobs st + 1 in
  let oldmean := run_mean st in
  let newmean := (oldmean + (val - oldmean) / float_of_Z n)%float in
  mkVarState n newmean (run_out st + (val - newmean) * (val - oldmean))%float.

Definition group_var (l : list Z) : var_state :=
  fold_left group_var_step l (mkVarState 0 0%float 0%float).

(** The grouped ['std'] as a float64; [None] is NaN. *)
Definition std_float64 (x : list (option Z)) : option float :=
  let st := group_var (dropna x) in
  if nobs st <=? 1 then None
  else Some (sqrt (run_out st / float_of_Z (nobs st - 1)))%float.

(** The [std_score] column of the two statistics tables, in float64. *)
Definition subdomain_std_float64 (df_long : list AnnotatedResponse)
  : list (SubdomainKey * option float) :=
  groupby subdomain_key_cmp subdomain_key score_of std_float64 df_long.

Definition domain_std_float64 (df_long : list AnnotatedResponse)
  : list (DomainKey * option float) :=
  groupby domain_key_cmp domain_key score_of std_float64 df_long.

(** The two float64 [std_score] columns of a run of [main]. *)
Definition main_std_float64 (df1 : list string) (df2 : list ItemRow)
    (df3 : list SubdomainRow) (df4 : Responses)
  : result (list (SubdomainKey * option float)
            * list (DomainKey * option float)) :=
  tax <- resolve df1 df2 df3 ;;
  let long := recode (annotate (melt df4) tax) in
  Ok (subdomain_std_float64 long, domain_std_float64 long).

(** What a statistics table holds in exact arithmetic: per group the
    median, the mean, the IQR, and the sample variance, which is the
    square of the exact standard deviation. *)
Definition variance (s : Stats) : option Q :=
  option_map radicand (std_score s).

Definition exact_view {K : Type} (t : list (K * Stats))
  : list (K * (option Q * option Q * option Q * option Q)) :=
  map (fun r => (fst r, (median_score (snd r), mean_score (snd r),
                         IQR_score (snd r), variance (snd r))))
      t.

(** The groups for which a float64 column holds a number. *)
Definition has_value {A : Type} (o : option A) : bool :=
  match o with
  | Some _ => true
  | None => false
  end.

Definition presence {K : Type} (t : list (K * option float))
  : list (K * bool) :=
  map (fun r => (fst r, has_value (snd r))) t.

(** ** Spec-side readings used in the statements *)

(** The recoding of one row, as the data model words it: a reversed item
    has its score replaced by [11 - score], any other row is untouched. *)
Definition recode_row {R : Type} `{ScoreFrame R} (r : R) : R :=
  if isin reverse_items (code_of r)
  then set_score r (option_map (fun s => 11 - s) (score_of r))
  else r.

(** Step 3 on one row: a missing subdomain is looked up in the manual
    mapping. *)
Definition fill_manual (p : string * option Z) : string * option Z :=
  (fst p, match snd p with
          | Some v => Some v
          | None => dict_get manual_map (fst p)
          end).

(** The subdomain a question resolves to when the item table has at
    most one row per code. *)
Definition resolved_subdomain (df2 : list ItemRow) (q : string) : option Z :=
  snd (fill_manual
         (q, match find (fun r => String.eqb q (code r)) df2 with
             | Some r => item_subdomain_id r
             | None => None
             end)).

(** The entry of a subdomain in the subdomain table. *)
Definition domain_entry (df3 : list SubdomainRow) (s : option Z)
  : option SubdomainRow :=
  find (fun d => key_eqb s (sd_id d)) df3.

Definition entry_cell (df3 : list SubdomainRow) (s : option Z) : dom_val :=
  match domain_entry df3 s with
  | Some d => sd_domainId d
  | None => DNaN
  end.


Fixpoint comma_count (s : string) : nat :=
  match s with
  | EmptyString => 0%nat
  | String c r => if Ascii.eqb c "," then S (comma_count r) else comma_count r
  end.

(** The number of taxonomy rows of a question. *)
Definition count_rows (q : string) (rows : list TaxonomyRow) : nat :=
  List.length (filter (fun t => String.eqb (tx_question_code t) q) rows).


(** The value a token converts to; zero stands for a token that does not
    convert. *)
Definition int_value (tok : string) : Z :=
  match astype_int tok with
  | Ok v => v
  | Err _ => 0
  end.

(** What the grouping needs of a key comparison: it decides equality,
    it is antisymmetric, and "less than" is transitive. *)
Record good_order {K : Type} (cmp : K -> K -> comparison) : Prop := {
  cmp_eq : forall a b, cmp a b = Eq -> a = b;
  cmp_antisym : forall a b, cmp a b = CompOpp (cmp b a);
  cmp_trans : forall a b c, cmp a b = Lt -> cmp b c = Lt -> cmp a c = Lt
}.


(** [col.iloc[p]]: the values at the positions [p], in that order. *)
Definition take {A : Type} (p : list nat) (col : list A) : list A :=
  flat_map (fun i => match nth_error col i with Some v => [v] | None => [] end) p.

(** [df4.iloc[p]]: the rows of the wide table at the positions [p]. *)
Definition take_rows (p : list nat) (df4 : Responses) : Responses :=
  mkResponses (take p (id_vars df4))
              (map (fun c => (fst c, take p (snd c))) (value_vars df4)).

(** Every column of the wide table has one value per row. *)
Definition rectangular (df4 : Responses) : Prop :=
  forall c, In c (value_vars df4) ->
            List.length (snd c) = List.length (id_vars df4).

(** The labelled right-hand side of the assignment of step 6a, for a
    table whose first label is [k]; and the value the assignment leaves
    in one labelled row. *)
Definition selected_from (k : nat) (mc : list (bool * option Z))
  : list (nat * option Z) :=
  map (fun p => (fst p, rsub 11 (snd p)))
      (map (fun p : nat * (bool * option Z) => (fst p, snd (snd p)))
           (filter (fun p => fst (snd p))
                   (combine (seq k (List.length mc)) mc))).

Definition assign_from (rhs : list (nat * option Z))
    (p : nat * (bool * option Z)) : option Z :=
  if fst (snd p)
  then match label_get rhs (fst p) with Some v => v | None => None end
  else snd (snd p).

(** A row has all the columns of a grouping key. *)
Definition has_key {K Row : Type} (key : Row -> option K) (r : Row) : bool :=
  match key r with
  | Some _ => true
  | None => false
  end.

(** The question of a response has at least one taxonomy row. *)
Definition classified (tax : list TaxonomyRow) (r : ResponseRecord) : bool :=
  negb (Nat.eqb (count_rows (question_code r) tax) 0).

(** The interpolated value at the fractional rank [q * (n - 1)] of a
    sorted list, as [quantile] computes it. *)
Definition interpolate (s : list Z) (q : Q) : Q :=
  let n := List.length s in
  let pos := (q * inject_Z (Z.of_nat (n - 1)))%Q in
  let lo := Z.to_nat (Qfloor pos) in
  let hi := Nat.min (lo + 1) (n - 1) in
  let frac := (pos - inject_Z (Qfloor pos))%Q in
  let a := inject_Z (nth lo s 0) in
  let b := inject_Z (nth hi s 0) in
  (a + (b - a) * frac)%Q.

(** A score is missing or on the scale 1..10. *)
Definition in_scale (s : option Z) : Prop :=
  forall v, s = Some v -> 1 <= v <= 10.

(** The median and the mean of a row of statistics lie on the scale, and
    its IQR between 0 and 9. *)
Definition stats_in_scale (st : Stats) : Prop :=
  (forall r, median_score st = Some r -> (1 <= r <= 10)%Q)
  /\ (forall r, mean_score st = Some r -> (1 <= r <= 10)%Q)
  /\ (forall r, IQR_score st = Some r -> (0 <= r <= 9)%Q).

(** The number a string of decimal digits stands for, read left to
    right after the digits already read. *)
Fixpoint uint_value (acc : Z) (d : Decimal.uint) : Z :=
  match d with
  | Decimal.Nil => acc
  | Decimal.D0 d' => uint_value (10 * acc + 0) d'
  | Decimal.D1 d' => uint_value (10 * acc + 1) d'
  | Decimal.D2 d' => uint_value (10 * acc + 2) d'
  | Decimal.D3 d' => uint_value (10 * acc + 3) d'
  | Decimal.D4 d' => uint_value (10 * acc + 4) d'
  | Decimal.D5 d' => uint_value (10 * acc + 5) d'
  | Decimal.D6 d' => uint_value (10 * acc + 6) d'
  | Decimal.D7 d' => uint_value (10 * acc + 7) d'
  | Decimal.D8 d' => uint_value (10 * acc + 8) d'
  | Decimal.D9 d' => uint_value (10 * acc + 9) d'
  end.

(** The integer of a cell of an integer column. *)
Definition cell_int (v : dom_val) : Z :=
  match v with
  | DInt z => z
  | _ => 0
  end.

(** ** The front end (app.py), median and IQR view

    The part of the script that computes what the first radar chart
    shows when the statistic "Mediaan (IQR)" is chosen: the rows of the
    selected teams, the domains on the axes, the median and IQR per
    domain, and the closed outlines handed to the chart. The long table
    is the one the pipeline wrote. *)

Inductive app_error : Type :=
| KeyError (key : Z)
    (* a domain id that is not in [domain_labels] *)
| IndexError.
    (* [theta[0]] or [.iloc[0]] on an empty sequence *)

Inductive outcome (A : Type) : Type :=
| Done (a : A)
| Raised (e : app_error).

Arguments Done {A} a.
Arguments Raised {A} e.

Definition and_then {A B : Type} (r : outcome A) (k : A -> outcome B)
  : outcome B :=
  match r with
  | Done a => k a
  | Raised e => Raised e
  end.

(** [sorted(df_long['team'].unique())]: the choices of the team filter,
    all selected by default. *)
Definition teams (df_long : list AnnotatedResponse) : list string :=
  group_keys String.compare (map (fun a => team (response a)) df_long).

(** [df_long[df_long['team'].isin(selected_teams)]] *)
Definition select_teams (selected_teams : list string)
    (df_long : list AnnotatedResponse) : list AnnotatedResponse :=
  filter (fun a => isin selected_teams (team (response a))) df_long.

(** [sorted(df['domainId'].dropna().unique())] *)
Definition domains (df : list AnnotatedResponse) : list Z :=
  group_keys Z.compare (keys_of domainId df).

(** The two columns of [.agg(median="median", IQR=iqr)]. *)
Definition median_iqr (x : list (option Z)) : option Q * option Q :=
  (median x, iqr x).

(** [table.reindex(index)]: one row per label of [index], in that
    order; a label the table does not have gets missing values. *)
Definition reindex {V : Type} (index : list Z) (table : list (Z * V))
    (missing : V) : list (Z * V) :=
  map (fun d =>
         (d, match find (fun r => Z.eqb d (fst r)) table with
             | Some r => snd r
             | None => missing
             end))
      index.

(** [df.groupby("domainId")['score'].agg(...).reindex(domains)] *)
Definition domain_agg (df : list AnnotatedResponse)
  : list (Z * (option Q * option Q)) :=
  reindex (domains df)
          (groupby Z.compare domainId score_of median_iqr df)
          (None, None).

(** Series arithmetic: a missing operand gives a missing result. *)
Definition series_sub (a b : list (option Q)) : list (option Q) :=
  map (fun p => match fst p, snd p with
                | Some u, Some v => Some (Qred (u - v))
                | _, _ => None
                end)
      (combine a b).

Definition series_add (a b : list (option Q)) : list (option Q) :=
  map (fun p => match fst p, snd p with
                | Some u, Some v => Some (Qred (u + v))
                | _, _ => None
                end)
      (combine a b).

(** [.clip(lower=0)] *)
Definition clip_lower0 (s : list (option Q)) : list (option Q) :=
  map (option_map (fun v => if Qle_bool 0 v then v else 0%Q)) s.

(** [list(body) + [first[0]]]: the outline of a closed curve. *)
Definition close_loop {A : Type} (body first : list A) : outcome (list A) :=
  match first with
  | [] => Raised IndexError
  | v :: _ => Done (body ++ [v])%list
  end.

(** The type of the [domainId] column of the long table: integers
    unless some row has no domain. *)
Definition domain_column_dtype (df_long : list AnnotatedResponse) : dtype :=
  if existsb (fun a => match domainId a with None => true | Some _ => false end)
             df_long
  then Float64 else Int64.

(** [f"D{d}"] *)
Definition theta_name (dt : dtype) (d : Z) : string :=
  "D" ++ cell_text dt (DInt d).

(** [domain_labels[d]] *)
Fixpoint label_get_domain (domain_labels : list (Z * string)) (d : Z)
  : outcome string :=
  match domain_labels with
  | [] => Raised (KeyError d)
  | (k, name) :: rest =>
      if Z.eqb d k then Done name else label_get_domain rest d
  end.

(** [[domain_labels[d] for d in domains]] *)
Fixpoint labels_for (domain_labels : list (Z * string)) (ds : list Z)
  : outcome (list string) :=
  match ds with
  | [] => Done []
  | d :: ds' =>
      and_then (label_get_domain domain_labels d) (fun name =>
      and_then (labels_for domain_labels ds') (fun names =>
      Done (name :: names)))
  end.

Record DomainRadar : Type := mkDomainRadar {
  theta_loop : list string;
  r_lower_loop : list (option Q);
  r_upper_loop : list (option Q);
  r_center_loop : list (option Q);
  labels_dom_loop : list string
}.

(** Lines 94-130 of the script, for the median and IQR view. *)
Definition domain_radar (df_long : list AnnotatedResponse)
    (selected_teams : list string) (domain_labels : list (Z * string))
  : outcome DomainRadar :=
  let df := select_teams selected_teams df_long in
  let agg := domain_agg df in
  let center := map (fun r => fst (snd r)) agg in
  let spread := map (fun r => snd (snd r)) agg in
  let theta := map (theta_name (domain_column_dtype df_long)) (domains df) in
  and_then (labels_for domain_labels (domains df)) (fun labels_dom =>
  and_then (close_loop theta theta) (fun theta_l =>
  and_then (close_loop (clip_lower0 (series_sub center spread))
                       (series_sub center spread)) (fun lower =>
  and_then (close_loop (clip_lower0 (series_add center spread))
                       (series_add center spread)) (fun upper =>
  and_then (close_loop center center) (fun centre =>
  and_then (close_loop labels_dom labels_dom) (fun labels_l =>
  Done (mkDomainRadar theta_l lower upper centre labels_l))))))).

(** One value of [.clip(lower=0)]. *)
Definition clip0 (v : option Q) : option Q :=
  option_map (fun q => if Qle_bool 0 q then q else 0%Q) v.

(** ** The front end, second chart: choosing a domain

    [name_to_id = {domain_labels[d]: d for d in domains}] is kept as the
    sequence of its assignments; a later assignment to the same name
    replaces an earlier one. *)
Definition name_to_id (domain_names : list string) (ds : list Z)
  : list (string * Z) :=
  combine domain_names ds.

(** [name_to_id[selected_name]] *)
Fixpoint name_to_id_get (entries : list (string * Z)) (name : string)
  : option Z :=
  match entries with
  | [] => None
  | (n, d) :: rest =>
      match name_to_id_get rest name with
      | Some d' => Some d'
      | None => if String.eqb name n then Some d else None
      end
  end.

(** [df[df['domainId'] == selected_domain]] *)
Definition select_domain (selected_domain : Z) (df : list AnnotatedResponse)
  : list AnnotatedResponse :=
  filter (fun a => match domainId a with
                   | Some d => Z.eqb d selected_domain
                   | None => false
                   end)
         df.

(** [sorted(df_q['question_code'].unique())] *)
Definition questions (df_q : list AnnotatedResponse) : list string :=
  group_keys String.compare (map (fun a => question_code (response a)) df_q).

(** * Properties *)

(** ** Generic facts on lists and on [mapM] *)

Lemma combine_map_same {A B C : Type} (f : A -> B) (g : A -> C) (l : list A) :
  combine (map f l) (map g l) = map (fun a => (f a, g a)) l.
Proof.
  induction l as [|a l IH]; simpl; [reflexivity|].
  now rewrite IH.
Qed.

Lemma combine_self_map {A B : Type} (g : A -> B) (l : list A) :
  combine l (map g l) = map (fun a => (a, g a)) l.
Proof.
  rewrite <- (map_id l) at 1.
  apply combine_map_same.
Qed.

Lemma flat_map_map {A B C : Type} (f : A -> B) (g : B -> list C) (l : list A) :
  flat_map g (map f l) = flat_map (fun a => g (f a)) l.
Proof.
  induction l as [|a l IH]; simpl; [reflexivity|].
  now rewrite IH.
Qed.

Lemma map_flat_map {A B C : Type} (f : A -> list B) (g : B -> C) (l : list A) :
  map g (flat_map f l) = flat_map (fun a => map g (f a)) l.
Proof.
  induction l as [|a l IH]; simpl; [reflexivity|].
  now rewrite map_app, IH.
Qed.

Lemma mapM_fails {A B : Type} (f : A -> result B) (l : list A) (x : A) (e : py_error) :
  In x l -> f x = Err e ->
  exists y e', In y l /\ f y = Err e' /\ mapM f l = Err e'.
Proof.
  induction l as [|a l IH]; simpl; [tauto|].
  intros Hin Hx.
  destruct (f a) as [b|ea] eqn:Ha; simpl.
  - destruct Hin as [->|Hin]; [congruence|].
    destruct (IH Hin Hx) as (y & e' & Hy & Hfy & HM).
    exists y, e'. rewrite HM. simpl. auto.
  - exists a, ea. auto.
Qed.

Lemma mapM_succeeds {A B : Type} (f : A -> result B) (g : A -> B) (l : list A) :
  (forall x, In x l -> f x = Ok (g x)) -> mapM f l = Ok (map g l).
Proof.
  induction l as [|a l IH]; simpl; intros H; [reflexivity|].
  rewrite (H a (or_introl eq_refl)). simpl.
  rewrite IH by auto. reflexivity.
Qed.

(** ** The recoding step is a row-wise map *)

Lemma loc_set_aligned (mc : list (bool * option Z)) :
  forall k rhs,
    (forall j, (k <= j)%nat ->
               label_get rhs j = label_get (selected_from k mc) j) ->
    map (assign_from rhs) (combine (seq k (List.length mc)) mc)
    = map (fun p : bool * option Z => if fst p then rsub 11 (snd p) else snd p) mc.
Proof.
  induction mc as [|[m v] mc IH]; intros k rhs Hrhs; [reflexivity|].
  simpl List.length. simpl seq. simpl combine. simpl map.
  f_equal.
  - unfold assign_from; simpl. destruct m; [|reflexivity].
    rewrite (Hrhs k (Nat.le_refl k)).
    unfold selected_from. simpl. now rewrite Nat.eqb_refl.
  - apply IH. intros j Hj.
    rewrite Hrhs by lia.
    unfold selected_from. simpl. destruct m; simpl; [|reflexivity].
    destruct (Nat.eqb_spec j k); [lia|reflexivity].
Qed.

Lemma loc_set_loc_get (mask : list bool) (col : list (option Z)) :
  loc_set mask col
          (map (fun p => (fst p, rsub 11 (snd p))) (loc_get mask col))
  = map (fun p : bool * option Z => if fst p then rsub 11 (snd p) else snd p)
      (combine mask col).
Proof.
  unfold loc_set, loc_get, labelled.
  apply (loc_set_aligned (combine mask col) 0%nat).
  intros j _. reflexivity.
Qed.

Lemma recode_map {R : Type} `{ScoreFrame R} (df : list R) :
  recode df
  = map (fun r => set_score r (if isin reverse_items (code_of r)
                               then rsub 11 (score_of r) else score_of r)) df.
Proof.
  unfold recode.
  rewrite loc_set_loc_get, combine_map_same, map_map. simpl.
  rewrite combine_self_map, map_map. reflexivity.
Qed.

Lemma recode_rows_annotated (df : list AnnotatedResponse) :
  recode df = map recode_row df.
Proof.
  rewrite recode_map. apply map_ext. intros [[e t q s] sd d].
  unfold recode_row, rsub.
  destruct (isin reverse_items (code_of _)); reflexivity.
Qed.

Lemma recode_rows_response (df : list ResponseRecord) :
  recode df = map recode_row df.
Proof.
  rewrite recode_map. apply map_ext. intros [e t q s].
  unfold recode_row, rsub.
  destruct (isin reverse_items (code_of _)); reflexivity.
Qed.

Lemma recode_row_code (r : ResponseRecord) :
  question_code (recode_row r) = question_code r.
Proof.
  unfold recode_row.
  destruct (isin reverse_items (code_of r)); reflexivity.
Qed.

Lemma recode_row_score (r : ResponseRecord) :
  score (recode_row r)
  = if isin reverse_items (question_code r)
    then option_map (fun s => 11 - s) (score r) else score r.
Proof.
  unfold recode_row.
  change (code_of r) with (question_code r).
  destruct (isin reverse_items (question_code r)); reflexivity.
Qed.

Lemma recode_row_annotated (r : ResponseRecord) (s d : option Z) :
  recode_row (mkAnnotated r s d) = mkAnnotated (recode_row r) s d.
Proof.
  unfold recode_row.
  change (code_of (mkAnnotated r s d)) with (code_of r).
  destruct (isin reverse_items (code_of r)); reflexivity.
Qed.

Lemma annotate_response (long : list ResponseRecord) (tax : list TaxonomyRow)
    (a : AnnotatedResponse) :
  In a (annotate long tax) -> In (response a) long.
Proof.
  unfold annotate, left_merge. rewrite in_flat_map.
  intros (r & Hr & Ha).
  destruct (filter _ tax) as [|t ms].
  - destruct Ha as [<-|[]]. exact Hr.
  - apply in_map_iff in Ha. destruct Ha as (t' & <- & _). exact Hr.
Qed.

Lemma reverse_items_NoDup : NoDup reverse_items.
Proof.
  apply (NoDup_count_occ' string_dec).
  intros x Hx. unfold reverse_items in *.
  repeat (destruct Hx as [<-|Hx]; [vm_compute; reflexivity|]).
  destruct Hx.
Qed.

(** ** Reverse coding *)

(** C9: on the score scale 1..10 the reverse transform [11 - s] is an
    involution: applied twice it gives the score back, and it maps the
    scale to itself. *)
Theorem reverse_transform_involution (s : Z) :
  1 <= s <= 10 ->
  rsub 11 (rsub 11 (Some s)) = Some s
  /\ exists s', rsub 11 (Some s) = Some s' /\ 1 <= s' <= 10.
Proof.
  intros Hs. unfold rsub. cbn [option_map]. split.
  - f_equal. lia.
  - exists (11 - s). split; [reflexivity|lia].
Qed.

Lemma reverse_transform_involution_witness :
  1 <= 3 <= 10
  /\ rsub 11 (rsub 11 (Some 3)) = Some 3
  /\ exists s', rsub 11 (Some 3) = Some s' /\ 1 <= s' <= 10.
Proof.
  split; [lia|]. apply (reverse_transform_involution 3). lia.
Defined.

(** C2: when the taxonomy resolves, the long table the pipeline writes is
    the annotated melt with every row of the 32 reversed items carrying
    [11 - score] and every other row unchanged, each row recoded once; both
    aggregations are computed from that recoded table. *)
Theorem reverse_coding_applied_once (df1 : list string) (df2 : list ItemRow)
    (df3 : list SubdomainRow) (df4 : Responses) (tax : list TaxonomyRow) :
  resolve df1 df2 df3 = Ok tax ->
  exists out,
    main df1 df2 df3 df4 = Ok out
    /\ df_long out = map recode_row (annotate (melt df4) tax)
    /\ (forall a, In a (annotate (melt df4) tax) ->
          if isin reverse_items (code_of a)
          then score_of (recode_row a) = option_map (fun s => 11 - s) (score_of a)
          else recode_row a = a)
    /\ stats_df out = subdomain_stats (df_long out)
    /\ domain_stats out = domain_level_stats (df_long out)
    /\ List.length reverse_items = 32%nat
    /\ NoDup reverse_items.
Proof.
  intros Hres. unfold main. rewrite Hres. cbn [bind].
  eexists. split; [reflexivity|]. cbn [df_long stats_df domain_stats].
  repeat split.
  - apply recode_rows_annotated.
  - intros a _. unfold recode_row.
    destruct (isin reverse_items (code_of a)); reflexivity.
  - apply reverse_items_NoDup.
Qed.

Lemma reverse_coding_applied_once_witness :
  exists out,
    main ["ZT4"] [mkItem "ZT4" (Some 6)] [mkSubdomain (Some 6) (DStr "1,2")]
         (mkResponses [(1, "A")] [("ZT4", [Some 10])]) = Ok out
    /\ map score_of (df_long out) = [Some 1; Some 1].
Proof.
  destruct (reverse_coding_applied_once
              ["ZT4"] [mkItem "ZT4" (Some 6)]
              [mkSubdomain (Some 6) (DStr "1,2")]
              (mkResponses [(1, "A")] [("ZT4", [Some 10])])
              [mkTaxonomy "ZT4" (Some 6) 1; mkTaxonomy "ZT4" (Some 6) 2]
              eq_refl) as (out & Hmain & Hlong & _).
  exists out. split; [exact Hmain|]. rewrite Hlong. reflexivity.
Defined.

(** C10: reverse coding commutes with the one-to-many taxonomy join:
    recoding the annotated table equals annotating the recoded melt, so
    every copy of a reversed row carries 11 minus the melted score, and no
    row is recoded twice. *)
Theorem recode_commutes_with_join (long : list ResponseRecord)
    (tax : list TaxonomyRow) :
  recode (annotate long tax) = annotate (recode long) tax
  /\ forall a, In a (recode (annotate long tax)) ->
       exists r, In r long
         /\ code_of a = question_code r
         /\ score_of a = if isin reverse_items (question_code r)
                         then option_map (fun s => 11 - s) (score r)
                         else score r.
Proof.
  assert (Heq : recode (annotate long tax) = annotate (recode long) tax).
  { rewrite recode_rows_annotated, recode_rows_response.
    unfold annotate, left_merge.
    rewrite map_flat_map, flat_map_map.
    apply flat_map_ext. intros r.
    rewrite recode_row_code.
    destruct (filter _ tax) as [|t ms].
    - cbn [map]. now rewrite recode_row_annotated.
    - rewrite map_map. apply map_ext. intros t'.
      apply recode_row_annotated. }
  split; [exact Heq|].
  intros a Ha. rewrite Heq in Ha.
  apply annotate_response in Ha.
  rewrite recode_rows_response in Ha.
  apply in_map_iff in Ha. destruct Ha as (r & Hr & Hin).
  exists r. split; [exact Hin|].
  change (code_of a) with (question_code (response a)).
  change (score_of a) with (score (response a)).
  rewrite <- Hr. split; [apply recode_row_code|apply recode_row_score].
Qed.

(** ** Left merges and the manual fallback *)

Lemma in_left_merge {L R O : Type} (m : L -> R -> bool) (j : L -> R -> O)
    (u : L -> O) (left : list L) (right : list R) (o : O) :
  In o (left_merge m j u left right) <->
  exists l, In l left
    /\ ((exists r, In r right /\ m l r = true /\ o = j l r)
        \/ ((forall r, In r right -> m l r = false) /\ o = u l)).
Proof.
  unfold left_merge. rewrite in_flat_map. split.
  - intros (l & Hl & Ho). exists l. split; [exact Hl|].
    destruct (filter (m l) right) as [|r0 ms] eqn:Hf.
    + right. destruct Ho as [<-|[]]. split; [|reflexivity].
      intros r Hr. destruct (m l r) eqn:Hm; [|reflexivity].
      assert (Hin : In r (filter (m l) right)) by (apply filter_In; auto).
      rewrite Hf in Hin. destruct Hin.
    + left. apply in_map_iff in Ho. destruct Ho as (r & <- & Hr).
      rewrite <- Hf in Hr. apply filter_In in Hr.
      exists r. tauto.
  - intros (l & Hl & [(r & Hr & Hm & ->)|(Hno & ->)]); exists l; (split; [exact Hl|]).
    + assert (Hin : In r (filter (m l) right)) by (apply filter_In; auto).
      destruct (filter (m l) right) as [|r0 ms]; [destruct Hin|].
      apply in_map. exact Hin.
    + destruct (filter (m l) right) as [|r0 ms] eqn:Hf; [left; reflexivity|].
      assert (Hin : In r0 (filter (m l) right)) by (rewrite Hf; left; reflexivity).
      apply filter_In in Hin. rewrite (Hno r0) in Hin; [|tauto].
      destruct Hin; discriminate.
Qed.

Lemma manual_fallback_map (t : list (string * option Z)) :
  manual_fallback t = map fill_manual t.
Proof.
  unfold manual_fallback, fillna, series_map.
  rewrite map_map, combine_map_same, map_map, combine_map_same.
  reflexivity.
Qed.

(** The rows of the question-to-subdomain table. *)
Lemma in_subdomain_table (df1 : list string) (df2 : list ItemRow)
    (q : string) (s : option Z) :
  In (q, s) (subdomain_table df1 df2) <->
  In q df1
  /\ ((exists r v, In r df2 /\ code r = q /\ item_subdomain_id r = Some v
                   /\ s = Some v)
      \/ (((exists r, In r df2 /\ code r = q /\ item_subdomain_id r = None)
           \/ (forall r, In r df2 -> code r <> q))
          /\ s = dict_get manual_map q)).
Proof.
  unfold subdomain_table, merge_items.
  rewrite manual_fallback_map, in_map_iff. split.
  - intros ([q' a] & Hfill & Hin).
    unfold fill_manual in Hfill. cbn [fst snd] in Hfill.
    injection Hfill as -> Hs.
    apply in_left_merge in Hin.
    destruct Hin as (l & Hl & [(r & Hr & Hm & Ho)|(Hno & Ho)]);
      injection Ho as <- ->.
    + apply String.eqb_eq in Hm. split; [exact Hl|].
      destruct (item_subdomain_id r) as [v|] eqn:Hv.
      * left. exists r, v. auto.
      * right. split; [|auto]. left. exists r. auto.
    + split; [exact Hl|]. right. split; [|auto]. right.
      intros r Hr Hc. specialize (Hno r Hr).
      apply String.eqb_neq in Hno. congruence.
  - intros (Hq & [(r & v & Hr & Hc & Hv & ->)|([(r & Hr & Hc & Hv)|Hno] & ->)]).
    + exists (q, Some v). split; [reflexivity|].
      apply in_left_merge. exists q. split; [exact Hq|]. left.
      exists r. rewrite <- Hv, <- Hc, String.eqb_refl. auto.
    + exists (q, None). split; [reflexivity|].
      apply in_left_merge. exists q. split; [exact Hq|]. left.
      exists r. rewrite <- Hv, <- Hc, String.eqb_refl. auto.
    + exists (q, None). split; [reflexivity|].
      apply in_left_merge. exists q. split; [exact Hq|]. right.
      split; [|reflexivity]. intros r Hr.
      apply String.eqb_neq. intros Hc. exact (Hno r Hr (eq_sym Hc)).
Qed.

(** C5: a question of the mapping relation that is in the manual
    override table and has no automatic subdomain (no item row, or only
    item rows with a missing subdomain) resolves to the override's
    subdomain; a question the item table resolves keeps the automatic
    subdomain, whether or not the override table lists it. *)
Theorem manual_override_fallback (df1 : list string) (df2 : list ItemRow)
    (q : string) :
  In q df1 ->
  (forall m,
      dict_get manual_map q = Some m ->
      (forall r, In r df2 -> code r = q -> item_subdomain_id r = None) ->
      In (q, Some m) (subdomain_table df1 df2)
      /\ forall s, In (q, s) (subdomain_table df1 df2) -> s = Some m)
  /\ (forall v,
        (exists r, In r df2 /\ code r = q) ->
        (forall r, In r df2 -> code r = q -> item_subdomain_id r = Some v) ->
        In (q, Some v) (subdomain_table df1 df2)
        /\ forall s, In (q, s) (subdomain_table df1 df2) -> s = Some v).
Proof.
  intros Hq. split.
  - intros m Hm Hnone. split.
    + apply in_subdomain_table. split; [exact Hq|]. right.
      split; [|now rewrite Hm].
      destruct (existsb (fun r => String.eqb (code r) q) df2) eqn:Hex.
      * apply existsb_exists in Hex. destruct Hex as (r & Hr & Hc).
        apply String.eqb_eq in Hc. left. exists r. auto.
      * right. intros r Hr Hc.
        assert (Ht : existsb (fun r => String.eqb (code r) q) df2 = true).
        { apply existsb_exists. exists r. split; [exact Hr|].
          now apply String.eqb_eq. }
        congruence.
    + intros s Hs. apply in_subdomain_table in Hs.
      destruct Hs as (_ & [(r & v & Hr & Hc & Hv & _)|(_ & ->)]).
      * rewrite (Hnone r Hr Hc) in Hv. discriminate.
      * exact Hm.
  - intros v (r & Hr & Hc) Hall. split.
    + apply in_subdomain_table. split; [exact Hq|]. left.
      exists r, v. auto.
    + intros s Hs. apply in_subdomain_table in Hs.
      destruct Hs as (_ & [(r' & v' & Hr' & Hc' & Hv' & ->)
                          |([(r' & Hr' & Hc' & Hv')|Hno] & _)]).
      * rewrite (Hall r' Hr' Hc') in Hv'. exact (eq_sym Hv').
      * rewrite (Hall r' Hr' Hc') in Hv'. discriminate.
      * exfalso. exact (Hno r Hr Hc).
Qed.

Lemma manual_override_fallback_witness :
  In ("ZT117", Some 7)
     (subdomain_table ["ZT117"; "ZT74"] [mkItem "ZT74" (Some 2)])
  /\ In ("ZT74", Some 2)
        (subdomain_table ["ZT117"; "ZT74"] [mkItem "ZT74" (Some 2)]).
Proof.
  split.
  - assert (Hin : In "ZT117" ["ZT117"; "ZT74"]) by (simpl; auto).
    destruct (manual_override_fallback
                ["ZT117"; "ZT74"] [mkItem "ZT74" (Some 2)] "ZT117" Hin)
      as [Hover _].
    apply (Hover 7); [reflexivity|].
    intros r [<-|[]] Hc. discriminate Hc.
  - assert (Hin : In "ZT74" ["ZT117"; "ZT74"]) by (simpl; auto).
    destruct (manual_override_fallback
                ["ZT117"; "ZT74"] [mkItem "ZT74" (Some 2)] "ZT74" Hin)
      as [_ Hauto].
    apply (Hauto 2).
    + exists (mkItem "ZT74" (Some 2)). simpl. auto.
    + intros r [<-|[]] _. reflexivity.
Defined.

(** ** Characters of printed integers *)

Lemma digit_char_facts (c : ascii) :
  digit_val c <> None ->
  is_space c = false /\ Ascii.eqb c "," = false /\ Ascii.eqb c "." = false.
Proof.
  destruct c as [[] [] [] [] [] [] [] []]; vm_compute; intros H;
    try (exfalso; apply H; reflexivity); auto.
Qed.

Lemma uint_chars_digits (d : Decimal.uint) :
  Forall (fun c => digit_val c <> None)
         (list_ascii_of_string (NilEmpty.string_of_uint d)).
Proof.
  induction d; cbn [NilEmpty.string_of_uint list_ascii_of_string];
    constructor; try exact IHd; vm_compute; discriminate.
Qed.

Lemma list_ascii_app (a b : string) :
  list_ascii_of_string (a ++ b)
  = (list_ascii_of_string a ++ list_ascii_of_string b)%list.
Proof.
  induction a as [|c a IH]; [reflexivity|].
  cbn [String.append list_ascii_of_string app]. now rewrite IH.
Qed.






(** ** The resolver *)

Lemma to_taxonomy_error (r : string * option Z * string) (e : py_error) :
  to_taxonomy r = Err e ->
  e = OverflowError \/ exists lit, e = ValueError lit /\ py_int lit = None.
Proof.
  unfold to_taxonomy, astype_int.
  destruct (py_int (snd r)) as [v|] eqn:Hp.
  - destruct (_ && _); cbn [bind]; intros He; [discriminate|].
    left. congruence.
  - cbn [bind]. intros He. right. exists (snd r). split; congruence.
Qed.

Lemma in_explode_domains (d : dtype) (t : list (string * option Z * dom_val))
    (q : string) (s : option Z) (v : dom_val) (tok : string) :
  In (q, s, v) t -> In tok (split_comma (cell_text d v)) ->
  In (q, s, tok) (explode_domains d t).
Proof.
  intros Hin Htok. unfold explode_domains. apply in_flat_map.
  exists (q, s, v). split; [exact Hin|].
  cbn [fst snd]. apply in_map_iff. exists tok. auto.
Qed.

Lemma resolve_aborts_on (df1 : list string) (df2 : list ItemRow)
    (df3 : list SubdomainRow) (q : string) (s : option Z) (v : dom_val)
    (tok : string) :
  In (q, s, v) (merge_subdomains (subdomain_table df1 df2) df3) ->
  (forall d, In tok (split_comma (cell_text d v))) ->
  py_int tok = None ->
  exists e, resolve df1 df2 df3 = Err e
    /\ (e = OverflowError \/ exists lit, e = ValueError lit /\ py_int lit = None).
Proof.
  intros Hin Htok Hbad. unfold resolve.
  set (merged := merge_subdomains (subdomain_table df1 df2) df3) in *.
  set (d := merged_dtype _ _).
  assert (Hx : In (q, s, tok) (explode_domains d merged))
    by (eapply in_explode_domains; eauto).
  assert (Hf : to_taxonomy (q, s, tok) = Err (ValueError tok)).
  { unfold to_taxonomy, astype_int. cbn [fst snd]. now rewrite Hbad. }
  destruct (mapM_fails _ _ _ _ Hx Hf) as (y & e' & _ & Hy & HM).
  exists e'. split; [exact HM|]. eapply to_taxonomy_error; eauto.
Qed.

(** C3: a question of the mapping relation with no automatic subdomain
    and no manual override makes the pipeline stop with a conversion
    error (the missing domain reads as the text [nan]); no output is
    produced, so no row with missing taxonomy columns comes out of the
    resolver. The subdomain table is assumed to have no row whose id is
    missing. *)
Theorem unmapped_question_aborts (df1 : list string) (df2 : list ItemRow)
    (df3 : list SubdomainRow) (df4 : Responses) (q : string) :
  In q df1 ->
  (forall r, In r df2 -> code r = q -> item_subdomain_id r = None) ->
  dict_get manual_map q = None ->
  (forall d, In d df3 -> sd_id d <> None) ->
  exists e, main df1 df2 df3 df4 = Err e
    /\ (e = OverflowError \/ exists lit, e = ValueError lit /\ py_int lit = None).
Proof.
  intros Hq Hauto Hman Hids.
  assert (Ht : In (q, None) (subdomain_table df1 df2)).
  { apply in_subdomain_table. split; [exact Hq|]. right.
    split; [|now rewrite Hman].
    destruct (existsb (fun r => String.eqb (code r) q) df2) eqn:Hex.
    - apply existsb_exists in Hex. destruct Hex as (r & Hr & Hc).
      apply String.eqb_eq in Hc. left. exists r. auto.
    - right. intros r Hr Hc.
      assert (Hex' : existsb (fun r => String.eqb (code r) q) df2 = true).
      { apply existsb_exists. exists r. split; [exact Hr|].
        now apply String.eqb_eq. }
      congruence. }
  assert (Hm : In (q, None, DNaN)
                  (merge_subdomains (subdomain_table df1 df2) df3)).
  { unfold merge_subdomains. apply in_left_merge.
    exists (q, None). split; [exact Ht|]. right. split; [|reflexivity].
    intros d Hd. cbn [snd]. specialize (Hids d Hd).
    destruct (sd_id d); [reflexivity|congruence]. }
  destruct (resolve_aborts_on df1 df2 df3 q None DNaN "nan" Hm)
    as (e & He & Hkind).
  - intros d. simpl. auto.
  - reflexivity.
  - exists e. split; [|exact Hkind]. unfold main. now rewrite He.
Qed.

Lemma unmapped_question_aborts_witness :
  exists e,
    main ["ZT1"; "ZT9"] [mkItem "ZT1" (Some 4)]
         [mkSubdomain (Some 4) (DStr "1,2")]
         (mkResponses [(1, "A")] [("ZT1", [Some 3]); ("ZT9", [Some 5])])
    = Err e
    /\ (e = OverflowError \/ exists lit, e = ValueError lit /\ py_int lit = None).
Proof.
  apply (unmapped_question_aborts
           ["ZT1"; "ZT9"] [mkItem "ZT1" (Some 4)]
           [mkSubdomain (Some 4) (DStr "1,2")]
           (mkResponses [(1, "A")] [("ZT1", [Some 3]); ("ZT9", [Some 5])])
           "ZT9").
  - simpl. auto.
  - intros r [<-|[]] Hc. discriminate Hc.
  - reflexivity.
  - intros d [<-|[]]. discriminate.
Defined.

(** The run on that input: the first token that does not convert is the
    text of the missing domain. *)
Lemma unmapped_question_run :
  main ["ZT1"; "ZT9"] [mkItem "ZT1" (Some 4)]
       [mkSubdomain (Some 4) (DStr "1,2")]
       (mkResponses [(1, "A")] [("ZT1", [Some 3]); ("ZT9", [Some 5])])
  = Err (ValueError "nan").
Proof. reflexivity. Qed.








(** ** Row counts of the taxonomy *)

Lemma filter_unique {A K : Type} (k : A -> K) (p : A -> bool) (l : list A) :
  NoDup (map k l) ->
  (forall x y, p x = true -> p y = true -> k x = k y) ->
  filter p l = match find p l with Some x => [x] | None => [] end.
Proof.
  intros Hnd Hp. induction l as [|a l IH]; [reflexivity|].
  cbn [map] in Hnd. apply NoDup_cons_iff in Hnd. destruct Hnd as [Hna Hnd].
  cbn [filter find]. destruct (p a) eqn:Hpa.
  - f_equal. destruct (filter p l) as [|y ys] eqn:Hf; [reflexivity|].
    exfalso. apply Hna.
    assert (Hy : In y (filter p l)) by (rewrite Hf; left; reflexivity).
    apply filter_In in Hy. destruct Hy as [Hy Hpy].
    rewrite (Hp a y Hpa Hpy). now apply in_map.
  - now apply IH.
Qed.

Lemma key_eqb_eq (a b : option Z) : key_eqb a b = true <-> a = b.
Proof.
  destruct a as [x|], b as [y|]; cbn [key_eqb]; try (split; congruence).
  rewrite Z.eqb_eq. split; congruence.
Qed.

Lemma flat_map_single {A B : Type} (f : A -> list B) (g : A -> B) (l : list A) :
  (forall x, f x = [g x]) -> flat_map f l = map g l.
Proof.
  intros H. induction l as [|a l IH]; [reflexivity|].
  cbn [flat_map map]. now rewrite H, IH.
Qed.

Lemma subdomain_table_unique (df1 : list string) (df2 : list ItemRow) :
  NoDup (map code df2) ->
  subdomain_table df1 df2 = map (fun q => (q, resolved_subdomain df2 q)) df1.
Proof.
  intros Hnd. unfold subdomain_table, merge_items, left_merge.
  rewrite manual_fallback_map, map_flat_map.
  apply flat_map_single. intros q.
  rewrite (filter_unique code (fun r => String.eqb q (code r)) df2 Hnd).
  - unfold resolved_subdomain.
    destruct (find _ df2) as [r|]; reflexivity.
  - intros x y Hx Hy. apply String.eqb_eq in Hx, Hy. congruence.
Qed.

Lemma merge_subdomains_unique (t : list (string * option Z))
    (df3 : list SubdomainRow) :
  NoDup (map sd_id df3) ->
  merge_subdomains t df3
  = map (fun p => (fst p, snd p, entry_cell df3 (snd p))) t.
Proof.
  intros Hnd. unfold merge_subdomains, left_merge.
  apply flat_map_single. intros p.
  rewrite (filter_unique sd_id (fun d => key_eqb (snd p) (sd_id d)) df3 Hnd).
  - unfold entry_cell, domain_entry.
    destruct (find _ df3) as [d|]; reflexivity.
  - intros x y Hx Hy. apply key_eqb_eq in Hx, Hy. congruence.
Qed.

Lemma int_column_has_no_gap (col : list dom_val) (v : dom_val) :
  col_dtype col = Int64 -> In v col -> is_nan v = false.
Proof.
  unfold col_dtype. destruct col as [|c col]; [discriminate|].
  destruct (forallb is_int (c :: col)) eqn:Hall.
  - intros _ Hin. rewrite forallb_forall in Hall.
    specialize (Hall v Hin). now destruct v.
  - destruct (existsb is_str (c :: col)); discriminate.
Qed.

Lemma split_comma_length (s : string) :
  List.length (split_comma s) = S (comma_count s).
Proof.
  induction s as [|c s IH]; [reflexivity|].
  cbn [split_comma comma_count]. destruct (Ascii.eqb c ",").
  - cbn [List.length]. now rewrite IH.
  - destruct (split_comma s) as [|h t]; [discriminate IH|exact IH].
Qed.








(** ** The statistics depend on the values only *)

Lemma fold_right_permutation {A B : Type} (R : B -> B -> Prop)
    (f : A -> B -> B) (e : B) :
  Equivalence R ->
  (forall a x y, R x y -> R (f a x) (f a y)) ->
  (forall a b x, R (f a (f b x)) (f b (f a x))) ->
  forall l l', Permutation l l' -> R (fold_right f e l) (fold_right f e l').
Proof.
  intros HR Hp Hc l l' HP. induction HP; cbn [fold_right].
  - reflexivity.
  - apply Hp, IHHP.
  - apply Hc.
  - etransitivity; eauto.
Qed.

Lemma insert_sorted_comm (a b : Z) (l : list Z) :
  insert_sorted a (insert_sorted b l) = insert_sorted b (insert_sorted a l).
Proof.
  induction l as [|h t IH]; cbn [insert_sorted].
  - destruct (Z.leb_spec a b), (Z.leb_spec b a); try reflexivity; try lia.
    assert (a = b) by lia. now subst.
  - destruct (Z.leb_spec a h), (Z.leb_spec b h); cbn [insert_sorted];
      repeat match goal with
             | |- context [?x <=? ?y] => destruct (Z.leb_spec x y)
             end;
      try reflexivity; try lia.
    + assert (a = b) by lia. now subst.
    + now rewrite IH.
Qed.

Lemma sort_values_permutation (l l' : list Z) :
  Permutation l l' -> sort_values l = sort_values l'.
Proof.
  apply (fold_right_permutation eq insert_sorted []).
  - apply eq_equivalence.
  - intros; congruence.
  - intros. apply insert_sorted_comm.
Qed.

Lemma total_permutation (l l' : list Z) :
  Permutation l l' -> total l = total l'.
Proof.
  apply (fold_right_permutation eq Z.add 0).
  - apply eq_equivalence.
  - intros; congruence.
  - intros. lia.
Qed.

Lemma sq_dev_permutation (m : Q) (l l' : list Z) :
  Permutation l l' -> (sq_dev m l == sq_dev m l')%Q.
Proof.
  apply (fold_right_permutation Qeq).
  - apply Q_Setoid.
  - intros a x y Hxy. now rewrite Hxy.
  - intros a b x. ring.
Qed.

Lemma dropna_permutation (x x' : list (option Z)) :
  Permutation x x' -> Permutation (dropna x) (dropna x').
Proof.
  intros HP. induction HP as [|[v|] x x' HP IH|[v|] [w|] x|x y z HP1 IH1 HP2 IH2];
    cbn [dropna].
  - constructor.
  - now constructor.
  - exact IH.
  - constructor.
  - reflexivity.
  - reflexivity.
  - reflexivity.
  - etransitivity; eauto.
Qed.

Lemma quantile_values (q : Q) (x x' : list (option Z)) :
  Permutation (dropna x) (dropna x') -> quantile q x = quantile q x'.
Proof.
  unfold quantile. generalize (dropna x) (dropna x'). intros l l' HP.
  pose proof (sort_values_permutation l l' HP) as Hs.
  destruct l as [|z l], l' as [|z' l'].
  - reflexivity.
  - apply Permutation_nil in HP. discriminate.
  - apply Permutation_sym, Permutation_nil in HP. discriminate.
  - now rewrite Hs.
Qed.

Lemma median_values (x x' : list (option Z)) :
  Permutation (dropna x) (dropna x') -> median x = median x'.
Proof.
  unfold median. generalize (dropna x) (dropna x'). intros l l' HP.
  pose proof (sort_values_permutation l l' HP) as Hs.
  destruct l as [|z l], l' as [|z' l'].
  - reflexivity.
  - apply Permutation_nil in HP. discriminate.
  - apply Permutation_sym, Permutation_nil in HP. discriminate.
  - now rewrite Hs.
Qed.

Lemma mean_values (x x' : list (option Z)) :
  Permutation (dropna x) (dropna x') -> mean x = mean x'.
Proof.
  unfold mean. generalize (dropna x) (dropna x'). intros l l' HP.
  pose proof (total_permutation l l' HP) as Ht.
  pose proof (Permutation_length HP) as Hl.
  destruct l as [|z l], l' as [|z' l'].
  - reflexivity.
  - apply Permutation_nil in HP. discriminate.
  - apply Permutation_sym, Permutation_nil in HP. discriminate.
  - unfold count. now rewrite Ht, Hl.
Qed.

Lemma std_values (x x' : list (option Z)) :
  Permutation (dropna x) (dropna x') -> std x = std x'.
Proof.
  intros HP. unfold std. rewrite (mean_values x x' HP).
  destruct (mean x') as [m|]; [|reflexivity].
  unfold count. rewrite (Permutation_length HP).
  destruct (List.length (dropna x') <? 2)%nat; [reflexivity|].
  do 2 f_equal. apply Qred_complete.
  now rewrite (sq_dev_permutation m _ _ HP).
Qed.

Lemma iqr_values (x x' : list (option Z)) :
  Permutation (dropna x) (dropna x') -> iqr x = iqr x'.
Proof.
  intros HP. unfold iqr.
  now rewrite (quantile_values (3 # 4) x x' HP), (quantile_values (1 # 4) x x' HP).
Qed.

Lemma agg_subdomain_values (x x' : list (option Z)) :
  Permutation (dropna x) (dropna x') -> agg_subdomain x = agg_subdomain x'.
Proof.
  intros HP. unfold agg_subdomain.
  now rewrite (median_values x x' HP), (mean_values x x' HP),
    (std_values x x' HP), (iqr_values x x' HP).
Qed.

Lemma agg_domain_values (x x' : list (option Z)) :
  Permutation (dropna x) (dropna x') -> agg_domain x = agg_domain x'.
Proof.
  intros HP. unfold agg_domain.
  now rewrite (quantile_values (1 # 2) x x' HP), (mean_values x x' HP),
    (std_values x x' HP), (iqr_values x x' HP).
Qed.


Lemma Qred_of_int (q : Q) (z : Z) : (q == inject_Z z)%Q -> Qred q = inject_Z z.
Proof.
  intros H. rewrite (Qred_complete _ _ H).
  apply Qcanon.Qred_identity. cbn [Qnum Qden inject_Z]. apply Z.gcd_1_r.
Qed.






(** ** Grouping does not depend on the row order *)

Lemma Permutation_filter {A : Type} (p : A -> bool) (l l' : list A) :
  Permutation l l' -> Permutation (filter p l) (filter p l').
Proof.
  intros HP. induction HP as [|a l l' HP IH|a b l|l m n HP1 IH1 HP2 IH2];
    cbn [filter].
  - constructor.
  - destruct (p a); [now constructor|exact IH].
  - destruct (p a), (p b); try reflexivity. constructor.
  - etransitivity; eauto.
Qed.

Section GroupByFacts.

Context {K Row S : Type}.
Variable cmp : K -> K -> comparison.
Hypothesis cmp_good : good_order cmp.
Variable key : Row -> option K.
Variable val : Row -> option Z.
Variable agg : list (option Z) -> S.
Hypothesis agg_values :
  forall x x', Permutation (dropna x) (dropna x') -> agg x = agg x'.

Lemma cmp_refl (a : K) : cmp a a = Eq.
Proof.
  pose proof (cmp_antisym cmp cmp_good a a) as H.
  destruct (cmp a a); [reflexivity|discriminate|discriminate].
Qed.

Lemma cmp_gt_lt (a b : K) : cmp a b = Gt -> cmp b a = Lt.
Proof.
  intros H. rewrite (cmp_antisym cmp cmp_good b a), H. reflexivity.
Qed.

Lemma cmp_lt_gt (a b : K) : cmp a b = Lt -> cmp b a = Gt.
Proof.
  intros H. rewrite (cmp_antisym cmp cmp_good b a), H. reflexivity.
Qed.

Lemma insert_key_comm (a b : K) (l : list K) :
  insert_key cmp a (insert_key cmp b l) = insert_key cmp b (insert_key cmp a l).
Proof.
  induction l as [|h t IH].
  - cbn [insert_key].
    destruct (cmp a b) eqn:Hab.
    + apply (cmp_eq cmp cmp_good) in Hab. subst. now rewrite cmp_refl.
    + now rewrite (cmp_lt_gt a b Hab).
    + now rewrite (cmp_gt_lt a b Hab).
  - cbn [insert_key].
    destruct (cmp a h) eqn:Hah, (cmp b h) eqn:Hbh; cbn [insert_key];
      rewrite ?Hah, ?Hbh; try reflexivity.
    + (* a = h, b < h *)
      apply (cmp_eq cmp cmp_good) in Hah. subst a.
      rewrite (cmp_lt_gt b h Hbh). cbn [insert_key].
      rewrite ?cmp_refl. reflexivity.
    + (* a < h, b = h *)
      apply (cmp_eq cmp cmp_good) in Hbh. subst b.
      rewrite (cmp_lt_gt a h Hah). cbn [insert_key].
      rewrite ?cmp_refl. reflexivity.
    + (* a < h, b < h *)
      destruct (cmp a b) eqn:Hab.
      * apply (cmp_eq cmp cmp_good) in Hab. subst.
        rewrite ?cmp_refl. reflexivity.
      * rewrite (cmp_lt_gt a b Hab). cbn [insert_key].
        rewrite ?Hbh. reflexivity.
      * rewrite (cmp_gt_lt a b Hab). cbn [insert_key].
        rewrite ?Hah. reflexivity.
    + (* a < h < b *)
      assert (Hab : cmp a b = Lt).
      { apply (cmp_trans cmp cmp_good a h b Hah). now apply cmp_gt_lt. }
      rewrite (cmp_lt_gt a b Hab). cbn [insert_key].
      rewrite ?Hbh. reflexivity.
    + (* b < h < a *)
      assert (Hba : cmp b a = Lt).
      { apply (cmp_trans cmp cmp_good b h a Hbh). now apply cmp_gt_lt. }
      rewrite (cmp_lt_gt b a Hba). cbn [insert_key].
      rewrite ?Hah. reflexivity.
    + now rewrite IH.
Qed.

Lemma group_keys_permutation (ks ks' : list K) :
  Permutation ks ks' -> group_keys cmp ks = group_keys cmp ks'.
Proof.
  apply (fold_right_permutation eq (insert_key cmp) []).
  - apply eq_equivalence.
  - intros; congruence.
  - intros. apply insert_key_comm.
Qed.

Lemma groupby_permutation (rows rows' : list Row) :
  Permutation rows rows' ->
  groupby cmp key val agg rows = groupby cmp key val agg rows'.
Proof.
  intros HP. unfold groupby.
  rewrite (group_keys_permutation (keys_of key rows) (keys_of key rows')).
  - apply map_ext. intros k. f_equal. apply agg_values.
    apply dropna_permutation, Permutation_map, Permutation_filter, HP.
  - unfold keys_of. now apply Permutation_flat_map.
Qed.

End GroupByFacts.

(** ** The key comparisons are good orders *)

Lemma string_compare_trans (a b c : string) :
  String.compare a b = Lt -> String.compare b c = Lt -> String.compare a c = Lt.
Proof.
  revert b c. induction a as [|x a IH]; intros [|y b] [|z c];
    cbn [String.compare]; try discriminate; try reflexivity.
  destruct (Ascii.compare x y) eqn:Hxy; try discriminate;
    destruct (Ascii.compare y z) eqn:Hyz; try discriminate; intros H1 H2.
  - apply Ascii.compare_eq_iff in Hxy. subst y. rewrite Hyz. eauto.
  - apply Ascii.compare_eq_iff in Hxy. subst y. now rewrite Hyz.
  - apply Ascii.compare_eq_iff in Hyz. subst z. now rewrite Hxy.
  - assert (Hxz : Ascii.compare x z = Lt).
    { unfold Ascii.compare in *. rewrite N.compare_lt_iff in *. lia. }
    now rewrite Hxz.
Qed.

Lemma string_good_order : good_order String.compare.
Proof.
  constructor.
  - apply String.compare_eq_iff.
  - apply String.compare_antisym.
  - apply string_compare_trans.
Qed.

Lemma Z_good_order : good_order Z.compare.
Proof.
  constructor.
  - apply Z.compare_eq.
  - intros a b. apply Z.compare_antisym.
  - intros a b c. rewrite !Z.compare_lt_iff. lia.
Qed.

Lemma lex_good_order {A B : Type} (ca : A -> A -> comparison)
    (cb : B -> B -> comparison) :
  good_order ca -> good_order cb ->
  good_order (fun x y : A * B => lex (ca (fst x) (fst y)) (cb (snd x) (snd y))).
Proof.
  intros Ha Hb. constructor.
  - intros [a1 b1] [a2 b2]. cbn [fst snd]. unfold lex.
    destruct (ca a1 a2) eqn:Hc; try discriminate.
    intros Hd. apply (cmp_eq ca Ha) in Hc. apply (cmp_eq cb Hb) in Hd.
    congruence.
  - intros [a1 b1] [a2 b2]. cbn [fst snd]. unfold lex.
    rewrite (cmp_antisym ca Ha a1 a2), (cmp_antisym cb Hb b1 b2).
    destruct (ca a2 a1); reflexivity.
  - intros [a1 b1] [a2 b2] [a3 b3]. cbn [fst snd]. unfold lex.
    destruct (ca a1 a2) eqn:H12; try discriminate;
      destruct (ca a2 a3) eqn:H23; try discriminate; intros H1 H2.
    + apply (cmp_eq ca Ha) in H12. subst a2. rewrite H23.
      exact (cmp_trans cb Hb _ _ _ H1 H2).
    + apply (cmp_eq ca Ha) in H12. subst a2. now rewrite H23.
    + apply (cmp_eq ca Ha) in H23. subst a3. now rewrite H12.
    + now rewrite (cmp_trans ca Ha _ _ _ H12 H23).
Qed.

Lemma good_order_inj {K K' : Type} (f : K -> K') (cmp : K' -> K' -> comparison) :
  (forall a b, f a = f b -> a = b) ->
  good_order cmp -> good_order (fun a b => cmp (f a) (f b)).
Proof.
  intros Hf Hc. constructor.
  - intros a b H. apply Hf. exact (cmp_eq cmp Hc _ _ H).
  - intros a b. apply (cmp_antisym cmp Hc).
  - intros a b c. apply (cmp_trans cmp Hc).
Qed.

Lemma domain_key_good_order : good_order domain_key_cmp.
Proof.
  exact (lex_good_order String.compare Z.compare string_good_order Z_good_order).
Qed.

Lemma subdomain_key_nested_inj (a b : SubdomainKey) :
  (fst (fst a), (snd (fst a), snd a)) = (fst (fst b), (snd (fst b), snd b)) ->
  a = b.
Proof.
  destruct a as [[s d] e], b as [[s' d'] e']. cbn [fst snd].
  intros H. injection H as -> -> ->. reflexivity.
Qed.

Lemma subdomain_key_good_order : good_order subdomain_key_cmp.
Proof.
  exact (good_order_inj
           (fun k : SubdomainKey => (fst (fst k), (snd (fst k), snd k)))
           _
           subdomain_key_nested_inj
           (lex_good_order String.compare _ string_good_order
              (lex_good_order Z.compare Z.compare Z_good_order Z_good_order))).
Qed.

Lemma left_merge_permutation {L R O : Type} (m : L -> R -> bool)
    (j : L -> R -> O) (u : L -> O) (left left' : list L) (right : list R) :
  Permutation left left' ->
  Permutation (left_merge m j u left right) (left_merge m j u left' right).
Proof.
  intros HP. unfold left_merge. now apply Permutation_flat_map.
Qed.

Lemma nth_error_combine {A B : Type} (a : list A) (b : list B) (i : nat) :
  nth_error (combine a b) i
  = match nth_error a i, nth_error b i with
    | Some x, Some y => Some (x, y)
    | _, _ => None
    end.
Proof.
  revert b i. induction a as [|x a IH]; intros [|y b] [|i]; cbn; try reflexivity.
  - now destruct (nth_error a i).
  - apply IH.
Qed.

Lemma take_combine {A B : Type} (p : list nat) (a : list A) (b : list B) :
  List.length a = List.length b ->
  combine (take p a) (take p b) = take p (combine a b).
Proof.
  intros Hlen. unfold take. induction p as [|i p IH]; [reflexivity|].
  cbn [flat_map]. rewrite nth_error_combine.
  destruct (nth_error a i) as [x|] eqn:Ha, (nth_error b i) as [y|] eqn:Hb.
  - cbn [app combine]. now rewrite IH.
  - exfalso. apply nth_error_None in Hb.
    assert (i < List.length a)%nat by (apply nth_error_Some; congruence). lia.
  - exfalso. apply nth_error_None in Ha.
    assert (i < List.length b)%nat by (apply nth_error_Some; congruence). lia.
  - cbn [app]. exact IH.
Qed.

Lemma take_seq_app {A : Type} (l pre : list A) :
  take (seq (List.length pre) (List.length l)) (pre ++ l)%list = l.
Proof.
  revert pre. induction l as [|a l IH]; intros pre; [reflexivity|].
  cbn [List.length seq]. unfold take in *. cbn [flat_map].
  rewrite nth_error_app2, Nat.sub_diag by lia. cbn [nth_error app].
  f_equal. specialize (IH (pre ++ [a])%list).
  rewrite length_app, Nat.add_1_r, <- app_assoc in IH. exact IH.
Qed.

Lemma take_permutation {A : Type} (p : list nat) (l : list A) :
  Permutation p (seq 0 (List.length l)) -> Permutation (take p l) l.
Proof.
  intros HP. rewrite <- (take_seq_app l []) at 2.
  unfold take. cbn [List.length app]. now apply Permutation_flat_map.
Qed.

Lemma flat_map_pointwise_permutation {A B : Type} (f g : A -> list B)
    (l : list A) :
  (forall x, In x l -> Permutation (f x) (g x)) ->
  Permutation (flat_map f l) (flat_map g l).
Proof.
  induction l as [|a l IH]; intros H; [constructor|].
  cbn [flat_map]. apply Permutation_app.
  - apply H. now left.
  - apply IH. intros x Hx. apply H. now right.
Qed.

(** Reordering the rows of the wide table reorders the melted table. *)
Lemma melt_row_order (p : list nat) (df4 : Responses) :
  rectangular df4 ->
  Permutation p (seq 0 (List.length (id_vars df4))) ->
  Permutation (melt (take_rows p df4)) (melt df4).
Proof.
  intros Hrect HP. unfold melt, take_rows. cbn [id_vars value_vars].
  rewrite flat_map_map. apply flat_map_pointwise_permutation.
  intros c Hc. cbn [fst snd].
  rewrite take_combine by (symmetry; exact (Hrect c Hc)).
  apply Permutation_map, take_permutation.
  rewrite length_combine, (Hrect c Hc), Nat.min_id. exact HP.
Qed.

(** The aggregator on a reordered table of response records. *)
Lemma aggregator_row_order (long long' : list ResponseRecord)
    (tax : list TaxonomyRow) :
  Permutation long long' ->
  Permutation (recode (annotate long tax)) (recode (annotate long' tax))
  /\ subdomain_stats (recode (annotate long tax))
     = subdomain_stats (recode (annotate long' tax))
  /\ domain_level_stats (recode (annotate long tax))
     = domain_level_stats (recode (annotate long' tax)).
Proof.
  intros HP.
  assert (Hrows : Permutation (recode (annotate long tax))
                              (recode (annotate long' tax))).
  { rewrite !recode_rows_annotated. apply Permutation_map.
    unfold annotate. now apply left_merge_permutation. }
  split; [exact Hrows|]. split.
  - unfold subdomain_stats.
    apply (groupby_permutation _ subdomain_key_good_order).
    + apply agg_subdomain_values.
    + exact Hrows.
  - unfold domain_level_stats.
    apply (groupby_permutation _ domain_key_good_order).
    + apply agg_domain_values.
    + exact Hrows.
Qed.

(** ** The float64 standard deviation *)

Lemma group_var_step_nobs (l : list Z) (st : var_state) :
  nobs (fold_left group_var_step l st) = nobs st + count l.
Proof.
  unfold count. revert st. induction l as [|v l IH]; intros st.
  - cbn [fold_left List.length]. lia.
  - cbn [fold_left]. rewrite IH. cbn [group_var_step nobs List.length]. lia.
Qed.

(** The float64 standard deviation is a number exactly when the group
    has at least two scores, as the exact one. *)
Lemma std_float64_presence (x : list (option Z)) :
  has_value (std_float64 x) = negb (List.length (dropna x) <? 2)%nat
  /\ has_value (std_float64 x) = has_value (std x).
Proof.
  assert (H1 : has_value (std_float64 x)
               = negb (List.length (dropna x) <? 2)%nat).
  { unfold std_float64, group_var. rewrite group_var_step_nobs.
    cbn [nobs]. unfold count.
    destruct (Z.leb_spec (0 + Z.of_nat (List.length (dropna x))) 1) as [H|H];
      destruct (Nat.ltb_spec (List.length (dropna x)) 2) as [H'|H'];
      try reflexivity; lia. }
  split; [exact H1|]. rewrite H1. unfold std, mean.
  destruct (dropna x) as [|v l]; [reflexivity|].
  destruct (List.length (v :: l) <? 2)%nat; reflexivity.
Qed.

Lemma std_float64_presence_values (x x' : list (option Z)) :
  Permutation (dropna x) (dropna x') ->
  has_value (std_float64 x) = has_value (std_float64 x').
Proof.
  intros HP. rewrite !(proj1 (std_float64_presence _)).
  now rewrite (Permutation_length HP).
Qed.

Lemma presence_groupby {K Row : Type} (cmp : K -> K -> comparison)
    (key : Row -> option K) (val : Row -> option Z) (rows : list Row) :
  presence (groupby cmp key val std_float64 rows)
  = groupby cmp key val (fun x => has_value (std_float64 x)) rows.
Proof. unfold presence, groupby. rewrite map_map. reflexivity. Qed.

Lemma presence_row_order (long long' : list AnnotatedResponse) :
  Permutation long long' ->
  presence (subdomain_std_float64 long) = presence (subdomain_std_float64 long')
  /\ presence (domain_std_float64 long) = presence (domain_std_float64 long').
Proof.
  intros HP. unfold subdomain_std_float64, domain_std_float64.
  rewrite !presence_groupby. split.
  - apply (groupby_permutation _ subdomain_key_good_order);
      [apply std_float64_presence_values|exact HP].
  - apply (groupby_permutation _ domain_key_good_order);
      [apply std_float64_presence_values|exact HP].
Qed.

(** C8 fails as stated for the standard deviation. Three employees of
    one team answer one question with 2, 4 and 1; with the last two rows
    of the response table exchanged, the float64 standard deviation of the
    group changes from 1.5275252316519468 to 1.5275252316519465, in both
    statistics tables, while the exact standard deviation (the root of
    7/3) is the same. *)
Lemma std_depends_on_row_order :
  rectangular
    (mkResponses [(1, "A"); (2, "A"); (3, "A")]
                 [("ZT1", [Some 2; Some 4; Some 1])])
  /\ Permutation [0; 2; 1]%nat (seq 0 3)
  /\ take_rows [0; 2; 1]%nat
       (mkResponses [(1, "A"); (2, "A"); (3, "A")]
                    [("ZT1", [Some 2; Some 4; Some 1])])
     = mkResponses [(1, "A"); (3, "A"); (2, "A")]
                   [("ZT1", [Some 2; Some 1; Some 4])]
  /\ main_std_float64 ["ZT1"] [mkItem "ZT1" (Some 4)]
       [mkSubdomain (Some 4) (DInt 1)]
       (mkResponses [(1, "A"); (2, "A"); (3, "A")]
                    [("ZT1", [Some 2; Some 4; Some 1])])
     = Ok ([(("A", 1, 4), Some 0x1.870be4c1c28b2p+0%float)],
           [(("A", 1), Some 0x1.870be4c1c28b2p+0%float)])
  /\ main_std_float64 ["ZT1"] [mkItem "ZT1" (Some 4)]
       [mkSubdomain (Some 4) (DInt 1)]
       (take_rows [0; 2; 1]%nat
          (mkResponses [(1, "A"); (2, "A"); (3, "A")]
                       [("ZT1", [Some 2; Some 4; Some 1])]))
     = Ok ([(("A", 1, 4), Some 0x1.870be4c1c28b1p+0%float)],
           [(("A", 1), Some 0x1.870be4c1c28b1p+0%float)])
  /\ (0x1.870be4c1c28b1p+0 <? 0x1.870be4c1c28b2p+0)%float = true
  /\ std_float64 [Some 2; Some 4; Some 1] <> std_float64 [Some 2; Some 1; Some 4]
  /\ std [Some 2; Some 4; Some 1] = Some (Sqrt (7 # 3))
  /\ std [Some 2; Some 1; Some 4] = Some (Sqrt (7 # 3)).
Proof.
  split; [intros c [<-|[]]; reflexivity|].
  split; [apply perm_skip, perm_swap|].
  split; [reflexivity|].
  split; [vm_compute; reflexivity|].
  split; [vm_compute; reflexivity|].
  split; [vm_compute; reflexivity|].
  split; [|split; reflexivity].
  intros H.
  assert (Hb : option_map (PrimFloat.eqb 0x1.870be4c1c28b2p+0%float)
                 (std_float64 [Some 2; Some 4; Some 1])
               = option_map (PrimFloat.eqb 0x1.870be4c1c28b2p+0%float)
                   (std_float64 [Some 2; Some 1; Some 4]))
    by (rewrite H; reflexivity).
  vm_compute in Hb. discriminate Hb.
Qed.

(** C8, as the code has it: the grouped median, mean and IQR and the
    sample variance, whose root is the exact standard deviation, do not
    depend on the order of the response rows, and the float64 standard
    deviation is a number for the same groups in either order (its last
    bits may differ). This holds for a reordering of the response
    records that enter the aggregator, and for a run of the pipeline on
    the wide response table with its rows reordered. The groups with a
    float64 standard deviation are those with at least two scores, the
    same as for the exact one. *)
Theorem statistics_row_order_invariant :
  (forall (long long' : list ResponseRecord) (tax : list TaxonomyRow),
      Permutation long long' ->
      exact_view (subdomain_stats (recode (annotate long tax)))
      = exact_view (subdomain_stats (recode (annotate long' tax)))
      /\ exact_view (domain_level_stats (recode (annotate long tax)))
         = exact_view (domain_level_stats (recode (annotate long' tax)))
      /\ presence (subdomain_std_float64 (recode (annotate long tax)))
         = presence (subdomain_std_float64 (recode (annotate long' tax)))
      /\ presence (domain_std_float64 (recode (annotate long tax)))
         = presence (domain_std_float64 (recode (annotate long' tax))))
  /\ (forall (df1 : list string) (df2 : list ItemRow) (df3 : list SubdomainRow)
             (df4 : Responses) (p : list nat) (out : Outputs),
         rectangular df4 ->
         Permutation p (seq 0 (List.length (id_vars df4))) ->
         main df1 df2 df3 df4 = Ok out ->
         exists out' f f',
           main df1 df2 df3 (take_rows p df4) = Ok out'
           /\ Permutation (df_long out') (df_long out)
           /\ exact_view (stats_df out') = exact_view (stats_df out)
           /\ exact_view (domain_stats out') = exact_view (domain_stats out)
           /\ main_std_float64 df1 df2 df3 df4 = Ok f
           /\ main_std_float64 df1 df2 df3 (take_rows p df4) = Ok f'
           /\ presence (fst f') = presence (fst f)
           /\ presence (snd f') = presence (snd f))
  /\ (forall x : list (option Z),
         has_value (std_float64 x) = negb (List.length (dropna x) <? 2)%nat
         /\ has_value (std_float64 x) = has_value (std x)).
Proof.
  split; [|split; [|exact std_float64_presence]].
  - intros long long' tax HP.
    destruct (aggregator_row_order long long' tax HP) as (Hrows & H1 & H2).
    destruct (presence_row_order _ _ Hrows) as [H3 H4].
    rewrite H1, H2. auto.
  - intros df1 df2 df3 df4 p out Hrect HP. unfold main, main_std_float64.
    destruct (resolve df1 df2 df3) as [tax|e]; cbn [bind]; [|discriminate].
    intros Hout. injection Hout as <-.
    destruct (aggregator_row_order _ _ tax (melt_row_order p df4 Hrect HP))
      as (Hrows & H1 & H2).
    destruct (presence_row_order _ _ Hrows) as [H3 H4].
    eexists. eexists. eexists.
    split; [reflexivity|]. cbn [df_long stats_df domain_stats fst snd].
    split; [exact Hrows|]. rewrite H1, H2.
    split; [reflexivity|]. split; [reflexivity|].
    split; [reflexivity|]. split; [reflexivity|]. auto.
Qed.

Lemma statistics_row_order_invariant_witness :
  exact_view
    (subdomain_stats
       (recode (annotate [mkResponse 1 "A" "ZT1" (Some 2);
                          mkResponse 2 "A" "ZT1" (Some 4);
                          mkResponse 3 "A" "ZT1" (Some 1)]
                         [mkTaxonomy "ZT1" (Some 4) 1])))
  = exact_view
      (subdomain_stats
         (recode (annotate [mkResponse 1 "A" "ZT1" (Some 2);
                            mkResponse 3 "A" "ZT1" (Some 1);
                            mkResponse 2 "A" "ZT1" (Some 4)]
                           [mkTaxonomy "ZT1" (Some 4) 1])))
  /\ exists out',
       main ["ZT1"] [mkItem "ZT1" (Some 4)] [mkSubdomain (Some 4) (DInt 1)]
            (take_rows [0; 2; 1]%nat
               (mkResponses [(1, "A"); (2, "A"); (3, "A")]
                            [("ZT1", [Some 2; Some 4; Some 1])]))
       = Ok out'
       /\ exact_view (stats_df out')
          = [(("A", 1, 4), (Some 2%Q, Some (7 # 3), Some (3 # 2), Some (7 # 3)))].
Proof.
  split.
  - apply (proj1 statistics_row_order_invariant
             [mkResponse 1 "A" "ZT1" (Some 2); mkResponse 2 "A" "ZT1" (Some 4);
              mkResponse 3 "A" "ZT1" (Some 1)]
             [mkResponse 1 "A" "ZT1" (Some 2); mkResponse 3 "A" "ZT1" (Some 1);
              mkResponse 2 "A" "ZT1" (Some 4)]
             [mkTaxonomy "ZT1" (Some 4) 1]).
    apply perm_skip, perm_swap.
  - destruct (proj1 (proj2 statistics_row_order_invariant)
                ["ZT1"] [mkItem "ZT1" (Some 4)] [mkSubdomain (Some 4) (DInt 1)]
                (mkResponses [(1, "A"); (2, "A"); (3, "A")]
                             [("ZT1", [Some 2; Some 4; Some 1])])
                [0; 2; 1]%nat
                (mkOutputs
                   (recode (annotate
                      (melt (mkResponses [(1, "A"); (2, "A"); (3, "A")]
                                         [("ZT1", [Some 2; Some 4; Some 1])]))
                      [mkTaxonomy "ZT1" (Some 4) 1]))
                   (subdomain_stats (recode (annotate
                      (melt (mkResponses [(1, "A"); (2, "A"); (3, "A")]
                                         [("ZT1", [Some 2; Some 4; Some 1])]))
                      [mkTaxonomy "ZT1" (Some 4) 1])))
                   (domain_level_stats (recode (annotate
                      (melt (mkResponses [(1, "A"); (2, "A"); (3, "A")]
                                         [("ZT1", [Some 2; Some 4; Some 1])]))
                      [mkTaxonomy "ZT1" (Some 4) 1])))))
      as (out' & f & f' & Hmain & _ & Hstats & _).
    + intros c [<-|[]]. reflexivity.
    + apply perm_skip, perm_swap.
    + reflexivity.
    + exists out'. split; [exact Hmain|]. rewrite Hstats. reflexivity.
Defined.

(** Recoding a table twice gives the table back: the step must run once. *)
Lemma recode_twice (df : list ResponseRecord) : recode (recode df) = df.
Proof.
  rewrite !recode_rows_response, map_map.
  rewrite <- (map_id df) at 2. apply map_ext. intros [e t q s].
  unfold recode_row.
  cbn [code_of ResponseRecord_frame question_code].
  destruct (isin reverse_items q) eqn:Hq;
    cbn [code_of set_score score_of ResponseRecord_frame
         employee_id team question_code score];
    rewrite Hq; [|reflexivity].
  cbn [code_of set_score score_of ResponseRecord_frame
       employee_id team question_code score].
  f_equal. destruct s as [v|]; cbn [option_map]; [f_equal; lia|reflexivity].
Qed.

(** * Further properties of the pipeline *)

(** ** What a successful resolver run contains *)

Lemma mapM_ok_inv {A B : Type} (f : A -> result B) (l : list A) (ys : list B) :
  mapM f l = Ok ys -> Forall2 (fun x y => f x = Ok y) l ys.
Proof.
  revert ys. induction l as [|a l IH]; cbn [mapM]; intros ys H.
  - injection H as <-. constructor.
  - destruct (f a) as [b|e] eqn:Ha; cbn [bind] in H; [|discriminate].
    destruct (mapM f l) as [bs|e] eqn:Hl; cbn [bind] in H; [|discriminate].
    injection H as <-. constructor; auto.
Qed.

Lemma Forall2_in_l {A B : Type} (P : A -> B -> Prop) (l : list A) (l' : list B)
    (x : A) :
  Forall2 P l l' -> In x l -> exists y, In y l' /\ P x y.
Proof.
  induction 1 as [|a b l l' Hab _ IH]; intros Hin; [destruct Hin|].
  destruct Hin as [->|Hin].
  - exists b. split; [now left|exact Hab].
  - destruct (IH Hin) as (y & Hy & Hp). exists y. split; [now right|exact Hp].
Qed.

Lemma Forall2_in_r {A B : Type} (P : A -> B -> Prop) (l : list A) (l' : list B)
    (y : B) :
  Forall2 P l l' -> In y l' -> exists x, In x l /\ P x y.
Proof.
  induction 1 as [|a b l l' Hab _ IH]; intros Hin; [destruct Hin|].
  destruct Hin as [->|Hin].
  - exists a. split; [now left|exact Hab].
  - destruct (IH Hin) as (x & Hx & Hp). exists x. split; [now right|exact Hp].
Qed.

Lemma left_merge_total {L R O : Type} (m : L -> R -> bool) (j : L -> R -> O)
    (u : L -> O) (left : list L) (right : list R) (l : L) :
  In l left ->
  exists o, In o (left_merge m j u left right)
    /\ ((exists r, In r right /\ m l r = true /\ o = j l r) \/ o = u l).
Proof.
  intros Hl. destruct (filter (m l) right) as [|r ms] eqn:Hf.
  - exists (u l). split; [|now right].
    apply in_left_merge. exists l. split; [exact Hl|]. right.
    split; [|reflexivity]. intros r Hr.
    destruct (m l r) eqn:Hm; [|reflexivity].
    assert (Hin : In r (filter (m l) right)) by (apply filter_In; auto).
    rewrite Hf in Hin. destruct Hin.
  - assert (Hin : In r (filter (m l) right)) by (rewrite Hf; now left).
    apply filter_In in Hin. destruct Hin as [Hr Hm].
    exists (j l r). split; [|left; exists r; auto].
    apply in_left_merge. exists l. split; [exact Hl|]. left. exists r. auto.
Qed.

Lemma subdomain_table_codes (df1 : list string) (df2 : list ItemRow) (q : string) :
  In q df1 <-> exists s, In (q, s) (subdomain_table df1 df2).
Proof.
  split.
  - intros Hq. unfold subdomain_table. 
    destruct (left_merge_total (fun q r => String.eqb q (code r))
                (fun q r => (q, item_subdomain_id r)) (fun q => (q, None))
                df1 df2 q Hq) as (o & Ho & Hform).
    rewrite manual_fallback_map.
    exists (snd (fill_manual o)).
    apply in_map_iff. exists o. split; [|exact Ho].
    destruct Hform as [(r & _ & _ & ->)| ->]; reflexivity.
  - intros (s & Hs). apply in_subdomain_table in Hs. tauto.
Qed.

Lemma in_explode_domains_inv (d : dtype) (t : list (string * option Z * dom_val))
    (q : string) (s : option Z) (tok : string) :
  In (q, s, tok) (explode_domains d t) ->
  exists v, In (q, s, v) t /\ In tok (split_comma (cell_text d v)).
Proof.
  unfold explode_domains. rewrite in_flat_map.
  intros ([[q' s'] v] & Hin & Htok). cbn [fst snd] in Htok.
  apply in_map_iff in Htok. destruct Htok as (tok' & Heq & Htok).
  injection Heq as -> -> ->. exists v. auto.
Qed.

Lemma split_comma_nonempty (s : string) : exists h t, split_comma s = h :: t.
Proof.
  pose proof (split_comma_length s) as H.
  destruct (split_comma s) as [|h t]; [discriminate|eauto].
Qed.

Lemma astype_int_ok (tok : string) (v : Z) :
  astype_int tok = Ok v ->
  py_int tok = Some v /\ int64_min <= v <= int64_max.
Proof.
  unfold astype_int. destruct (py_int tok) as [w|]; [|discriminate].
  destruct (int64_min <=? w) eqn:H1, (w <=? int64_max) eqn:H2;
    cbn [andb]; try discriminate.
  intros H. injection H as <-. split; [reflexivity|lia].
Qed.

(** X1: what a successful resolver run contains. Every question of the
    mapping relation has at least one taxonomy row; every taxonomy row
    carries a question and subdomain of the question-to-subdomain table,
    a subdomain that has an entry in the subdomain table, and a domain id
    that fits a 64-bit integer. *)
Theorem resolve_rows_sound (df1 : list string) (df2 : list ItemRow)
    (df3 : list SubdomainRow) (rows : list TaxonomyRow) :
  resolve df1 df2 df3 = Ok rows ->
  (forall q, In q df1 -> (1 <= count_rows q rows)%nat)
  /\ (forall t, In t rows ->
        In (tx_question_code t, tx_subdomain_id t) (subdomain_table df1 df2)
        /\ In (tx_question_code t) df1
        /\ (exists d, In d df3 /\ key_eqb (tx_subdomain_id t) (sd_id d) = true)
        /\ int64_min <= tx_domainId t <= int64_max).
Proof.
  unfold resolve.
  set (merged := merge_subdomains (subdomain_table df1 df2) df3).
  set (dt := merged_dtype _ _). intros Hres.
  apply mapM_ok_inv in Hres.
  assert (Hrow : forall t, In t rows ->
            exists tok v, In (tx_question_code t, tx_subdomain_id t, v) merged
              /\ In tok (split_comma (cell_text dt v))
              /\ astype_int tok = Ok (tx_domainId t)).
  { intros t Ht.
    destruct (Forall2_in_r _ _ _ t Hres Ht) as ([[q s] tok] & Hx & Hf).
    unfold to_taxonomy in Hf. cbn [fst snd] in Hf.
    destruct (astype_int tok) as [v|e] eqn:Hv; cbn [bind] in Hf; [|discriminate].
    injection Hf as <-. cbn [tx_question_code tx_subdomain_id tx_domainId].
    apply in_explode_domains_inv in Hx. destruct Hx as (c & Hc & Htok).
    exists tok, c. auto. }
  split.
  - intros q Hq.
    apply (subdomain_table_codes df1 df2) in Hq. destruct Hq as (s & Hs).
    destruct (left_merge_total (fun l d => key_eqb (snd l) (sd_id d))
                (fun l d => (fst l, snd l, sd_domainId d))
                (fun l => (fst l, snd l, DNaN))
                (subdomain_table df1 df2) df3 (q, s) Hs) as (o & Ho & Hform).
    fold (merge_subdomains (subdomain_table df1 df2) df3) in Ho.
    fold merged in Ho.
    assert (Hqo : exists v, o = (q, s, v)).
    { destruct Hform as [(d & _ & _ & ->)| ->]; cbn [fst snd]; eauto. }
    destruct Hqo as (v & ->).
    destruct (split_comma_nonempty (cell_text dt v)) as (h & tl & Hsplit).
    assert (Hx : In (q, s, h) (explode_domains dt merged)).
    { eapply in_explode_domains; [exact Ho|]. rewrite Hsplit. now left. }
    destruct (Forall2_in_l _ _ _ _ Hres Hx) as (t & Ht & Hf).
    unfold to_taxonomy in Hf. cbn [fst snd] in Hf.
    destruct (astype_int h) as [z|e]; cbn [bind] in Hf; [|discriminate].
    injection Hf as <-.
    unfold count_rows.
    assert (Hin : In (mkTaxonomy q s z)
                     (filter (fun t => String.eqb (tx_question_code t) q) rows)).
    { apply filter_In. split; [exact Ht|]. cbn. apply String.eqb_refl. }
    destruct (filter _ rows); [destruct Hin|cbn [List.length]; lia].
  - intros t Ht. destruct (Hrow t Ht) as (tok & v & Hm & Htok & Hconv).
    apply astype_int_ok in Hconv. destruct Hconv as [Hpy Hrange].
    unfold merged, merge_subdomains in Hm. apply in_left_merge in Hm.
    destruct Hm as ([q s] & Hqs & Hform). cbn [fst snd] in Hform.
    destruct Hform as [(d & Hd & Hkey & Heq)|(_ & Heq)].
    + injection Heq as Hq Hs Hv. rewrite Hq, Hs.
      split; [exact Hqs|]. split.
      * apply (subdomain_table_codes df1 df2). eauto.
      * split; [eauto|exact Hrange].
    + exfalso. injection Heq as Hq Hs Hv. rewrite Hv in Htok.
      change (cell_text dt DNaN) with "nan" in Htok.
      destruct Htok as [<-|[]].
      vm_compute in Hpy. discriminate.
Qed.

Lemma resolve_rows_sound_witness :
  le 1 (count_rows "ZT117"
          [mkTaxonomy "ZT1" (Some 4) 1; mkTaxonomy "ZT1" (Some 4) 2;
           mkTaxonomy "ZT117" (Some 7) 3]).
Proof.
  apply (resolve_rows_sound
           ["ZT1"; "ZT117"] [mkItem "ZT1" (Some 4)]
           [mkSubdomain (Some 4) (DStr "1,2"); mkSubdomain (Some 7) (DInt 3)]
           _ eq_refl).
  simpl. auto.
Defined.

(** ** Splitting a domain list *)

Lemma split_comma_cons_char (c : ascii) (r h : string) (t : list string) :
  Ascii.eqb c "," = false -> split_comma r = h :: t ->
  split_comma (String c r) = String c h :: t.
Proof.
  intros Hc Hr. cbn [split_comma]. now rewrite Hc, Hr.
Qed.

(** X2: [str.split(',')] loses nothing: no piece contains a comma, and
    joining the pieces with commas gives the text back. *)
Theorem split_comma_join (s : string) :
  String.concat "," (split_comma s) = s
  /\ forall tok, In tok (split_comma s) -> comma_count tok = 0%nat.
Proof.
  induction s as [|c s [IHj IHc]].
  - split; [reflexivity|]. intros tok [<-|[]]. reflexivity.
  - destruct (split_comma_nonempty s) as (h & t & Hs).
    destruct (Ascii.eqb c ",") eqn:Hc.
    + apply Ascii.eqb_eq in Hc. subst c.
      cbn [split_comma]. rewrite Ascii.eqb_refl. split.
      * rewrite Hs in *. cbn [String.concat]. cbn [String.concat] in IHj.
        rewrite IHj. reflexivity.
      * intros tok [<-|Hin]; [reflexivity|now apply IHc].
    + rewrite (split_comma_cons_char c s h t Hc Hs). rewrite Hs in *. split.
      * cbn [String.concat] in *. destruct t as [|x xs].
        -- now rewrite IHj.
        -- rewrite <- IHj. reflexivity.
      * intros tok [<-|Hin].
        -- cbn [comma_count]. rewrite Hc. apply IHc. now left.
        -- apply IHc. now right.
Qed.

(** ** The melted and the annotated table *)

Lemma length_flat_map_const {A B : Type} (f : A -> list B) (l : list A) (n : nat) :
  (forall x, In x l -> List.length (f x) = n) ->
  List.length (flat_map f l) = (List.length l * n)%nat.
Proof.
  induction l as [|a l IH]; intros H; [reflexivity|].
  cbn [flat_map List.length]. rewrite length_app, (H a (or_introl eq_refl)).
  rewrite IH by (intros x Hx; apply H; now right). lia.
Qed.

(** X3: the melt of a rectangular wide table has one row per (employee,
    question) pair, the questions in column order, each over all the
    employees in row order. *)
Theorem melt_cardinality (df4 : Responses) :
  rectangular df4 ->
  List.length (melt df4)
  = (List.length (value_vars df4) * List.length (id_vars df4))%nat
  /\ map question_code (melt df4)
     = flat_map (fun c => repeat (fst c) (List.length (id_vars df4)))
                (value_vars df4)
  /\ map (fun r => (employee_id r, team r)) (melt df4)
     = flat_map (fun _ => id_vars df4) (value_vars df4).
Proof.
  intros Hrect. unfold melt. split; [|split].
  - apply length_flat_map_const. intros c Hc.
    rewrite length_map, length_combine, (Hrect c Hc). apply Nat.min_id.
  - rewrite map_flat_map. revert Hrect. unfold rectangular.
    generalize (id_vars df4) as ids. intros ids.
    induction (value_vars df4) as [|c cols IH]; intros Hrect; [reflexivity|].
    cbn [flat_map]. rewrite IH by (intros x Hx; apply Hrect; now right).
    f_equal. rewrite map_map. cbn [question_code].
    specialize (Hrect c (or_introl eq_refl)).
    assert (Hl : List.length (combine ids (snd c)) = List.length ids)
      by (rewrite length_combine, Hrect; apply Nat.min_id).
    rewrite <- Hl.
    clear. induction (combine ids (snd c)) as [|p l IH]; [reflexivity|].
    cbn [map List.length repeat]. now rewrite IH.
  - rewrite map_flat_map. revert Hrect. unfold rectangular.
    generalize (id_vars df4) as ids. intros ids.
    induction (value_vars df4) as [|c cols IH]; intros Hrect; [reflexivity|].
    cbn [flat_map]. rewrite IH by (intros x Hx; apply Hrect; now right).
    f_equal. rewrite map_map. cbn [employee_id team].
    specialize (Hrect c (or_introl eq_refl)).
    revert Hrect. generalize (snd c) as col. clear.
    induction ids as [|[e t] ids IH]; intros [|v col] Hlen;
      try discriminate; [reflexivity|].
    cbn [combine map fst snd]. f_equal. apply IH.
    cbn [List.length] in Hlen. lia.
Qed.

Lemma melt_cardinality_witness :
  List.length
    (melt (mkResponses [(1, "A"); (2, "B")]
                       [("ZT1", [Some 3; None]); ("ZT4", [Some 10; Some 2]);
                        ("ZT9", [None; None])]))
  = 6%nat.
Proof.
  apply (melt_cardinality
           (mkResponses [(1, "A"); (2, "B")]
                        [("ZT1", [Some 3; None]); ("ZT4", [Some 10; Some 2]);
                         ("ZT9", [None; None])])).
  intros c [<-|[<-|[<-|[]]]]; reflexivity.
Defined.

Lemma count_rows_filter (q : string) (tax : list TaxonomyRow) :
  filter (fun t => String.eqb q (tx_question_code t)) tax
  = filter (fun t => String.eqb (tx_question_code t) q) tax.
Proof.
  apply filter_ext. intros t. apply String.eqb_sym.
Qed.

(** X4: the left join of step 6 keeps every response. A response whose
    question has no taxonomy row is kept once, with missing subdomain and
    domain; any other response is copied once per taxonomy row of its
    question and takes that row's subdomain and domain. *)
Theorem annotate_keeps_responses (long : list ResponseRecord)
    (tax : list TaxonomyRow) :
  (forall r, In r long -> exists a, In a (annotate long tax) /\ response a = r)
  /\ (forall a, In a (annotate long tax) ->
        In (response a) long
        /\ ((count_rows (question_code (response a)) tax = 0%nat
             /\ subdomain_id a = None /\ domainId a = None)
            \/ exists t, In t tax
                 /\ tx_question_code t = question_code (response a)
                 /\ subdomain_id a = tx_subdomain_id t
                 /\ domainId a = Some (tx_domainId t)))
  /\ List.length (annotate long tax)
     = list_sum (map (fun r => Nat.max 1 (count_rows (question_code r) tax)) long).
Proof.
  split; [|split].
  - intros r Hr.
    destruct (left_merge_total
                (fun r t => String.eqb (question_code r) (tx_question_code t))
                (fun r t => mkAnnotated r (tx_subdomain_id t) (Some (tx_domainId t)))
                (fun r => mkAnnotated r None None) long tax r Hr)
      as (a & Ha & Hform).
    exists a. split; [exact Ha|].
    destruct Hform as [(t & _ & _ & ->)| ->]; reflexivity.
  - intros a Ha. split; [now apply annotate_response in Ha|].
    unfold annotate in Ha. apply in_left_merge in Ha.
    destruct Ha as (r & Hr & [(t & Ht & Hm & ->)|(Hno & ->)]); cbn.
    + right. exists t. apply String.eqb_eq in Hm. auto.
    + left. split; [|auto]. unfold count_rows.
      rewrite <- count_rows_filter.
      destruct (filter _ tax) as [|t ts] eqn:Hf; [reflexivity|].
      assert (Hin : In t (filter (fun t => String.eqb (question_code r)
                                             (tx_question_code t)) tax))
        by (rewrite Hf; now left).
      apply filter_In in Hin. destruct Hin as [Hin Hm].
      rewrite (Hno t Hin) in Hm. discriminate.
  - unfold annotate, left_merge. rewrite length_flat_map. f_equal.
    apply map_ext. intros r.
    unfold count_rows. rewrite <- count_rows_filter.
    destruct (filter _ tax) as [|t ts]; [reflexivity|].
    rewrite length_map. cbn [List.length]. lia.
Qed.

(** ** Rows without a key and the group keys *)

Section GroupKeys.

Context {K Row S : Type}.
Variable cmp : K -> K -> comparison.
Hypothesis cmp_good : good_order cmp.
Variable key : Row -> option K.
Variable val : Row -> option Z.
Variable agg : list (option Z) -> S.

Lemma keys_of_has_key (rows : list Row) :
  keys_of key (filter (has_key key) rows) = keys_of key rows.
Proof.
  unfold keys_of, has_key. induction rows as [|r rows IH]; [reflexivity|].
  cbn [filter flat_map]. destruct (key r) as [k|] eqn:Hk.
  - cbn [flat_map]. now rewrite Hk, IH.
  - exact IH.
Qed.

Lemma in_group_has_key (k : K) (rows : list Row) :
  filter (in_group cmp key k) (filter (has_key key) rows)
  = filter (in_group cmp key k) rows.
Proof.
  unfold in_group, has_key. induction rows as [|r rows IH]; [reflexivity|].
  cbn [filter]. destruct (key r) as [k'|] eqn:Hk.
  - cbn [filter]. now rewrite Hk, IH.
  - exact IH.
Qed.

Lemma groupby_has_key (rows : list Row) :
  groupby cmp key val agg (filter (has_key key) rows)
  = groupby cmp key val agg rows.
Proof.
  unfold groupby. rewrite keys_of_has_key. apply map_ext. intros k.
  now rewrite in_group_has_key.
Qed.

Lemma in_keys_of (rows : list Row) (k : K) :
  In k (keys_of key rows) <-> exists r, In r rows /\ key r = Some k.
Proof.
  unfold keys_of. rewrite in_flat_map. split.
  - intros (r & Hr & Hk). exists r. split; [exact Hr|].
    destruct (key r) as [k'|]; [|destruct Hk].
    destruct Hk as [->|[]]. reflexivity.
  - intros (r & Hr & Hk). exists r. split; [exact Hr|].
    rewrite Hk. now left.
Qed.

Lemma in_insert_key (a k : K) (l : list K) :
  In k (insert_key cmp a l) <-> k = a \/ In k l.
Proof.
  induction l as [|h t IH]; cbn [insert_key].
  - cbn. intuition.
  - destruct (cmp a h) eqn:Hah.
    + apply (cmp_eq cmp cmp_good) in Hah. subst h. cbn. intuition.
    + cbn. intuition.
    + cbn [In]. rewrite IH. intuition.
Qed.

Lemma in_group_keys (ks : list K) (k : K) :
  In k (group_keys cmp ks) <-> In k ks.
Proof.
  unfold group_keys. induction ks as [|a ks IH]; [reflexivity|].
  cbn [fold_right]. rewrite in_insert_key, IH. cbn. intuition.
Qed.

Lemma insert_key_sorted (a : K) (l : list K) :
  StronglySorted (fun x y => cmp x y = Lt) l ->
  StronglySorted (fun x y => cmp x y = Lt) (insert_key cmp a l).
Proof.
  induction 1 as [|h t Hs IH Hh]; cbn [insert_key].
  - repeat constructor.
  - destruct (cmp a h) eqn:Hah.
    + now constructor.
    + constructor; [now constructor|].
      constructor; [exact Hah|].
      rewrite Forall_forall in *. intros x Hx.
      exact (cmp_trans cmp cmp_good a h x Hah (Hh x Hx)).
    + constructor; [exact IH|].
      rewrite Forall_forall in *. intros x Hx.
      apply in_insert_key in Hx. destruct Hx as [->|Hx]; [|now apply Hh].
      rewrite (cmp_antisym cmp cmp_good h a), Hah. reflexivity.
Qed.

Lemma group_keys_sorted (ks : list K) :
  StronglySorted (fun x y => cmp x y = Lt) (group_keys cmp ks).
Proof.
  unfold group_keys. induction ks as [|a ks IH]; cbn [fold_right].
  - constructor.
  - now apply insert_key_sorted.
Qed.

Lemma groupby_keys (rows : list Row) :
  map fst (groupby cmp key val agg rows) = group_keys cmp (keys_of key rows).
Proof.
  unfold groupby. rewrite map_map. cbn [fst]. apply map_id.
Qed.

Lemma groupby_row (rows : list Row) (k : K) (st : S) :
  In (k, st) (groupby cmp key val agg rows) ->
  st = agg (map val (filter (in_group cmp key k) rows))
  /\ exists r, In r rows /\ key r = Some k.
Proof.
  unfold groupby. rewrite in_map_iff. intros (k' & Heq & Hk).
  injection Heq as -> <-. split; [reflexivity|].
  now apply in_keys_of, in_group_keys.
Qed.

End GroupKeys.

Lemma strictly_sorted_NoDup {K : Type} (cmp : K -> K -> comparison) (l : list K) :
  good_order cmp ->
  StronglySorted (fun x y => cmp x y = Lt) l -> NoDup l.
Proof.
  intros Hgood. induction 1 as [|h t Hs IH Hh]; constructor; [|exact IH].
  intros Hin. rewrite Forall_forall in Hh. specialize (Hh h Hin).
  rewrite (cmp_refl cmp Hgood) in Hh. discriminate.
Qed.

(** X5: the two statistics tables have one row per observed group, in
    increasing key order: the keys are strictly increasing (so no key
    occurs twice), a key is present exactly when some row of the long
    table carries it in full, and every (team, domain) pair of the
    subdomain-level table also has a row in the domain-level table. *)
Theorem statistics_tables_keys (rows : list AnnotatedResponse) :
  StronglySorted (fun a b => subdomain_key_cmp a b = Lt)
                 (map fst (subdomain_stats rows))
  /\ StronglySorted (fun a b => domain_key_cmp a b = Lt)
                    (map fst (domain_level_stats rows))
  /\ NoDup (map fst (subdomain_stats rows))
  /\ NoDup (map fst (domain_level_stats rows))
  /\ (forall k, In k (map fst (subdomain_stats rows)) <->
                exists a, In a rows /\ subdomain_key a = Some k)
  /\ (forall k, In k (map fst (domain_level_stats rows)) <->
                exists a, In a rows /\ domain_key a = Some k)
  /\ (forall t d s, In (t, d, s) (map fst (subdomain_stats rows)) ->
                    In (t, d) (map fst (domain_level_stats rows))).
Proof.
  unfold subdomain_stats, domain_level_stats. rewrite !groupby_keys.
  pose proof (group_keys_sorted subdomain_key_cmp subdomain_key_good_order
                (keys_of subdomain_key rows)) as Hs.
  pose proof (group_keys_sorted domain_key_cmp domain_key_good_order
                (keys_of domain_key rows)) as Hd.
  assert (Hks : forall k, In k (group_keys subdomain_key_cmp
                                  (keys_of subdomain_key rows)) <->
                          exists a, In a rows /\ subdomain_key a = Some k).
  { intros k. rewrite (in_group_keys _ subdomain_key_good_order).
    apply in_keys_of. }
  assert (Hkd : forall k, In k (group_keys domain_key_cmp
                                  (keys_of domain_key rows)) <->
                          exists a, In a rows /\ domain_key a = Some k).
  { intros k. rewrite (in_group_keys _ domain_key_good_order).
    apply in_keys_of. }
  repeat split; try assumption; try (now apply Hks); try (now apply Hkd).
  - exact (strictly_sorted_NoDup _ _ subdomain_key_good_order Hs).
  - exact (strictly_sorted_NoDup _ _ domain_key_good_order Hd).
  - intros t d s Hin. apply Hks in Hin. destruct Hin as (a & Ha & Hk).
    apply Hkd. exists a. split; [exact Ha|].
    unfold subdomain_key in Hk. unfold domain_key.
    destruct (domainId a) as [d'|]; [|discriminate].
    destruct (subdomain_id a); [|discriminate].
    injection Hk as <- <- _. reflexivity.
Qed.

Lemma filter_flat_map {A B : Type} (f : A -> list B) (p : B -> bool) (l : list A) :
  filter p (flat_map f l) = flat_map (fun a => filter p (f a)) l.
Proof.
  induction l as [|a l IH]; [reflexivity|].
  cbn [flat_map]. now rewrite filter_app, IH.
Qed.

Lemma recode_row_keys (a : AnnotatedResponse) :
  subdomain_key (recode_row a) = subdomain_key a
  /\ domain_key (recode_row a) = domain_key a.
Proof.
  unfold recode_row. destruct (isin reverse_items (code_of a)); split; reflexivity.
Qed.

Lemma unclassified_rows_have_no_key
    (long : list ResponseRecord) (tax : list TaxonomyRow)
    (p : AnnotatedResponse -> bool) :
  (forall r, p (recode_row (mkAnnotated r None None)) = false) ->
  filter p (recode (annotate long tax))
  = filter p (recode (annotate (filter (classified tax) long) tax)).
Proof.
  intros Hp. rewrite !recode_rows_annotated. unfold annotate, left_merge.
  rewrite !map_flat_map, !filter_flat_map.
  induction long as [|r long IH]; [reflexivity|].
  cbn [flat_map filter]. unfold classified at 1. unfold count_rows.
  rewrite <- count_rows_filter.
  destruct (filter (fun t => String.eqb (question_code r) (tx_question_code t)) tax)
    as [|t ts] eqn:Hf.
  - cbn [List.length Nat.eqb negb map filter]. rewrite Hp. exact IH.
  - cbn [List.length Nat.eqb negb flat_map]. rewrite Hf, IH. reflexivity.
Qed.

(** X6: responses to questions that have no taxonomy row take no part in
    either aggregation: dropping them before the join gives the same
    subdomain-level and domain-level tables. More generally a row of the
    long table with a missing key column is ignored by the grouping. *)
Theorem unclassified_responses_ignored (long : list ResponseRecord)
    (tax : list TaxonomyRow) :
  subdomain_stats (recode (annotate long tax))
  = subdomain_stats (recode (annotate (filter (classified tax) long) tax))
  /\ domain_level_stats (recode (annotate long tax))
     = domain_level_stats (recode (annotate (filter (classified tax) long) tax))
  /\ (forall rows, subdomain_stats (filter (has_key subdomain_key) rows)
                   = subdomain_stats rows)
  /\ (forall rows, domain_level_stats (filter (has_key domain_key) rows)
                   = domain_level_stats rows).
Proof.
  assert (Hs : forall rows, subdomain_stats (filter (has_key subdomain_key) rows)
                            = subdomain_stats rows)
    by (intros rows; apply groupby_has_key).
  assert (Hd : forall rows, domain_level_stats (filter (has_key domain_key) rows)
                            = domain_level_stats rows)
    by (intros rows; apply groupby_has_key).
  repeat split; try assumption.
  - rewrite <- (Hs (recode (annotate long tax))).
    rewrite <- (Hs (recode (annotate (filter (classified tax) long) tax))).
    f_equal. apply unclassified_rows_have_no_key.
    intros r. unfold has_key.
    now rewrite (proj1 (recode_row_keys (mkAnnotated r None None))).
  - rewrite <- (Hd (recode (annotate long tax))).
    rewrite <- (Hd (recode (annotate (filter (classified tax) long) tax))).
    f_equal. apply unclassified_rows_have_no_key.
    intros r. unfold has_key.
    now rewrite (proj2 (recode_row_keys (mkAnnotated r None None))).
Qed.

(** ** Order statistics *)

Lemma insert_sorted_permutation (v : Z) (l : list Z) :
  Permutation (insert_sorted v l) (v :: l).
Proof.
  induction l as [|h t IH]; cbn [insert_sorted]; [reflexivity|].
  destruct (v <=? h); [reflexivity|].
  rewrite IH. apply perm_swap.
Qed.

Lemma sort_values_elements (l : list Z) : Permutation (sort_values l) l.
Proof.
  unfold sort_values. induction l as [|v l IH]; [reflexivity|].
  cbn [fold_right]. rewrite insert_sorted_permutation. now constructor.
Qed.

Lemma insert_sorted_sorted (v : Z) (l : list Z) :
  StronglySorted Z.le l -> StronglySorted Z.le (insert_sorted v l).
Proof.
  induction 1 as [|h t Hs IH Hh]; cbn [insert_sorted].
  - repeat constructor.
  - destruct (Z.leb_spec v h).
    + constructor; [now constructor|].
      constructor; [assumption|].
      rewrite Forall_forall in *. intros x Hx. specialize (Hh x Hx). lia.
    + constructor; [exact IH|].
      rewrite Forall_forall in *. intros x Hx.
      apply (Permutation_in _ (insert_sorted_permutation v t)) in Hx.
      destruct Hx as [<-|Hx]; [lia|now apply Hh].
Qed.

Lemma sort_values_sorted (l : list Z) : StronglySorted Z.le (sort_values l).
Proof.
  unfold sort_values. induction l as [|v l IH]; cbn [fold_right].
  - constructor.
  - now apply insert_sorted_sorted.
Qed.

Lemma sorted_nth_le (s : list Z) (i j : nat) :
  StronglySorted Z.le s -> (i <= j < List.length s)%nat ->
  nth i s 0 <= nth j s 0.
Proof.
  intros Hs. revert i j. induction Hs as [|h t Hs IH Hh]; intros i j Hij.
  - cbn in Hij. lia.
  - destruct i as [|i], j as [|j]; cbn [nth List.length] in *; try lia.
    + rewrite Forall_forall in Hh. apply Hh, nth_In. lia.
    + apply IH. lia.
Qed.

Lemma quantile_interpolate (q : Q) (x : list (option Z)) :
  quantile q x
  = match dropna x with
    | [] => None
    | l => Some (Qred (interpolate (sort_values l) q))
    end.
Proof.
  unfold quantile. destruct (dropna x); reflexivity.
Qed.

(** The rank of a quantile and what it interpolates between. *)
Lemma interpolate_rank (s : list Z) (q : Q) :
  (1 <= List.length s)%nat -> (0 <= q <= 1)%Q ->
  let pos := (q * inject_Z (Z.of_nat (List.length s - 1)))%Q in
  let lo := Z.to_nat (Qfloor pos) in
  let frac := (pos - inject_Z (Qfloor pos))%Q in
  (lo <= List.length s - 1)%nat
  /\ 0 <= Qfloor pos
  /\ (0 <= frac)%Q /\ (frac < 1)%Q.
Proof.
  intros Hn [Hq0 Hq1]. cbn zeta.
  set (m := Z.of_nat (List.length s - 1)).
  set (pos := (q * inject_Z m)%Q).
  assert (Hm : (0 <= inject_Z m)%Q).
  { change 0%Q with (inject_Z 0). rewrite <- Zle_Qle. unfold m. lia. }
  assert (Hp0 : (0 <= pos)%Q) by (unfold pos; nra).
  assert (Hp1 : (pos <= inject_Z m)%Q) by (unfold pos; nra).
  assert (Hf0 : 0 <= Qfloor pos).
  { apply (Qfloor_resp_le 0 pos) in Hp0. exact Hp0. }
  assert (Hf1 : Qfloor pos <= m).
  { apply Qfloor_resp_le in Hp1. now rewrite Qfloor_Z in Hp1. }
  pose proof (Qfloor_le pos) as Hle.
  pose proof (Qlt_floor pos) as Hlt.
  rewrite inject_Z_plus in Hlt. change (inject_Z 1) with 1%Q in Hlt.
  repeat split.
  - unfold m in Hf1. lia.
  - exact Hf0.
  - lra.
  - lra.
Qed.

Lemma interpolate_between (s : list Z) (q : Q) :
  StronglySorted Z.le s -> (1 <= List.length s)%nat -> (0 <= q <= 1)%Q ->
  let lo := Z.to_nat (Qfloor (q * inject_Z (Z.of_nat (List.length s - 1)))) in
  let hi := Nat.min (lo + 1) (List.length s - 1) in
  (inject_Z (nth lo s 0%Z) <= interpolate s q)%Q
  /\ (interpolate s q <= inject_Z (nth hi s 0%Z))%Q.
Proof.
  intros Hs Hn Hq. cbn zeta.
  destruct (interpolate_rank s q Hn Hq) as (Hlo & _ & Hf0 & Hf1).
  cbn zeta in Hlo, Hf0, Hf1.
  unfold interpolate.
  set (pos := (q * inject_Z (Z.of_nat (List.length s - 1)))%Q) in *.
  set (lo := Z.to_nat (Qfloor pos)) in *.
  set (hi := Nat.min (lo + 1) (List.length s - 1)).
  set (frac := (pos - inject_Z (Qfloor pos))%Q) in *.
  assert (Hab : (inject_Z (nth lo s 0%Z) <= inject_Z (nth hi s 0%Z))%Q).
  { rewrite <- Zle_Qle. apply sorted_nth_le; [exact Hs|]. unfold hi. lia. }
  split; nra.
Qed.

Lemma interpolate_monotone (s : list Z) (q1 q2 : Q) :
  StronglySorted Z.le s -> (1 <= List.length s)%nat ->
  (0 <= q1)%Q -> (q1 <= q2)%Q -> (q2 <= 1)%Q ->
  (interpolate s q1 <= interpolate s q2)%Q.
Proof.
  intros Hs Hn H0 H12 H1.
  assert (Hq1 : (0 <= q1 <= 1)%Q) by (split; lra).
  assert (Hq2 : (0 <= q2 <= 1)%Q) by (split; lra).
  destruct (interpolate_rank s q1 Hn Hq1) as (Hlo1 & Hfl1 & Hf10 & Hf11).
  destruct (interpolate_rank s q2 Hn Hq2) as (Hlo2 & Hfl2 & Hf20 & Hf21).
  destruct (interpolate_between s q1 Hs Hn Hq1) as (_ & Hup1).
  destruct (interpolate_between s q2 Hs Hn Hq2) as (Hdown2 & _).
  cbn zeta in *.
  set (m := inject_Z (Z.of_nat (List.length s - 1))) in *.
  assert (Hm : (0 <= m)%Q).
  { unfold m. change 0%Q with (inject_Z 0). rewrite <- Zle_Qle. lia. }
  assert (Hpos : (q1 * m <= q2 * m)%Q) by nra.
  pose proof (Qfloor_resp_le _ _ Hpos) as Hfl.
  destruct (Z.eq_dec (Qfloor (q1 * m)) (Qfloor (q2 * m))) as [Heq|Hne].
  - unfold interpolate. fold m. rewrite <- Heq.
    set (lo := Z.to_nat (Qfloor (q1 * m))) in *.
    set (hi := Nat.min (lo + 1) (List.length s - 1)).
    assert (Hab : (inject_Z (nth lo s 0%Z) <= inject_Z (nth hi s 0%Z))%Q).
    { rewrite <- Zle_Qle. apply sorted_nth_le; [exact Hs|]. unfold hi. lia. }
    nra.
  - assert (Hmid : (inject_Z (nth (Nat.min (Z.to_nat (Qfloor (q1 * m)) + 1)
                                           (List.length s - 1)) s 0%Z)
                    <= inject_Z (nth (Z.to_nat (Qfloor (q2 * m))) s 0%Z))%Q).
    { rewrite <- Zle_Qle. apply sorted_nth_le; [exact Hs|]. lia. }
    lra.
Qed.

(** X7: the grouped median of step 7 and the [quantile(0.5)] of step 9
    are the same number on every group. *)
Theorem median_is_half_quantile (x : list (option Z)) :
  median x = quantile (1 # 2) x.
Proof.
  rewrite quantile_interpolate. unfold median.
  destruct (dropna x) as [|v l]; [reflexivity|].
  set (s := sort_values (v :: l)).
  assert (Hn : (1 <= List.length s)%nat).
  { unfold s. rewrite (Permutation_length (sort_values_elements (v :: l))).
    cbn [List.length]. lia. }
  unfold interpolate.
  set (n := List.length s) in *.
  assert (Hfloor : Qfloor ((1 # 2) * inject_Z (Z.of_nat (n - 1)))
                   = Z.of_nat ((n - 1) / 2)).
  { unfold Qfloor, Qmult, inject_Z. cbn [Qnum Qden].
    rewrite Z.mul_1_l. change (Z.pos (2 * 1)) with (Z.of_nat 2).
    now rewrite <- Nat2Z.inj_div. }
  rewrite Hfloor, Nat2Z.id.
  destruct (Nat.even n) eqn:Heven.
  - apply Nat.even_spec in Heven. destruct Heven as (k & Hk).
    assert (Hk1 : (1 <= k)%nat) by lia.
    assert (Hd1 : ((n - 1) / 2 = k - 1)%nat).
    { symmetry. apply (Nat.div_unique (n - 1) 2 (k - 1) 1); lia. }
    assert (Hd2 : (n / 2 = k)%nat).
    { symmetry. apply (Nat.div_unique n 2 k 0); lia. }
    rewrite Hd1, Hd2.
    replace (Nat.min (k - 1 + 1) (n - 1)) with k by lia.
    f_equal. apply Qred_complete.
    assert (Hfrac : ((1 # 2) * inject_Z (Z.of_nat (n - 1))
                     - inject_Z (Z.of_nat (k - 1)) == 1 # 2)%Q).
    { replace (Z.of_nat (n - 1)) with (2 * Z.of_nat (k - 1) + 1) by lia.
      rewrite inject_Z_plus, inject_Z_mult.
      change (inject_Z 2) with 2%Q. change (inject_Z 1) with 1%Q. field. }
    rewrite Hfrac. field.
  - assert (Hodd : Nat.odd n = true) by (unfold Nat.odd; now rewrite Heven).
    apply Nat.odd_spec in Hodd. destruct Hodd as (k & Hk).
    assert (Hd1 : ((n - 1) / 2 = k)%nat).
    { symmetry. apply (Nat.div_unique (n - 1) 2 k 0); lia. }
    assert (Hd2 : (n / 2 = k)%nat).
    { symmetry. apply (Nat.div_unique n 2 k 1); lia. }
    rewrite Hd1, Hd2.
    f_equal. symmetry. apply Qred_of_int.
    assert (Hfrac : ((1 # 2) * inject_Z (Z.of_nat (n - 1))
                     - inject_Z (Z.of_nat k) == 0)%Q).
    { replace (Z.of_nat (n - 1)) with (2 * Z.of_nat k) by lia.
      rewrite inject_Z_mult. change (inject_Z 2) with 2%Q. field. }
    rewrite Hfrac. ring.
Qed.

Lemma sorted_values_in_range (l : list Z) (lo hi : Z) (i : nat) :
  (forall v, In v l -> lo <= v <= hi) ->
  (i < List.length (sort_values l))%nat ->
  lo <= nth i (sort_values l) 0 <= hi.
Proof.
  intros Hall Hi. apply Hall.
  apply (Permutation_in _ (sort_values_elements l)). now apply nth_In.
Qed.

Lemma interpolate_in_range (l : list Z) (lo hi : Z) (q : Q) :
  l <> [] ->
  (forall v, In v l -> lo <= v <= hi) ->
  (0 <= q <= 1)%Q ->
  (inject_Z lo <= interpolate (sort_values l) q)%Q
  /\ (interpolate (sort_values l) q <= inject_Z hi)%Q.
Proof.
  intros Hne Hall Hq.
  assert (Hn : (1 <= List.length (sort_values l))%nat).
  { rewrite (Permutation_length (sort_values_elements l)).
    destruct l; [congruence|cbn [List.length]; lia]. }
  destruct (interpolate_rank _ q Hn Hq) as (Hlo & _).
  destruct (interpolate_between _ q (sort_values_sorted l) Hn Hq) as (Hd & Hu).
  cbn zeta in *.
  set (i := Z.to_nat (Qfloor (q * inject_Z
                 (Z.of_nat (List.length (sort_values l) - 1))))) in *.
  set (j := Nat.min (i + 1) (List.length (sort_values l) - 1)) in *.
  assert (Hi : lo <= nth i (sort_values l) 0 <= hi)
    by (apply sorted_values_in_range; [exact Hall|lia]).
  assert (Hj : lo <= nth j (sort_values l) 0 <= hi)
    by (apply sorted_values_in_range; [exact Hall|unfold j; lia]).
  destruct Hi as [Hi _]. destruct Hj as [_ Hj].
  rewrite Zle_Qle in Hi, Hj. split; lra.
Qed.

Lemma total_bounds (l : list Z) (lo hi : Z) :
  (forall v, In v l -> lo <= v <= hi) ->
  lo * count l <= total l <= hi * count l.
Proof.
  unfold count, total. induction l as [|v l IH]; intros Hall.
  - cbn. lia.
  - cbn [fold_right List.length].
    specialize (Hall v (or_introl eq_refl)) as Hv.
    assert (IH' : lo * Z.of_nat (List.length l) <= fold_right Z.add 0 l
                  <= hi * Z.of_nat (List.length l))
      by (apply IH; intros w Hw; apply Hall; now right).
    lia.
Qed.

Lemma quantile_some (q : Q) (x : list (option Z)) (r : Q) :
  quantile q x = Some r ->
  dropna x <> [] /\ r = Qred (interpolate (sort_values (dropna x)) q).
Proof.
  rewrite quantile_interpolate.
  destruct (dropna x) as [|v l]; [discriminate|].
  intros H. split; [discriminate|congruence].
Qed.

Lemma mean_some (x : list (option Z)) (r : Q) :
  mean x = Some r ->
  dropna x <> []
  /\ r = Qred (inject_Z (total (dropna x)) / inject_Z (count (dropna x))).
Proof.
  unfold mean. destruct (dropna x) as [|v l]; [discriminate|].
  intros H. split; [discriminate|congruence].
Qed.

Lemma iqr_some (x : list (option Z)) (r : Q) :
  iqr x = Some r ->
  exists u v, quantile (3 # 4) x = Some u /\ quantile (1 # 4) x = Some v
              /\ r = Qred (u - v).
Proof.
  unfold iqr, qsub.
  destruct (quantile (3 # 4) x) as [u|]; [|discriminate].
  destruct (quantile (1 # 4) x) as [v|]; [|discriminate].
  intros H. exists u, v. repeat split. congruence.
Qed.

(** X8: every statistic of a group lies within the range of the group's
    scores. With the non-missing scores between [lo] and [hi], every
    quantile (for a rank between 0 and 1), the median and the mean lie
    between [lo] and [hi], and the IQR lies between 0 and [hi - lo]: it
    is never negative. *)
Theorem statistics_within_range (x : list (option Z)) (lo hi : Z) :
  (forall v, In v (dropna x) -> lo <= v <= hi) ->
  (forall q r, (0 <= q <= 1)%Q -> quantile q x = Some r ->
               (inject_Z lo <= r <= inject_Z hi)%Q)
  /\ (forall r, median x = Some r -> (inject_Z lo <= r <= inject_Z hi)%Q)
  /\ (forall r, mean x = Some r -> (inject_Z lo <= r <= inject_Z hi)%Q)
  /\ (forall r, iqr x = Some r -> (0 <= r <= inject_Z (hi - lo))%Q).
Proof.
  intros Hall.
  assert (Hquant : forall q r, (0 <= q <= 1)%Q -> quantile q x = Some r ->
                     (inject_Z lo <= r <= inject_Z hi)%Q).
  { intros q r Hq Hr. apply quantile_some in Hr. destruct Hr as [Hne ->].
    pose proof (Qred_correct (interpolate (sort_values (dropna x)) q)) as Hc.
    destruct (interpolate_in_range (dropna x) lo hi q Hne Hall Hq) as [Hd Hu].
    split; lra. }
  split; [exact Hquant|]. split; [|split].
  - intros r. rewrite median_is_half_quantile. apply Hquant. split; lra.
  - intros r Hr. apply mean_some in Hr. destruct Hr as [Hne ->].
    pose proof (Qred_correct (inject_Z (total (dropna x))
                              / inject_Z (count (dropna x)))) as Hred.
    destruct (total_bounds (dropna x) lo hi Hall) as [Hlo Hhi].
    assert (Hc : (0 < inject_Z (count (dropna x)))%Q).
    { change 0%Q with (inject_Z 0). rewrite <- Zlt_Qlt.
      unfold count. destruct (dropna x); [congruence|cbn [List.length]; lia]. }
    rewrite Zle_Qle, inject_Z_mult in Hlo, Hhi.
    assert (Hd : (inject_Z lo <= inject_Z (total (dropna x))
                                 / inject_Z (count (dropna x)))%Q)
      by (apply Qle_shift_div_l; [exact Hc|exact Hlo]).
    assert (Hu : (inject_Z (total (dropna x)) / inject_Z (count (dropna x))
                  <= inject_Z hi)%Q)
      by (apply Qle_shift_div_r; [exact Hc|exact Hhi]).
    split; lra.
  - intros r Hr. apply iqr_some in Hr. destruct Hr as (u & v & Hu & Hv & ->).
    pose proof (Qred_correct (u - v)) as Hred.
    assert (H3 : (0 <= 3 # 4 <= 1)%Q) by (split; lra).
    assert (H1 : (0 <= 1 # 4 <= 1)%Q) by (split; lra).
    pose proof (Hquant _ _ H3 Hu) as [_ Hu3].
    pose proof (Hquant _ _ H1 Hv) as [Hl1 _].
    apply quantile_some in Hu, Hv.
    destruct Hu as [Hne ->]. destruct Hv as [_ ->].
    pose proof (Qred_correct (interpolate (sort_values (dropna x)) (3 # 4))) as Hr3.
    pose proof (Qred_correct (interpolate (sort_values (dropna x)) (1 # 4))) as Hr1.
    assert (Hn : (1 <= List.length (sort_values (dropna x)))%nat).
    { rewrite (Permutation_length (sort_values_elements (dropna x))).
      destruct (dropna x); [congruence|cbn [List.length]; lia]. }
    assert (Hmono : (interpolate (sort_values (dropna x)) (1 # 4)
                     <= interpolate (sort_values (dropna x)) (3 # 4))%Q).
    { apply interpolate_monotone;
        [apply sort_values_sorted|exact Hn|lra|lra|lra]. }
    unfold Z.sub. rewrite inject_Z_plus, inject_Z_opp. split; lra.
Qed.

Lemma statistics_within_range_witness :
  (inject_Z 1 <= 11 # 2 <= inject_Z 10)%Q
  /\ (0 <= 5 # 2 <= inject_Z (10 - 1))%Q.
Proof.
  destruct (statistics_within_range [Some 3; None; Some 8] 1 10)
    as (_ & _ & Hmean & Hiqr).
  - intros v [<-|[<-|[]]]; lia.
  - split.
    + apply Hmean. reflexivity.
    + apply Hiqr. reflexivity.
Defined.

(** ** The score scale through the pipeline *)

Lemma in_dropna (x : list (option Z)) (v : Z) :
  In v (dropna x) <-> In (Some v) x.
Proof.
  induction x as [|[w|] x IH]; cbn [dropna In].
  - tauto.
  - rewrite IH. split; intros [H|H]; auto; left; congruence.
  - rewrite IH. split; [auto|]. intros [H|H]; [discriminate|exact H].
Qed.

Lemma melt_scores (df4 : Responses) (r : ResponseRecord) :
  In r (melt df4) ->
  exists c, In c (value_vars df4) /\ question_code r = fst c
            /\ In (score r) (snd c).
Proof.
  unfold melt. rewrite in_flat_map. intros (c & Hc & Hr).
  apply in_map_iff in Hr. destruct Hr as ([[e t] s] & <- & Hin).
  exists c. cbn. split; [exact Hc|]. split; [reflexivity|].
  now apply in_combine_r in Hin.
Qed.

Lemma recode_row_in_scale (a : AnnotatedResponse) :
  in_scale (score_of a) -> in_scale (score_of (recode_row a)).
Proof.
  unfold recode_row, in_scale.
  destruct (isin reverse_items (code_of a)); [|auto].
  intros H v Hv.
  change (score_of (set_score a (option_map (fun s => 11 - s) (score_of a))))
    with (option_map (fun s => 11 - s) (score_of a)) in Hv.
  destruct (score_of a) as [w|]; [|discriminate].
  cbn [option_map] in Hv. specialize (H w eq_refl).
  assert (v = 11 - w) by congruence. lia.
Qed.

Lemma group_in_scale (x : list (option Z)) :
  (forall s, In s x -> in_scale s) ->
  stats_in_scale (agg_subdomain x) /\ stats_in_scale (agg_domain x).
Proof.
  intros Hall.
  assert (Hv : forall v, In v (dropna x) -> 1 <= v <= 10).
  { intros v Hin. apply in_dropna in Hin. exact (Hall _ Hin v eq_refl). }
  destruct (statistics_within_range x 1 10 Hv) as (Hq & Hmed & Hmean & Hiqr).
  unfold stats_in_scale, agg_subdomain, agg_domain.
  cbn [median_score mean_score IQR_score].
  repeat split; try (apply Hmed; assumption); try (apply Hmean; assumption);
    try (apply Hiqr; assumption);
    try (apply (Hq (1 # 2)); [split; lra|assumption]).
Qed.

(** X9: the score scale is kept through the pipeline. When every
    response of the wide table is missing or between 1 and 10, every
    score of the long table is missing or between 1 and 10 (recoded or
    not), and in both statistics tables every median and mean lies
    between 1 and 10 and every IQR between 0 and 9. *)
Theorem pipeline_keeps_scale (df1 : list string) (df2 : list ItemRow)
    (df3 : list SubdomainRow) (df4 : Responses) (out : Outputs) :
  (forall c s, In c (value_vars df4) -> In s (snd c) -> in_scale s) ->
  main df1 df2 df3 df4 = Ok out ->
  (forall a, In a (df_long out) -> in_scale (score_of a))
  /\ (forall k st, In (k, st) (stats_df out) -> stats_in_scale st)
  /\ (forall k st, In (k, st) (domain_stats out) -> stats_in_scale st).
Proof.
  intros Hin Hmain. unfold main in Hmain.
  destruct (resolve df1 df2 df3) as [tax|e]; cbn [bind] in Hmain; [|discriminate].
  assert (Hout : out = mkOutputs (recode (annotate (melt df4) tax))
                         (subdomain_stats (recode (annotate (melt df4) tax)))
                         (domain_level_stats (recode (annotate (melt df4) tax))))
    by congruence.
  subst out. cbn [df_long stats_df domain_stats]. clear Hmain.
  set (rows := recode (annotate (melt df4) tax)).
  assert (Hrows : forall a, In a rows -> in_scale (score_of a)).
  { intros a Ha. unfold rows in Ha. rewrite recode_rows_annotated in Ha.
    apply in_map_iff in Ha. destruct Ha as (a0 & <- & Ha0).
    apply recode_row_in_scale.
    apply annotate_response in Ha0. apply melt_scores in Ha0.
    destruct Ha0 as (c & Hc & _ & Hs). exact (Hin c _ Hc Hs). }
  assert (Hgroup : forall (p : AnnotatedResponse -> bool) s,
             In s (map score_of (filter p rows)) -> in_scale s).
  { intros p s Hs. apply in_map_iff in Hs. destruct Hs as (a & <- & Ha).
    apply filter_In in Ha. apply Hrows. tauto. }
  split; [exact Hrows|]. split.
  - intros k st Hk. unfold subdomain_stats in Hk.
    apply (groupby_row _ subdomain_key_good_order) in Hk.
    destruct Hk as [-> _].
    apply group_in_scale. apply Hgroup.
  - intros k st Hk. unfold domain_level_stats in Hk.
    apply (groupby_row _ domain_key_good_order) in Hk.
    destruct Hk as [-> _].
    apply group_in_scale. apply Hgroup.
Qed.

Lemma pipeline_keeps_scale_witness :
  stats_in_scale (agg_subdomain [Some 1; Some 9]).
Proof.
  destruct (pipeline_keeps_scale
              ["ZT4"] [mkItem "ZT4" (Some 6)] [mkSubdomain (Some 6) (DInt 1)]
              (mkResponses [(1, "A"); (2, "A")] [("ZT4", [Some 10; Some 2])])
              (mkOutputs
                 (recode (annotate
                    (melt (mkResponses [(1, "A"); (2, "A")]
                                       [("ZT4", [Some 10; Some 2])]))
                    [mkTaxonomy "ZT4" (Some 6) 1]))
                 (subdomain_stats (recode (annotate
                    (melt (mkResponses [(1, "A"); (2, "A")]
                                       [("ZT4", [Some 10; Some 2])]))
                    [mkTaxonomy "ZT4" (Some 6) 1])))
                 (domain_level_stats (recode (annotate
                    (melt (mkResponses [(1, "A"); (2, "A")]
                                       [("ZT4", [Some 10; Some 2])]))
                    [mkTaxonomy "ZT4" (Some 6) 1])))))
    as (_ & Hstats & _).
  - intros c s [<-|[]] [<-|[<-|[]]] v Hv; injection Hv as <-; lia.
  - reflexivity.
  - apply (Hstats ("A", 1, 6)). cbn [stats_df]. left. reflexivity.
Defined.

(** ** Integer columns: printing and reading back *)

Lemma digits_acc_uint (d : Decimal.uint) :
  forall acc b,
    d <> Decimal.Nil \/ b = true ->
    digits_acc acc b (list_ascii_of_string (NilEmpty.string_of_uint d))
    = Some (uint_value acc d).
Proof.
  induction d; intros acc b Hb;
    cbn [NilEmpty.string_of_uint list_ascii_of_string uint_value];
    try (change (digits_acc acc b (?c :: ?r))
           with (digits_acc acc b (c :: r)));
    try (apply IHd; now right).
  destruct Hb as [Hb| ->]; [congruence|reflexivity].
Qed.

Lemma of_uint_acc_value (d : Decimal.uint) :
  forall p, Z.pos (Pos.of_uint_acc d p) = uint_value (Z.pos p) d.
Proof.
  induction d; intros p; cbn [Pos.of_uint_acc uint_value];
    try reflexivity; rewrite IHd; f_equal; lia.
Qed.

Lemma of_uint_value (d : Decimal.uint) :
  Z.of_N (Pos.of_uint d) = uint_value 0 d.
Proof.
  induction d; cbn [Pos.of_uint uint_value]; try reflexivity;
    try exact IHd; cbn [Z.of_N]; rewrite of_uint_acc_value; reflexivity.
Qed.

Lemma lstrip_head (cs : list ascii) :
  match cs with c :: _ => is_space c = false | [] => True end ->
  lstrip cs = cs.
Proof.
  destruct cs as [|c r]; [reflexivity|]. cbn [lstrip]. now intros ->.
Qed.

Lemma strip_no_space (cs : list ascii) :
  Forall (fun c => is_space c = false) cs -> strip cs = cs.
Proof.
  intros Hall. unfold strip.
  rewrite (lstrip_head cs).
  - rewrite (lstrip_head (rev cs)); [apply rev_involutive|].
    destruct (rev cs) as [|c r] eqn:Hrev; [exact I|].
    rewrite Forall_forall in Hall. apply Hall.
    apply in_rev. rewrite Hrev. now left.
  - destruct Hall; [exact I|assumption].
Qed.

Lemma no_comma_single (s : string) :
  Forall (fun c => Ascii.eqb c "," = false) (list_ascii_of_string s) ->
  split_comma s = [s].
Proof.
  induction s as [|c s IH]; cbn [list_ascii_of_string split_comma]; intros H.
  - reflexivity.
  - inversion H as [|? ? Hc Hs]; subst. rewrite Hc, (IH Hs). reflexivity.
Qed.

Lemma py_int_uint (d : Decimal.uint) :
  d <> Decimal.Nil ->
  py_int (NilEmpty.string_of_uint d) = Some (Z.of_N (Pos.of_uint d))
  /\ py_int (String "-" (NilEmpty.string_of_uint d))
     = Some (- Z.of_N (Pos.of_uint d)).
Proof.
  intros Hd.
  assert (Hsp : Forall (fun c => is_space c = false)
                  (list_ascii_of_string (NilEmpty.string_of_uint d))).
  { eapply Forall_impl; [|apply uint_chars_digits].
    intros c Hc. now apply digit_char_facts. }
  pose proof (digits_acc_uint d 0 false (or_introl Hd)) as Hdig.
  rewrite of_uint_value. unfold py_int. split.
  - rewrite (strip_no_space _ Hsp).
    destruct d; try congruence;
      cbn [NilEmpty.string_of_uint list_ascii_of_string] in *; exact Hdig.
  - cbn [list_ascii_of_string]. rewrite strip_no_space.
    + rewrite Hdig. reflexivity.
    + constructor; [reflexivity|exact Hsp].
Qed.

Lemma py_int_str_of_int (z : Z) : py_int (str_of_int z) = Some z.
Proof.
  unfold str_of_int. destruct z as [|p|p].
  - reflexivity.
  - cbn [Z.to_int NilZero.string_of_int]. unfold NilZero.string_of_uint.
    pose proof (DecimalPos.Unsigned.to_uint_nonnil p) as Hnn.
    pose proof (DecimalPos.Unsigned.of_to p) as Hof.
    destruct (py_int_uint (Pos.to_uint p) Hnn) as [H _].
    rewrite Hof in H. cbn [Z.of_N] in H.
    destruct (Pos.to_uint p); [congruence|exact H..].
  - cbn [Z.to_int NilZero.string_of_int]. unfold NilZero.string_of_uint.
    pose proof (DecimalPos.Unsigned.to_uint_nonnil p) as Hnn.
    pose proof (DecimalPos.Unsigned.of_to p) as Hof.
    destruct (py_int_uint (Pos.to_uint p) Hnn) as [_ H].
    rewrite Hof in H. cbn [Z.of_N Z.opp] in H.
    destruct (Pos.to_uint p); [congruence|exact H..].
Qed.

Lemma str_of_int_no_comma (z : Z) : split_comma (str_of_int z) = [str_of_int z].
Proof.
  apply no_comma_single. unfold str_of_int.
  assert (Hu : forall d, Forall (fun c => Ascii.eqb c "," = false)
                 (list_ascii_of_string (NilZero.string_of_uint d))).
  { intros d. unfold NilZero.string_of_uint.
    assert (Hd : Forall (fun c => Ascii.eqb c "," = false)
                   (list_ascii_of_string (NilEmpty.string_of_uint d))).
    { eapply Forall_impl; [|apply uint_chars_digits].
      intros c Hc. now apply digit_char_facts. }
    destruct d; try exact Hd. repeat constructor. }
  destruct (Z.to_int z) as [d|d]; cbn [NilZero.string_of_int].
  - apply Hu.
  - cbn [list_ascii_of_string]. constructor; [reflexivity|apply Hu].
Qed.

(** X10: printing an integer and reading it back gives the integer:
    [astype(str)] followed by [astype(int)] is the identity on every
    64-bit integer, and the printed text is a single token. *)
Theorem int_str_round_trip (z : Z) :
  int64_min <= z <= int64_max ->
  astype_int (str_of_int z) = Ok z
  /\ split_comma (str_of_int z) = [str_of_int z].
Proof.
  intros Hz. split; [|apply str_of_int_no_comma].
  unfold astype_int. rewrite py_int_str_of_int.
  destruct (Z.leb_spec int64_min z), (Z.leb_spec z int64_max);
    cbn [andb]; try reflexivity; lia.
Qed.

Lemma int_str_round_trip_witness :
  astype_int (str_of_int (-1204)) = Ok (-1204).
Proof.
  apply (int_str_round_trip (-1204)). vm_compute. split; discriminate.
Defined.

Lemma flat_map_single_in {A B : Type} (f : A -> list B) (g : A -> B) (l : list A) :
  (forall x, In x l -> f x = [g x]) -> flat_map f l = map g l.
Proof.
  induction l as [|a l IH]; intros H; [reflexivity|].
  cbn [flat_map map]. rewrite (H a (or_introl eq_refl)), IH; [reflexivity|].
  intros x Hx. apply H. now right.
Qed.

(** X11: a subdomain table whose domain column holds one integer per
    row. With unique item codes and subdomain ids, every domain id a
    64-bit integer and every question resolving to an entry, the
    resolver succeeds with exactly one taxonomy row per row of the
    mapping relation, in the same order, carrying the entry's integer. *)
Theorem integer_domain_column (df1 : list string) (df2 : list ItemRow)
    (df3 : list SubdomainRow) :
  NoDup (map code df2) ->
  NoDup (map sd_id df3) ->
  (forall d, In d df3 ->
     exists z, sd_domainId d = DInt z /\ int64_min <= z <= int64_max) ->
  (forall q, In q df1 ->
     domain_entry df3 (resolved_subdomain df2 q) <> None) ->
  resolve df1 df2 df3
  = Ok (map (fun q => mkTaxonomy q (resolved_subdomain df2 q)
                        (cell_int (entry_cell df3 (resolved_subdomain df2 q))))
            df1).
Proof.
  intros Hnd2 Hnd3 Hint Hall. unfold resolve.
  rewrite (subdomain_table_unique df1 df2 Hnd2).
  rewrite (merge_subdomains_unique _ df3 Hnd3).
  rewrite !map_map. cbn [fst snd].
  set (cell := fun q => entry_cell df3 (resolved_subdomain df2 q)).
  assert (Hcell : forall q, In q df1 ->
            exists z, cell q = DInt z /\ int64_min <= z <= int64_max).
  { intros q Hq. specialize (Hall q Hq). unfold cell, entry_cell.
    destruct (domain_entry df3 (resolved_subdomain df2 q)) as [d|] eqn:Hd;
      [|congruence].
    apply Hint. unfold domain_entry in Hd. now apply find_some in Hd. }
  set (dt := merged_dtype (col_dtype (map sd_domainId df3)) (map cell df1)).
  assert (Hdt : forall z, cell_text dt (DInt z) = str_of_int z).
  { intros z. unfold dt, merged_dtype.
    destruct (col_dtype (map sd_domainId df3)) eqn:Hc; try reflexivity.
    - destruct (existsb is_nan (map cell df1)) eqn:Hex; [|reflexivity].
      apply existsb_exists in Hex. destruct Hex as (v & Hv & Hnan).
      apply in_map_iff in Hv. destruct Hv as (q & <- & Hq).
      destruct (Hcell q Hq) as (z' & Hz' & _). rewrite Hz' in Hnan.
      discriminate.
    - exfalso. unfold col_dtype in Hc.
      destruct (map sd_domainId df3) as [|c col] eqn:Hcol; [discriminate|].
      destruct (forallb is_int (c :: col)) eqn:Hf; [discriminate|].
      assert (Ht : forallb is_int (c :: col) = true).
      { apply forallb_forall. intros v Hv. rewrite <- Hcol in Hv.
        apply in_map_iff in Hv. destruct Hv as (d & <- & Hd).
        destruct (Hint d Hd) as (z' & -> & _). reflexivity. }
      congruence. }
  unfold explode_domains. rewrite flat_map_map. cbn [fst snd].
  rewrite (flat_map_single_in _
             (fun q => (q, resolved_subdomain df2 q,
                        str_of_int (cell_int (cell q))))).
  - rewrite (mapM_succeeds to_taxonomy
               (fun r => mkTaxonomy (fst (fst r)) (snd (fst r))
                                    (int_value (snd r)))).
    + rewrite map_map. f_equal. apply map_ext_in. intros q Hq.
      cbn [fst snd]. f_equal.
      change (entry_cell df3 (resolved_subdomain df2 q)) with (cell q).
      destruct (Hcell q Hq) as (z & Hz & Hrange). rewrite Hz. cbn [cell_int].
      unfold int_value.
      now rewrite (proj1 (int_str_round_trip z Hrange)).
    + intros r Hr. apply in_map_iff in Hr. destruct Hr as (q & <- & Hq).
      destruct (Hcell q Hq) as (z & Hz & Hrange).
      unfold to_taxonomy, int_value. cbn [fst snd].
      rewrite Hz. cbn [cell_int].
      now rewrite (proj1 (int_str_round_trip z Hrange)).
  - intros q Hq. destruct (Hcell q Hq) as (z & Hz & _).
    change (entry_cell df3 (resolved_subdomain df2 q)) with (cell q).
    rewrite Hz, Hdt, str_of_int_no_comma. reflexivity.
Qed.

Lemma integer_domain_column_witness :
  resolve ["ZT117"; "ZT1"; "ZT117"] [mkItem "ZT1" (Some 4)]
          [mkSubdomain (Some 4) (DInt 2); mkSubdomain (Some 7) (DInt 1)]
  = Ok [mkTaxonomy "ZT117" (Some 7) 1; mkTaxonomy "ZT1" (Some 4) 2;
        mkTaxonomy "ZT117" (Some 7) 1].
Proof.
  apply (integer_domain_column
           ["ZT117"; "ZT1"; "ZT117"] [mkItem "ZT1" (Some 4)]
           [mkSubdomain (Some 4) (DInt 2); mkSubdomain (Some 7) (DInt 1)]).
  - repeat constructor; simpl; intuition discriminate.
  - repeat constructor; simpl; intuition discriminate.
  - intros d [<-|[<-|[]]]; eexists; (split; [reflexivity|]);
      vm_compute; split; discriminate.
  - intros q [<-|[<-|[<-|[]]]]; discriminate.
Defined.

(** ** Integer columns with a gap *)

Lemma lstrip_in (cs : list ascii) (c : ascii) :
  In c cs -> is_space c = false -> In c (lstrip cs).
Proof.
  induction cs as [|a cs IH]; intros Hin Hc; [destruct Hin|].
  cbn [lstrip]. destruct (is_space a) eqn:Ha; [|exact Hin].
  destruct Hin as [->|Hin]; [congruence|auto].
Qed.

Lemma strip_in (cs : list ascii) (c : ascii) :
  In c cs -> is_space c = false -> In c (strip cs).
Proof.
  intros Hin Hc. unfold strip.
  apply -> in_rev. apply lstrip_in; [|exact Hc].
  apply -> in_rev. now apply lstrip_in.
Qed.

Lemma digits_acc_bad_char (cs : list ascii) (c : ascii) :
  In c cs -> digit_val c = None -> Ascii.eqb c "_" = false ->
  forall acc b, digits_acc acc b cs = None.
Proof.
  intros Hin Hd Hu. induction cs as [|a cs IH]; [destruct Hin|].
  intros acc b. cbn [digits_acc].
  destruct Hin as [->|Hin].
  - rewrite Hd, Hu. reflexivity.
  - destruct (digit_val a); [now apply IH|].
    destruct (Ascii.eqb a "_" && b); [now apply IH|reflexivity].
Qed.

Lemma py_int_cases (s : string) (c : ascii) (r : list ascii) :
  strip (list_ascii_of_string s) = c :: r ->
  py_int s
  = if Ascii.eqb c "+" then digits_acc 0 false r
    else if Ascii.eqb c "-" then option_map Z.opp (digits_acc 0 false r)
    else digits_acc 0 false (c :: r).
Proof.
  unfold py_int. intros ->.
  destruct c as [[] [] [] [] [] [] [] []]; reflexivity.
Qed.

(** A text with a decimal point is not an integer literal. *)
Lemma py_int_decimal_point (s : string) :
  In "."%char (list_ascii_of_string s) -> py_int s = None.
Proof.
  intros Hin.
  assert (Hs : In "."%char (strip (list_ascii_of_string s)))
    by (apply strip_in; [exact Hin|reflexivity]).
  destruct (strip (list_ascii_of_string s)) as [|c r] eqn:Hstrip;
    [destruct Hs|].
  rewrite (py_int_cases s c r Hstrip).
  destruct (Ascii.eqb c "+") eqn:Hplus.
  - apply Ascii.eqb_eq in Hplus. subst c.
    destruct Hs as [Hs|Hs]; [discriminate|].
    now apply (digits_acc_bad_char r ".").
  - destruct (Ascii.eqb c "-") eqn:Hminus.
    + apply Ascii.eqb_eq in Hminus. subst c.
      destruct Hs as [Hs|Hs]; [discriminate|].
      now rewrite (digits_acc_bad_char r ".").
    + now apply (digits_acc_bad_char (c :: r) ".").
Qed.

Lemma float_text_fails (z : Z) :
  split_comma (str_of_int z ++ ".0") = [str_of_int z ++ ".0"]
  /\ py_int (str_of_int z ++ ".0") = None.
Proof.
  split.
  - apply no_comma_single. rewrite list_ascii_app. apply Forall_app. split.
    + pose proof (str_of_int_no_comma z) as H.
      assert (Hc : forall tok, In tok (split_comma (str_of_int z)) ->
                               comma_count tok = 0%nat)
        by apply split_comma_join.
      specialize (Hc (str_of_int z)). rewrite H in Hc.
      specialize (Hc (or_introl eq_refl)).
      revert Hc. generalize (str_of_int z). clear.
      induction s as [|c s IH]; cbn [comma_count list_ascii_of_string];
        intros Hc; [constructor|].
      destruct (Ascii.eqb c ",") eqn:E; [discriminate|].
      constructor; auto.
    + repeat constructor.
  - apply py_int_decimal_point. rewrite list_ascii_app.
    apply in_or_app. right. cbn. auto.
Qed.

(** X12: an integer-only domain column with a gap. When the domain
    column of the subdomain table holds only integers, each of absolute
    value at most 2^53 so that the float column holds it exactly and
    prints it in positional notation, and some question resolves to no
    entry, the merge turns the column into floats, and the conversion
    stops at the first row of the merged table with that row's text
    ([4.0] for the integer 4, or [nan] for a gap), whether or not that
    row is the one without an entry. *)
Theorem integer_column_with_gap (df1 : list string) (df2 : list ItemRow)
    (df3 : list SubdomainRow) (q : string) (s : option Z) :
  col_dtype (map sd_domainId df3) = Int64 ->
  (forall d z, In d df3 -> sd_domainId d = DInt z -> float64_exact z) ->
  In (q, s) (subdomain_table df1 df2) ->
  (forall d, In d df3 -> key_eqb s (sd_id d) = false) ->
  exists q0 s0 v0 rest,
    merge_subdomains (subdomain_table df1 df2) df3 = (q0, s0, v0) :: rest
    /\ resolve df1 df2 df3 = Err (ValueError (cell_text Float64 v0))
    /\ ((v0 = DNaN /\ cell_text Float64 v0 = "nan")
        \/ (exists z, v0 = DInt z /\ float64_exact z
                      /\ cell_text Float64 v0 = str_of_int z ++ ".0")).
Proof.
  intros Hcol Hexact Hqs Hno. unfold resolve.
  set (merged := merge_subdomains (subdomain_table df1 df2) df3).
  assert (Hgap : In (q, s, DNaN) merged).
  { unfold merged, merge_subdomains. apply in_left_merge.
    exists (q, s). split; [exact Hqs|]. right. split; [|reflexivity].
    intros d Hd. cbn [snd]. now apply Hno. }
  assert (Hdt : merged_dtype (col_dtype (map sd_domainId df3)) (map snd merged)
                = Float64).
  { rewrite Hcol. unfold merged_dtype.
    assert (Hex : existsb is_nan (map snd merged) = true).
    { apply existsb_exists. exists DNaN. split; [|reflexivity].
      apply in_map_iff. exists (q, s, DNaN). auto. }
    now rewrite Hex. }
  rewrite Hdt.
  assert (Hcells : forall r, In r merged ->
            snd r = DNaN \/ exists z, snd r = DInt z /\ float64_exact z).
  { intros r Hr. unfold merged, merge_subdomains in Hr.
    apply in_left_merge in Hr.
    destruct Hr as (l & _ & [(d & Hd & _ & ->)|(_ & ->)]); cbn [snd];
      [|now left].
    pose proof (int_column_has_no_gap _ (sd_domainId d) Hcol
                  (in_map sd_domainId df3 d Hd)) as Hn.
    pose proof (Hexact d) as Hb.
    unfold col_dtype in Hcol.
    destruct (map sd_domainId df3) as [|c col] eqn:Hmap; [discriminate|].
    destruct (forallb is_int (c :: col)) eqn:Hall.
    - rewrite forallb_forall in Hall.
      assert (Hi : is_int (sd_domainId d) = true).
      { apply Hall. rewrite <- Hmap. now apply in_map. }
      destruct (sd_domainId d) as [z| |]; try discriminate. right.
      exists z. split; [reflexivity|]. now apply Hb.
    - destruct (existsb is_str (c :: col)); discriminate. }
  destruct merged as [|[[q0 s0] v0] rest] eqn:Hm; [destruct Hgap|].
  exists q0, s0, v0, rest. split; [reflexivity|].
  assert (Htext : split_comma (cell_text Float64 v0) = [cell_text Float64 v0]
                  /\ py_int (cell_text Float64 v0) = None).
  { destruct (Hcells (q0, s0, v0) (or_introl eq_refl)) as [Hv|(z & Hv & _)];
      cbn [snd] in Hv; subst v0.
    - split; reflexivity.
    - cbn [cell_text]. apply float_text_fails. }
  destruct Htext as [Hsplit Hbad].
  split.
  - unfold explode_domains. cbn [flat_map fst snd]. rewrite Hsplit.
    cbn [map app mapM]. unfold to_taxonomy at 1, astype_int. cbn [fst snd].
    rewrite Hbad. reflexivity.
  - destruct (Hcells (q0, s0, v0) (or_introl eq_refl)) as [Hv|(z & Hv & Hz)];
      cbn [snd] in Hv; subst v0.
    + left. split; reflexivity.
    + right. exists z. repeat split; assumption || reflexivity.
Qed.

Lemma integer_column_with_gap_witness :
  exists q0 s0 v0 rest,
    merge_subdomains
      (subdomain_table ["ZT1"; "ZT9"] [mkItem "ZT1" (Some 4)])
      [mkSubdomain (Some 4) (DInt 1)]
    = (q0, s0, v0) :: rest
    /\ resolve ["ZT1"; "ZT9"] [mkItem "ZT1" (Some 4)]
               [mkSubdomain (Some 4) (DInt 1)]
       = Err (ValueError "1.0").
Proof.
  destruct (integer_column_with_gap
              ["ZT1"; "ZT9"] [mkItem "ZT1" (Some 4)]
              [mkSubdomain (Some 4) (DInt 1)] "ZT9" None)
    as (q0 & s0 & v0 & rest & Hm & Hr & _).
  - reflexivity.
  - intros d z [<-|[]] Hz. injection Hz as <-. vm_compute. discriminate.
  - simpl. auto.
  - intros d [<-|[]]. reflexivity.
  - exists q0, s0, v0, rest. split; [exact Hm|].
    vm_compute in Hm. injection Hm as _ _ <- _. exact Hr.
Defined.

(** * The front end *)


(** ** The table behind the first radar chart *)

Lemma reindex_own_keys {V : Type} (table : list (Z * V)) (missing : V) :
  NoDup (map fst table) ->
  reindex (map fst table) table missing = table.
Proof.
  unfold reindex. induction table as [|[k v] t IH]; intros Hnd; [reflexivity|].
  cbn [map fst] in Hnd. apply NoDup_cons_iff in Hnd. destruct Hnd as [Hk Hnd].
  cbn [map fst find]. rewrite Z.eqb_refl. cbn [snd]. f_equal.
  rewrite <- (IH Hnd) at 2. apply map_ext_in. intros d Hd.
  cbn [find fst]. destruct (Z.eqb_spec d k) as [->|_]; [contradiction|reflexivity].
Qed.

Lemma teams_all (df_long : list AnnotatedResponse) (a : AnnotatedResponse) :
  In a df_long -> isin (teams df_long) (team (response a)) = true.
Proof.
  intros Ha. unfold isin. apply existsb_exists.
  exists (team (response a)). split; [|apply String.eqb_refl].
  unfold teams. apply (in_group_keys _ string_good_order).
  apply in_map_iff. exists a. auto.
Qed.

Lemma select_all_teams (df_long : list AnnotatedResponse) :
  select_teams (teams df_long) df_long = df_long.
Proof.
  unfold select_teams.
  rewrite <- (filter_ext_in (fun _ => true)).
  - induction df_long as [|a l IH]; [reflexivity|].
    cbn [filter]. now rewrite IH.
  - intros a Ha. symmetry. now apply teams_all.
Qed.

(** X13: the table behind the first radar chart. The grouped table has
    exactly the domains of the axes as its keys, so [reindex(domains)]
    changes nothing and adds no row of missing values; every axis domain
    occurs in some selected row; and with the default selection (all
    teams) no row of the long table is filtered out. *)
Theorem domain_agg_complete (df_long : list AnnotatedResponse)
    (selected_teams : list string) :
  let df := select_teams selected_teams df_long in
  domain_agg df = groupby Z.compare domainId score_of median_iqr df
  /\ map fst (domain_agg df) = domains df
  /\ NoDup (domains df)
  /\ (forall d, In d (domains df) <->
                exists a, In a df_long
                  /\ isin selected_teams (team (response a)) = true
                  /\ domainId a = Some d)
  /\ select_teams (teams df_long) df_long = df_long.
Proof.
  cbn zeta. set (df := select_teams selected_teams df_long).
  assert (Hkeys : map fst (groupby Z.compare domainId score_of median_iqr df)
                  = domains df) by apply groupby_keys.
  assert (Hnd : NoDup (domains df)).
  { apply (strictly_sorted_NoDup Z.compare _ Z_good_order).
    apply (group_keys_sorted _ Z_good_order). }
  assert (Hagg : domain_agg df
                 = groupby Z.compare domainId score_of median_iqr df).
  { unfold domain_agg. rewrite <- Hkeys. apply reindex_own_keys.
    now rewrite Hkeys. }
  split; [exact Hagg|]. split; [now rewrite Hagg|]. split; [exact Hnd|].
  split.
  - intros d. unfold domains.
    rewrite (in_group_keys _ Z_good_order), in_keys_of.
    unfold df, select_teams. split.
    + intros (a & Ha & Hd). apply filter_In in Ha. exists a. tauto.
    + intros (a & Ha & Ht & Hd). exists a. split; [|exact Hd].
      apply filter_In. auto.
  - apply select_all_teams.
Qed.

(** ** Errors and outlines of the first radar chart *)

Lemma label_get_domain_found (domain_labels : list (Z * string)) (d : Z) :
  In d (map fst domain_labels) ->
  exists name, label_get_domain domain_labels d = Done name.
Proof.
  induction domain_labels as [|[k name] rest IH]; intros Hin; [destruct Hin|].
  cbn [label_get_domain]. destruct (Z.eqb_spec d k) as [->|Hne]; [eauto|].
  apply IH. destruct Hin as [Hin|Hin]; [cbn in Hin; congruence|exact Hin].
Qed.

Lemma label_get_domain_missing (domain_labels : list (Z * string)) (d : Z) :
  ~ In d (map fst domain_labels) ->
  label_get_domain domain_labels d = Raised (KeyError d).
Proof.
  induction domain_labels as [|[k name] rest IH]; intros Hin; [reflexivity|].
  cbn [label_get_domain]. destruct (Z.eqb_spec d k) as [->|Hne].
  - exfalso. apply Hin. now left.
  - apply IH. intros H. apply Hin. now right.
Qed.

Lemma labels_for_found (domain_labels : list (Z * string)) (ds : list Z) :
  (forall d, In d ds -> In d (map fst domain_labels)) ->
  exists names, labels_for domain_labels ds = Done names
                /\ List.length names = List.length ds.
Proof.
  induction ds as [|d ds IH]; intros Hall.
  - exists []. split; reflexivity.
  - destruct (label_get_domain_found domain_labels d) as (name & Hname);
      [apply Hall; now left|].
    destruct IH as (names & Hnames & Hlen); [intros x Hx; apply Hall; now right|].
    exists (name :: names). cbn [labels_for]. rewrite Hname, Hnames.
    cbn [and_then List.length]. now rewrite Hlen.
Qed.

Lemma labels_for_missing (domain_labels : list (Z * string))
    (pre post : list Z) (d : Z) :
  (forall x, In x pre -> In x (map fst domain_labels)) ->
  ~ In d (map fst domain_labels) ->
  labels_for domain_labels (pre ++ d :: post) = Raised (KeyError d).
Proof.
  intros Hpre Hd. induction pre as [|x pre IH]; cbn [app labels_for].
  - now rewrite (label_get_domain_missing _ _ Hd).
  - destruct (label_get_domain_found domain_labels x) as (name & ->);
      [apply Hpre; now left|].
    cbn [and_then]. rewrite IH by (intros y Hy; apply Hpre; now right).
    reflexivity.
Qed.

(** X14: when the first radar chart cannot be drawn. With no domain on
    the axes, which is what an empty team selection gives, the script
    stops with an index error at the first outline; with a domain that
    has no label it stops with a key error naming the smallest such
    domain. *)
Theorem domain_radar_errors (df_long : list AnnotatedResponse)
    (selected_teams : list string) (domain_labels : list (Z * string)) :
  let df := select_teams selected_teams df_long in
  (selected_teams = [] -> domains df = [])
  /\ (domains df = [] ->
      domain_radar df_long selected_teams domain_labels = Raised IndexError)
  /\ (forall pre d post,
        domains df = (pre ++ d :: post)%list ->
        (forall x, In x pre -> In x (map fst domain_labels)) ->
        ~ In d (map fst domain_labels) ->
        domain_radar df_long selected_teams domain_labels
        = Raised (KeyError d)).
Proof.
  cbn zeta. split; [|split].
  - intros ->. unfold select_teams. cbn [isin existsb].
    induction df_long as [|a l IH]; [reflexivity|exact IH].
  - intros Hd. unfold domain_radar. rewrite Hd. reflexivity.
  - intros pre d post Hd Hpre Hmiss. unfold domain_radar.
    rewrite Hd, (labels_for_missing _ _ _ _ Hpre Hmiss). reflexivity.
Qed.

Lemma domain_radar_errors_witness :
  domain_radar
    [mkAnnotated (mkResponse 1 "A" "ZT1" (Some 4)) (Some 4) (Some 1);
     mkAnnotated (mkResponse 1 "A" "ZT2" (Some 6)) (Some 5) (Some 2)]
    ["A"] [(1, "een")]
  = Raised (KeyError 2)
  /\ domain_radar
       [mkAnnotated (mkResponse 1 "A" "ZT1" (Some 4)) (Some 4) (Some 1)]
       [] [(1, "een")]
     = Raised IndexError.
Proof.
  split.
  - apply (proj2 (proj2 (domain_radar_errors _ ["A"] [(1, "een")])) [1] 2 []).
    + reflexivity.
    + intros x [<-|[]]. simpl. auto.
    + simpl. intuition discriminate.
  - apply (proj1 (proj2 (domain_radar_errors _ [] [(1, "een")]))).
    now apply (proj1 (domain_radar_errors _ [] [(1, "een")])).
Defined.

Lemma close_loop_done {A : Type} (body : list A) (v : A) (rest : list A) :
  close_loop body (v :: rest) = Done (body ++ [v])%list.
Proof. reflexivity. Qed.

Lemma series_lengths (a b : list (option Q)) :
  List.length a = List.length b ->
  List.length (series_sub a b) = List.length a
  /\ List.length (series_add a b) = List.length a.
Proof.
  intros H. unfold series_sub, series_add.
  rewrite !length_map, length_combine, <- H, Nat.min_id. auto.
Qed.

Lemma clip0_some_nonnegative (x : option Q) (v : Q) :
  clip0 x = Some v -> (0 <= v)%Q.
Proof.
  destruct x as [q|]; cbn [clip0 option_map]; [|discriminate].
  destruct (Qle_bool 0 q) eqn:E; intros H; injection H as <-.
  - now apply Qle_bool_iff.
  - apply Qle_refl.
Qed.

Lemma clip_lower0_nth (s : list (option Q)) (i : nat) :
  nth i (clip_lower0 s) None = clip0 (nth i s None).
Proof.
  unfold clip_lower0. change (@None Q) with (clip0 None) at 1.
  apply (map_nth clip0).
Qed.

Lemma in_clip_lower0_nonnegative (s : list (option Q)) (v : Q) :
  In (Some v) (clip_lower0 s) -> (0 <= v)%Q.
Proof.
  unfold clip_lower0. intros H. apply in_map_iff in H.
  destruct H as (x & Hx & _). now apply (clip0_some_nonnegative x).
Qed.

(** X15: the outlines of the first radar chart. With at least one
    domain on the axes and a label for each, the script produces five
    sequences of one more element than there are domains. The axis
    names, the labels and the centre line end with their first element.
    The lower outline is the series centre minus spread with every
    value clipped at zero, followed by the first value of that series
    as it is, not clipped; the upper outline is built in the same way
    from centre plus spread. So every point of the two outlines except
    the closing one is the clipped value of its domain and is not
    negative, the closing point is the first value before clipping,
    and the first point is the clipped closing point. *)
Theorem domain_radar_outlines (df_long : list AnnotatedResponse)
    (selected_teams : list string) (domain_labels : list (Z * string)) :
  let df := select_teams selected_teams df_long in
  let center := map (fun r => fst (snd r)) (domain_agg df) in
  let spread := map (fun r => snd (snd r)) (domain_agg df) in
  let lower := series_sub center spread in
  let upper := series_add center spread in
  domains df <> [] ->
  (forall d, In d (domains df) -> In d (map fst domain_labels)) ->
  exists r,
    domain_radar df_long selected_teams domain_labels = Done r
    /\ List.length (theta_loop r) = S (List.length (domains df))
    /\ List.length (r_lower_loop r) = S (List.length (domains df))
    /\ List.length (r_upper_loop r) = S (List.length (domains df))
    /\ List.length (r_center_loop r) = S (List.length (domains df))
    /\ List.length (labels_dom_loop r) = S (List.length (domains df))
    /\ last (theta_loop r) "" = hd "" (theta_loop r)
    /\ last (labels_dom_loop r) "" = hd "" (labels_dom_loop r)
    /\ last (r_center_loop r) None = hd None (r_center_loop r)
    /\ hd None (r_lower_loop r) = clip0 (last (r_lower_loop r) None)
    /\ hd None (r_upper_loop r) = clip0 (last (r_upper_loop r) None)
    /\ r_lower_loop r = (clip_lower0 lower ++ [hd None lower])%list
    /\ r_upper_loop r = (clip_lower0 upper ++ [hd None upper])%list
    /\ r_center_loop r = (center ++ [hd None center])%list
    /\ (forall i, (i < List.length (domains df))%nat ->
          nth i (r_lower_loop r) None = clip0 (nth i lower None)
          /\ nth i (r_upper_loop r) None = clip0 (nth i upper None))
    /\ (forall v, In (Some v) (removelast (r_lower_loop r)) -> (0 <= v)%Q)
    /\ (forall v, In (Some v) (removelast (r_upper_loop r)) -> (0 <= v)%Q)
    /\ last (r_lower_loop r) None = hd None lower
    /\ last (r_upper_loop r) None = hd None upper.
Proof.
  cbn zeta. intros Hne Hlabels. unfold domain_radar.
  set (df := select_teams selected_teams df_long) in *.
  destruct (labels_for_found domain_labels (domains df) Hlabels)
    as (names & -> & Hnames).
  cbn [and_then].
  pose proof (proj1 (proj2 (domain_agg_complete df_long selected_teams))) as Hkeys.
  cbn zeta in Hkeys. fold df in Hkeys.
  set (agg := domain_agg df) in *.
  set (center := map (fun r => fst (snd r)) agg).
  set (spread := map (fun r => snd (snd r)) agg).
  assert (Hlen : List.length agg = List.length (domains df))
    by (rewrite <- Hkeys; now rewrite length_map).
  assert (Hc : List.length center = List.length (domains df))
    by (unfold center; now rewrite length_map).
  assert (Hs : List.length spread = List.length center)
    by (unfold center, spread; now rewrite !length_map).
  destruct (series_lengths center spread (eq_sym Hs)) as [Hsub Hadd].
  set (theta := map (theta_name (domain_column_dtype df_long)) (domains df)).
  assert (Ht : List.length theta = List.length (domains df))
    by (unfold theta; now rewrite length_map).
  set (lower := series_sub center spread) in *.
  set (upper := series_add center spread) in *.
  assert (Hn : (1 <= List.length (domains df))%nat)
    by (destruct (domains df); [congruence|cbn [List.length]; lia]).
  assert (Hcl : List.length (clip_lower0 lower) = List.length (domains df))
    by (unfold clip_lower0; rewrite length_map; lia).
  assert (Hcu : List.length (clip_lower0 upper) = List.length (domains df))
    by (unfold clip_lower0; rewrite length_map; lia).
  destruct theta as [|t0 theta'] eqn:Etheta; [cbn in Ht; lia|].
  destruct lower as [|l0 lower'] eqn:Elower; [cbn in Hsub; lia|].
  destruct upper as [|u0 upper'] eqn:Eupper; [cbn in Hadd; lia|].
  destruct center as [|c0 center'] eqn:Ecenter; [cbn in Hc; lia|].
  destruct names as [|n0 names'] eqn:Enames; [cbn in Hnames; lia|].
  rewrite !close_loop_done. cbn [and_then].
  eexists. split; [reflexivity|].
  cbn [theta_loop r_lower_loop r_upper_loop r_center_loop labels_dom_loop].
  rewrite !last_last, !removelast_last.
  rewrite !length_app, Hcl, Hcu. cbn [hd].
  split; [cbn [List.length] in *; lia|].
  split; [cbn [List.length]; lia|].
  split; [cbn [List.length]; lia|].
  split; [cbn [List.length] in *; lia|].
  split; [cbn [List.length] in *; lia|].
  split; [reflexivity|]. split; [reflexivity|]. split; [reflexivity|].
  split; [reflexivity|]. split; [reflexivity|].
  split; [reflexivity|]. split; [reflexivity|]. split; [reflexivity|].
  split.
  { intros i Hi.
    rewrite !app_nth1 by lia. rewrite !clip_lower0_nth. split; reflexivity. }
  split; [intros v; apply in_clip_lower0_nonnegative|].
  split; [intros v; apply in_clip_lower0_nonnegative|].
  split; reflexivity.
Qed.

Lemma domain_radar_outlines_witness :
  exists r,
    domain_radar
      [mkAnnotated (mkResponse 1 "A" "ZT1" (Some 1)) (Some 4) (Some 2);
       mkAnnotated (mkResponse 2 "A" "ZT1" (Some 10)) (Some 4) (Some 2);
       mkAnnotated (mkResponse 3 "A" "ZT1" (Some 10)) (Some 4) (Some 2);
       mkAnnotated (mkResponse 4 "A" "ZT1" (Some 1)) (Some 4) (Some 2)]
      ["A"] [(2, "twee")]
    = Done r
    /\ r_lower_loop r = [Some 0%Q; Some (-7 # 2)]
    /\ (forall v, In (Some v) (removelast (r_lower_loop r)) -> (0 <= v)%Q).
Proof.
  destruct (domain_radar_outlines
              [mkAnnotated (mkResponse 1 "A" "ZT1" (Some 1)) (Some 4) (Some 2);
               mkAnnotated (mkResponse 2 "A" "ZT1" (Some 10)) (Some 4) (Some 2);
               mkAnnotated (mkResponse 3 "A" "ZT1" (Some 10)) (Some 4) (Some 2);
               mkAnnotated (mkResponse 4 "A" "ZT1" (Some 1)) (Some 4) (Some 2)]
              ["A"] [(2, "twee")])
    as (r & Hr & _ & _ & _ & _ & _ & _ & _ & _ & _ & _ & _ & _ & _ & _ & Hlow & _).
  - discriminate.
  - intros d [<-|[]]. simpl. auto.
  - exists r. split; [exact Hr|]. split; [|exact Hlow].
    vm_compute in Hr. injection Hr as <-. reflexivity.
Defined.

(** ** The chart of one team and the domain-level table *)

Lemma in_groupby {K Row S : Type} (cmp : K -> K -> comparison)
    (key : Row -> option K) (val : Row -> option Z)
    (agg : list (option Z) -> S) (rows : list Row) (k : K) (st : S) :
  In (k, st) (groupby cmp key val agg rows) <->
  In k (group_keys cmp (keys_of key rows))
  /\ st = agg (map val (filter (in_group cmp key k) rows)).
Proof.
  unfold groupby. rewrite in_map_iff. split.
  - intros (k' & Heq & Hk). injection Heq as -> <-. auto.
  - intros (Hk & ->). exists k. auto.
Qed.

Lemma filter_filter_and {A : Type} (p q : A -> bool) (l : list A) :
  filter p (filter q l) = filter (fun x => q x && p x) l.
Proof.
  induction l as [|a l IH]; [reflexivity|].
  cbn [filter]. destruct (q a); cbn [filter andb]; rewrite IH; reflexivity.
Qed.

Lemma team_group_rows (df_long : list AnnotatedResponse) (t : string) (d : Z) :
  filter (in_group Z.compare domainId d) (select_teams [t] df_long)
  = filter (in_group domain_key_cmp domain_key (t, d)) df_long.
Proof.
  unfold select_teams. rewrite filter_filter_and. apply filter_ext.
  intros a. unfold in_group, domain_key, isin. cbn [existsb].
  rewrite orb_false_r.
  destruct (domainId a) as [d'|]; [|apply andb_false_r].
  unfold domain_key_cmp, lex. cbn [fst snd].
  destruct (String.eqb_spec (team (response a)) t) as [->|Hne].
  - now rewrite (cmp_refl String.compare string_good_order).
  - cbn [andb]. destruct (String.compare t (team (response a))) eqn:Hc;
      try reflexivity.
    apply String.compare_eq_iff in Hc. congruence.
Qed.

Lemma team_group_keys (df_long : list AnnotatedResponse) (t : string) (d : Z) :
  In d (domains (select_teams [t] df_long)) <->
  In (t, d) (group_keys domain_key_cmp (keys_of domain_key df_long)).
Proof.
  unfold domains.
  rewrite (in_group_keys _ Z_good_order), (in_group_keys _ domain_key_good_order).
  rewrite !in_keys_of. unfold select_teams, domain_key, isin. split.
  - intros (a & Ha & Hd). apply filter_In in Ha. destruct Ha as [Ha Ht].
    cbn [existsb] in Ht. rewrite orb_false_r in Ht. apply String.eqb_eq in Ht.
    exists a. split; [exact Ha|]. rewrite Hd, Ht. reflexivity.
  - intros (a & Ha & Hk). destruct (domainId a) as [d'|] eqn:Hd; [|discriminate].
    injection Hk as Ht Hdd. exists a. split; [|congruence].
    apply filter_In. split; [exact Ha|].
    cbn [existsb]. rewrite Ht, String.eqb_refl. reflexivity.
Qed.

(** X16: the chart of a single team shows the precomputed domain-level
    table. With one team selected, a domain has median [m] and IQR [i]
    in the table behind the first radar chart exactly when the
    pipeline's domain-level table has a row for that team and domain
    with that median and IQR, although the chart recomputes them from
    the long table and with the other median computation. *)
Theorem team_chart_matches_domain_stats (df_long : list AnnotatedResponse)
    (t : string) (d : Z) (m i : option Q) :
  In (d, (m, i)) (domain_agg (select_teams [t] df_long)) <->
  exists st, In ((t, d), st) (domain_level_stats df_long)
             /\ median_score st = m /\ IQR_score st = i.
Proof.
  rewrite (proj1 (domain_agg_complete df_long [t])).
  unfold domain_level_stats. rewrite in_groupby.
  fold (domains (select_teams [t] df_long)).
  rewrite team_group_keys, team_group_rows.
  set (x := map score_of
              (filter (in_group domain_key_cmp domain_key (t, d)) df_long)).
  split.
  - intros (Hk & Hv). exists (agg_domain x). split.
    + apply in_groupby. auto.
    + unfold median_iqr in Hv. unfold agg_domain.
      cbn [median_score IQR_score].
      rewrite <- median_is_half_quantile.
      injection Hv as Hm Hi. subst m i. split; reflexivity.
  - intros (st & Hst & Hm & Hi). apply in_groupby in Hst.
    destruct Hst as [Hk ->]. split; [exact Hk|].
    fold x in Hm, Hi. unfold agg_domain in Hm, Hi.
    cbn [median_score IQR_score] in Hm, Hi.
    rewrite <- median_is_half_quantile in Hm.
    unfold median_iqr. rewrite <- Hm, <- Hi. reflexivity.
Qed.

(** ** The upper outline on the score scale *)

Lemma domain_agg_rows_in_scale (df_long : list AnnotatedResponse)
    (selected_teams : list string) (d : Z) (m i : option Q) :
  (forall a, In a df_long -> in_scale (score_of a)) ->
  In (d, (m, i)) (domain_agg (select_teams selected_teams df_long)) ->
  (forall v, m = Some v -> (1 <= v <= 10)%Q)
  /\ (forall v, i = Some v -> (0 <= v <= 9)%Q).
Proof.
  intros Hscale Hin.
  rewrite (proj1 (domain_agg_complete df_long selected_teams)) in Hin.
  apply in_groupby in Hin. destruct Hin as [_ Hv].
  set (x := map score_of
              (filter (in_group Z.compare domainId d)
                      (select_teams selected_teams df_long))) in Hv.
  assert (Hx : forall s, In s x -> in_scale s).
  { intros s Hs. unfold x in Hs. apply in_map_iff in Hs.
    destruct Hs as (a & <- & Ha). apply filter_In in Ha. destruct Ha as [Ha _].
    unfold select_teams in Ha. apply filter_In in Ha. apply Hscale. tauto. }
  destruct (group_in_scale x Hx) as [(Hmed & _ & Hiqr) _].
  unfold agg_subdomain in Hmed, Hiqr. cbn [median_score IQR_score] in Hmed, Hiqr.
  unfold median_iqr in Hv. injection Hv as Hm Hi. subst m i.
  split; assumption.
Qed.

Lemma clip0_nonnegative (v : option Q) :
  (forall q, v = Some q -> (0 <= q)%Q) -> clip0 v = v.
Proof.
  destruct v as [q|]; [|reflexivity]. intros H. cbn [clip0 option_map].
  specialize (H q eq_refl). apply Qle_bool_iff in H. now rewrite H.
Qed.

(** X17: on the score scale the centre line and the upper outline of
    the first radar chart are closed curves. When every score of the
    long table is missing or between 1 and 10 and the chart is drawn,
    every centre value lies between 1 and 10, no value of the upper
    outline is changed by the clipping, and the upper outline ends with
    its first point. *)
Theorem upper_outline_closed (df_long : list AnnotatedResponse)
    (selected_teams : list string) (domain_labels : list (Z * string))
    (r : DomainRadar) :
  (forall a, In a df_long -> in_scale (score_of a)) ->
  domain_radar df_long selected_teams domain_labels = Done r ->
  last (r_upper_loop r) None = hd None (r_upper_loop r)
  /\ last (r_center_loop r) None = hd None (r_center_loop r)
  /\ (forall v, In (Some v) (r_center_loop r) -> (1 <= v <= 10)%Q)
  /\ (forall v, In (Some v) (r_upper_loop r) -> (1 <= v)%Q).
Proof.
  intros Hscale. unfold domain_radar.
  set (df := select_teams selected_teams df_long).
  set (agg := domain_agg df).
  set (center := map (fun r => fst (snd r)) agg).
  set (spread := map (fun r => snd (snd r)) agg).
  assert (Hrow : forall d m i, In (d, (m, i)) agg ->
            (forall v, m = Some v -> (1 <= v <= 10)%Q)
            /\ (forall v, i = Some v -> (0 <= v <= 9)%Q)).
  { intros d m i. apply domain_agg_rows_in_scale. exact Hscale. }
  assert (Hcenter : forall v, In (Some v) center -> (1 <= v <= 10)%Q).
  { intros v Hv. unfold center in Hv. apply in_map_iff in Hv.
    destruct Hv as ([d [m i]] & Hm & Hin). cbn [fst snd] in Hm.
    now apply (proj1 (Hrow d m i Hin)). }
  assert (Hupper : forall v, In (Some v) (series_add center spread) ->
                             (1 <= v)%Q).
  { intros v Hv. unfold series_add, center, spread in Hv.
    rewrite combine_map_same, map_map in Hv. cbn [fst snd] in Hv.
    apply in_map_iff in Hv. destruct Hv as ([d [m i]] & Hv & Hin).
    cbn [fst snd] in Hv. destruct (Hrow d m i Hin) as [Hm Hi].
    destruct m as [u|]; [|discriminate]. destruct i as [w|]; [|discriminate].
    specialize (Hm u eq_refl). specialize (Hi w eq_refl).
    pose proof (Qred_correct (u + w)) as Hred.
    assert (Hvq : v = Qred (u + w)) by congruence. subst v. lra. }
  assert (Hclip : clip_lower0 (series_add center spread)
                  = series_add center spread).
  { unfold clip_lower0. rewrite <- (map_id (series_add center spread)) at 2.
    apply map_ext_in. intros v Hv. apply (clip0_nonnegative v).
    intros q ->. specialize (Hupper q Hv). lra. }
  rewrite Hclip.
  destruct (labels_for domain_labels (domains df)) as [names|e];
    cbn [and_then]; [|discriminate].
  destruct (map (theta_name (domain_column_dtype df_long)) (domains df))
    as [|t0 ts]; cbn [close_loop and_then]; [discriminate|].
  destruct (series_sub center spread) as [|l0 ls];
    cbn [close_loop and_then]; [discriminate|].
  destruct (series_add center spread) as [|u0 us] eqn:Eu;
    cbn [close_loop and_then]; [discriminate|].
  destruct center as [|c0 cs] eqn:Ec; cbn [close_loop and_then]; [discriminate|].
  destruct names as [|n0 ns]; cbn [close_loop and_then]; [discriminate|].
  intros Hr. injection Hr as <-.
  cbn [r_upper_loop r_center_loop].
  rewrite !app_comm_cons, !last_last.
  split; [reflexivity|]. split; [reflexivity|]. split.
  - intros v Hv. apply Hcenter. apply in_app_or in Hv.
    destruct Hv as [Hv|[Hv|[]]]; [exact Hv|rewrite <- Hv; now left].
  - intros v Hv. apply Hupper. apply in_app_or in Hv.
    destruct Hv as [Hv|[Hv|[]]]; [exact Hv|rewrite <- Hv; now left].
Qed.

Lemma upper_outline_closed_witness :
  exists r,
    domain_radar
      [mkAnnotated (mkResponse 1 "A" "ZT1" (Some 1)) (Some 4) (Some 2);
       mkAnnotated (mkResponse 2 "A" "ZT1" (Some 10)) (Some 4) (Some 2)]
      ["A"] [(2, "twee")]
    = Done r
    /\ last (r_upper_loop r) None = hd None (r_upper_loop r).
Proof.
  eexists. split; [reflexivity|].
  apply (upper_outline_closed
           [mkAnnotated (mkResponse 1 "A" "ZT1" (Some 1)) (Some 4) (Some 2);
            mkAnnotated (mkResponse 2 "A" "ZT1" (Some 10)) (Some 4) (Some 2)]
           ["A"] [(2, "twee")]).
  - intros a [<-|[<-|[]]] v Hv; injection Hv as <-; lia.
  - reflexivity.
Defined.

(** ** Choosing the domain of the second chart *)

Lemma name_to_id_get_in (entries : list (string * Z)) (name : string) (d : Z) :
  name_to_id_get entries name = Some d -> In (name, d) entries.
Proof.
  induction entries as [|[n k] rest IH]; cbn [name_to_id_get]; [discriminate|].
  destruct (name_to_id_get rest name) as [d'|].
  - intros H. right. apply IH. exact H.
  - destruct (String.eqb_spec name n) as [->|_]; [|discriminate].
    intros H. left. congruence.
Qed.

Lemma name_to_id_get_unique (entries : list (string * Z)) (name : string) (d : Z) :
  NoDup (map fst entries) -> In (name, d) entries ->
  name_to_id_get entries name = Some d.
Proof.
  induction entries as [|[n k] rest IH]; intros Hnd Hin; [destruct Hin|].
  cbn [map fst] in Hnd. apply NoDup_cons_iff in Hnd. destruct Hnd as [Hn Hnd].
  cbn [name_to_id_get]. destruct Hin as [Heq|Hin].
  - injection Heq as -> ->.
    destruct (name_to_id_get rest name) as [d'|] eqn:Hget.
    + exfalso. apply Hn. apply name_to_id_get_in in Hget.
      apply (in_map fst) in Hget. exact Hget.
    + now rewrite String.eqb_refl.
  - now rewrite (IH Hnd Hin).
Qed.

Lemma name_to_id_get_some (entries : list (string * Z)) (name : string) :
  In name (map fst entries) -> exists d, name_to_id_get entries name = Some d.
Proof.
  induction entries as [|[n k] rest IH]; intros Hin; [destruct Hin|].
  cbn [name_to_id_get].
  destruct (name_to_id_get rest name) as [d'|] eqn:Hget; [eauto|].
  destruct Hin as [Heq|Hin].
  - cbn [fst] in Heq. subst n. rewrite String.eqb_refl. eauto.
  - destruct (IH Hin) as (d & Hd). congruence.
Qed.

Lemma labels_for_entries (domain_labels : list (Z * string)) (ds : list Z)
    (names : list string) :
  labels_for domain_labels ds = Done names ->
  List.length names = List.length ds
  /\ forall name d, In (name, d) (combine names ds) ->
                    label_get_domain domain_labels d = Done name.
Proof.
  revert names. induction ds as [|d ds IH]; intros names; cbn [labels_for].
  - intros H. injection H as <-. split; [reflexivity|]. intros ? ? [].
  - destruct (label_get_domain domain_labels d) as [name|e] eqn:Hd;
      cbn [and_then]; [|discriminate].
    destruct (labels_for domain_labels ds) as [rest|e] eqn:Hrest;
      cbn [and_then]; [|discriminate].
    intros H. injection H as <-. destruct (IH rest eq_refl) as [Hlen Hall].
    split; [cbn [List.length]; now rewrite Hlen|].
    intros n k [Heq|Hin]; [injection Heq as <- <-; exact Hd|now apply Hall].
Qed.

Lemma name_to_id_get_last (entries : list (string * Z)) (name : string) (d : Z) :
  name_to_id_get entries name = Some d ->
  exists pre post, entries = (pre ++ (name, d) :: post)%list
                   /\ ~ In name (map fst post).
Proof.
  induction entries as [|[n k] rest IH]; cbn [name_to_id_get]; [discriminate|].
  destruct (name_to_id_get rest name) as [d'|] eqn:Hget.
  - intros H. destruct (IH H) as (pre & post & -> & Hpost).
    exists ((n, k) :: pre), post. split; [reflexivity|exact Hpost].
  - destruct (String.eqb_spec name n) as [->|_]; [|discriminate].
    intros H. injection H as ->. exists [], rest. split; [reflexivity|].
    intros Hin. destruct (name_to_id_get_some rest n Hin) as (d' & Hd').
    congruence.
Qed.

(** X18: choosing a domain by its name. The name chosen in the select
    box is looked up in a dict from label to domain id. The lookup of
    any listed name gives a domain of the axes that has this label, the
    last one listed with it; when the labels of the axis domains are
    pairwise different, looking up the name listed at a position gives
    back the domain at that position. *)
Theorem name_to_id_round_trip (domain_labels : list (Z * string))
    (ds : list Z) (names : list string) :
  labels_for domain_labels ds = Done names ->
  (forall name, In name names ->
     exists d, name_to_id_get (name_to_id names ds) name = Some d
       /\ In d ds
       /\ label_get_domain domain_labels d = Done name
       /\ exists pre post,
            name_to_id names ds = (pre ++ (name, d) :: post)%list
            /\ ~ In name (map fst post))
  /\ (NoDup names ->
      forall k d, nth_error ds k = Some d ->
        exists name, nth_error names k = Some name
          /\ name_to_id_get (name_to_id names ds) name = Some d).
Proof.
  intros Hlab. destruct (labels_for_entries _ _ _ Hlab) as [Hlen Hall].
  assert (Hfst : map fst (combine names ds) = names).
  { clear Hall Hlab. revert ds Hlen.
    induction names as [|n names IH]; intros [|d ds] Hlen;
      try discriminate; [reflexivity|].
    cbn [combine map fst]. f_equal. apply IH.
    cbn [List.length] in Hlen. lia. }
  unfold name_to_id. split.
  - intros name Hin.
    destruct (name_to_id_get_some (combine names ds) name) as (d & Hd);
      [now rewrite Hfst|].
    exists d. split; [exact Hd|].
    pose proof (name_to_id_get_in _ _ _ Hd) as Hentry.
    split; [now apply in_combine_r in Hentry|].
    split; [now apply Hall|].
    now apply name_to_id_get_last.
  - intros Hnd k d Hk.
    assert (Hkn : (k < List.length names)%nat).
    { rewrite Hlen. apply nth_error_Some. congruence. }
    destruct (nth_error names k) as [name|] eqn:Hname;
      [|apply nth_error_None in Hname; lia].
    exists name. split; [reflexivity|].
    apply name_to_id_get_unique.
    + now rewrite Hfst.
    + apply (nth_error_In _ k). rewrite nth_error_combine, Hname, Hk.
      reflexivity.
Qed.

Lemma name_to_id_round_trip_witness :
  name_to_id_get (name_to_id ["een"; "twee"; "een"] [1; 2; 3]) "een" = Some 3
  /\ name_to_id_get (name_to_id ["een"; "twee"] [1; 2]) "een" = Some 1.
Proof.
  split.
  - destruct (proj1 (name_to_id_round_trip
                       [(1, "een"); (2, "twee"); (3, "een")] [1; 2; 3]
                       ["een"; "twee"; "een"] eq_refl) "een")
      as (d & Hd & _); [simpl; auto|].
    pose proof Hd as Hd'. vm_compute in Hd'. injection Hd' as <-. exact Hd.
  - destruct (proj2 (name_to_id_round_trip
                       [(1, "een"); (2, "twee")] [1; 2]
                       ["een"; "twee"] eq_refl)) with (k := 0%nat) (d := 1)
      as (name & Hname & Hget).
    + repeat constructor; simpl; intuition discriminate.
    + reflexivity.
    + injection Hname as <-. exact Hget.
Defined.

(** X19: the second chart has something to show. For a domain of the
    axes of the first chart, the rows of that domain are not empty, so
    the list of its questions is not empty and closing the outlines of
    the second chart cannot fail for lack of a first element; the
    questions are listed once each, in increasing order, and they are
    the questions of the selected rows of that domain. *)
Theorem selected_domain_has_questions (df : list AnnotatedResponse) (d : Z) :
  In d (domains df) ->
  questions (select_domain d df) <> []
  /\ StronglySorted (fun a b => String.compare a b = Lt)
                    (questions (select_domain d df))
  /\ NoDup (questions (select_domain d df))
  /\ (forall q, In q (questions (select_domain d df)) <->
                exists a, In a df /\ domainId a = Some d
                          /\ question_code (response a) = q).
Proof.
  intros Hd.
  assert (Hq : forall q, In q (questions (select_domain d df)) <->
                exists a, In a df /\ domainId a = Some d
                          /\ question_code (response a) = q).
  { intros q. unfold questions, select_domain.
    rewrite (in_group_keys _ string_good_order), in_map_iff. split.
    - intros (a & <- & Ha). apply filter_In in Ha. destruct Ha as [Ha Hda].
      exists a. split; [exact Ha|]. split; [|reflexivity].
      destruct (domainId a) as [d'|]; [|discriminate].
      apply Z.eqb_eq in Hda. now subst.
    - intros (a & Ha & Hda & <-). exists a. split; [reflexivity|].
      apply filter_In. split; [exact Ha|]. rewrite Hda. apply Z.eqb_refl. }
  pose proof (group_keys_sorted String.compare string_good_order
                (map (fun a => question_code (response a))
                     (select_domain d df))) as Hsorted.
  split; [|split; [exact Hsorted|split; [|exact Hq]]].
  - unfold domains in Hd.
    apply (in_group_keys _ Z_good_order), in_keys_of in Hd.
    destruct Hd as (a & Ha & Hda).
    assert (Hin : In (question_code (response a))
                     (questions (select_domain d df)))
      by (apply Hq; exists a; auto).
    intros Hnil. rewrite Hnil in Hin. destruct Hin.
  - exact (strictly_sorted_NoDup _ _ string_good_order Hsorted).
Qed.

Lemma selected_domain_has_questions_witness :
  questions
    (select_domain 2
       [mkAnnotated (mkResponse 1 "A" "ZT7" (Some 1)) (Some 4) (Some 2);
        mkAnnotated (mkResponse 1 "A" "ZT1" (Some 3)) (Some 4) (Some 2);
        mkAnnotated (mkResponse 1 "A" "ZT2" (Some 5)) (Some 3) (Some 1)])
  <> [].
Proof.
  apply (selected_domain_has_questions
           [mkAnnotated (mkResponse 1 "A" "ZT7" (Some 1)) (Some 4) (Some 2);
            mkAnnotated (mkResponse 1 "A" "ZT1" (Some 3)) (Some 4) (Some 2);
            mkAnnotated (mkResponse 1 "A" "ZT2" (Some 5)) (Some 3) (Some 1)] 2).
  vm_compute. auto.
Defined.

(** ** Running the recoding step again *)

(** X20: the recoding of step 6a undoes itself. Applied a second time
    to the long table it gives back the table as it was before the first
    application, whatever the scores are, so the step has to run exactly
    once per run. *)
Theorem recode_long_table_twice (df : list AnnotatedResponse) :
  recode (recode df) = df.
Proof.
  rewrite !recode_rows_annotated, map_map.
  rewrite <- (map_id df) at 2. apply map_ext. intros [[e t q s] sd d].
  unfold recode_row.
  cbn [code_of AnnotatedResponse_frame ResponseRecord_frame response question_code].
  destruct (isin reverse_items q) eqn:Hq;
    cbn [code_of set_score score_of AnnotatedResponse_frame ResponseRecord_frame
         response subdomain_id domainId employee_id team question_code score];
    rewrite Hq; [|reflexivity].
  cbn [code_of set_score score_of AnnotatedResponse_frame ResponseRecord_frame
       response subdomain_id domainId employee_id team question_code score].
  do 2 f_equal. destruct s as [v|]; cbn [option_map]; [f_equal; lia|reflexivity].
Qed.
